(** * A shallow embedding of [mp3/codefromscratch/logistic_model.py]

    The Python class [LogisticModel] keeps one weight array [self.W] and
    offers construction, [save_model], [load_model], [sigmoid], [forward],
    [backward], [classify] and [fit].  Every method is embedded as a
    computation in a state-and-exception monad over the object and the
    world it touches (files, standard output, the random generator).

    The NumPy operations the class calls ([np.dot], [.T], broadcasting
    arithmetic, [astype], [tofile], [fromfile]) are embedded in
    [Module NumPy] for arrays of rank 0, 1 and 2, with the shape checks
    NumPy performs.  The scalar arithmetic of float64 is an interface
    ([Float64]): what the methods compute is proved for every instance,
    and [Module Binary64] instantiates it with IEEE binary64 (the
    [spec_float] operations of the Standard Library), where the range of
    the logistic function is settled. *)

From Stdlib Require Import ZArith List String Lia Bool.
From Stdlib Require Strings.Byte.
From stdpp Require Import base option list list_numbers gmap strings.

Open Scope Z_scope.

(** ** Python exceptions and results *)

Inductive exn : Type :=
| AttributeError   (* attribute access on [None] *)
| ValueError       (* shape mismatch, negative dimension *)
| FileNotFoundError.

Inductive result (A : Type) : Type :=
| Ok (a : A)
| Raise (e : exn).
Arguments Ok {A} a.
Arguments Raise {A} e.

Definition rbind {A B} (r : result A) (k : A -> result B) : result B :=
  match r with
  | Ok a => k a
  | Raise e => Raise e
  end.

(** ** NumPy arrays of rank at most two *)

Module NumPy.

(** [Arr0 x] is a scalar, [Arr1 v] has shape [(length v,)] and
    [Arr2 c rows] has shape [(length rows, c)]. *)
Inductive ndarray (A : Type) : Type :=
| Arr0 (x : A)
| Arr1 (v : list A)
| Arr2 (c : nat) (rows : list (list A)).
Arguments Arr0 {A} x.
Arguments Arr1 {A} v.
Arguments Arr2 {A} c rows.

(** Every row of a rank-2 array has the declared number of columns. *)
Definition wf_rows {A} (c : nat) (rows : list (list A)) : Prop :=
  Forall (fun row => length row = c) rows.

Definition wf {A} (a : ndarray A) : Prop :=
  match a with
  | Arr2 c rows => wf_rows c rows
  | _ => True
  end.

Definition ndim {A} (a : ndarray A) : nat :=
  match a with
  | Arr0 _ => 0
  | Arr1 _ => 1
  | Arr2 _ _ => 2
  end.

Definition shape {A} (a : ndarray A) : list nat :=
  match a with
  | Arr0 _ => []
  | Arr1 v => [length v]
  | Arr2 c rows => [length rows; c]
  end.

(** [len(a)]: the extent of the first axis ([None] for a scalar). *)
Definition len {A} (a : ndarray A) : option nat :=
  match a with
  | Arr0 _ => None
  | Arr1 v => Some (length v)
  | Arr2 _ rows => Some (length rows)
  end.

(** The elements in C (row-major) order, as [tofile] writes them. *)
Definition ravel {A} (a : ndarray A) : list A :=
  match a with
  | Arr0 x => [x]
  | Arr1 v => v
  | Arr2 _ rows => concat rows
  end.

(** [tab n f] is [[f 0; ...; f (n-1)]]. *)
Definition tab {A} (n : nat) (f : nat -> A) : list A :=
  fmap (M:=list) f (seq 0 n).

(** Column [j] of a list of rows. *)
Definition column {A} `{!Inhabited A} (j : nat) (rows : list (list A)) : list A :=
  fmap (M:=list) (fun row : list A => row !!! j) rows.

(** [a.T]: no effect below rank 2. *)
Definition T {A} `{!Inhabited A} (a : ndarray A) : ndarray A :=
  match a with
  | Arr2 c rows => Arr2 (length rows) (tab c (fun j => column j rows))
  | _ => a
  end.

(** Elementwise application of a unary function ([-x], [np.exp(x)]). *)
Definition amap {A B} (f : A -> B) (a : ndarray A) : ndarray B :=
  match a with
  | Arr0 x => Arr0 (f x)
  | Arr1 v => Arr1 (fmap (M:=list) f v)
  | Arr2 c rows => Arr2 c (fmap (M:=list) (fmap (M:=list) f) rows)
  end.

(** *** Broadcasting *)

(** Every array seen as a matrix: a scalar is [1 x 1], a vector of
    length [n] is [1 x n]. *)
Definition as2 {A} (a : ndarray A) : nat * list (list A) :=
  match a with
  | Arr0 x => (1%nat, [[x]])
  | Arr1 v => (length v, [v])
  | Arr2 c rows => (c, rows)
  end.

(** The common extent of two axes, when they are compatible. *)
Definition bdim (m n : nat) : option nat :=
  if (m =? n)%nat then Some m
  else if (m =? 1)%nat then Some n
  else if (n =? 1)%nat then Some m
  else None.

(** An axis of extent one is read at index 0 whatever the index. *)
Definition bidx (n i : nat) : nat := if (n =? 1)%nat then 0%nat else i.

Definition of2 {A} `{!Inhabited A} (k c : nat) (rows : list (list A)) : ndarray A :=
  match k with
  | O => Arr0 ((rows !!! 0%nat) !!! 0%nat)
  | S O => Arr1 (rows !!! 0%nat)
  | _ => Arr2 c rows
  end.

(** A binary elementwise operation with NumPy's broadcasting rule. *)
Definition broadcast {A B C} `{!Inhabited A, !Inhabited B, !Inhabited C}
    (f : A -> B -> C) (a : ndarray A) (b : ndarray B) : result (ndarray C) :=
  let '(ca, ra) := as2 a in
  let '(cb, rb) := as2 b in
  match bdim (length ra) (length rb), bdim ca cb with
  | Some r, Some c =>
      Ok (of2 (Nat.max (ndim a) (ndim b)) c
            (tab r (fun i => tab c (fun j =>
               f ((ra !!! bidx (length ra) i) !!! bidx ca j)
                 ((rb !!! bidx (length rb) i) !!! bidx cb j)))))
  | _, _ => Raise ValueError
  end.

(** An in-place operation [a op= b]: the broadcast shape has to be the
    shape of [a] itself. *)
Definition inplace {A B} `{!Inhabited A, !Inhabited B}
    (f : A -> B -> A) (a : ndarray A) (b : ndarray B) : result (ndarray A) :=
  rbind (broadcast f a b) (fun r =>
    if decide (shape r = shape a) then Ok r else Raise ValueError).

(** *** [np.dot] *)

Section Dot.
Context {A : Type} `{!Inhabited A}.
Variables (zero : A) (add mul : A -> A -> A).

(** Sum of the pairwise products, accumulated from the left, starting
    from zero. *)
Definition dotp (u v : list A) : A :=
  foldl add zero (zip_with mul u v).

Definition dot (a b : ndarray A) : result (ndarray A) :=
  match a, b with
  | Arr0 x, _ => Ok (amap (mul x) b)
  | _, Arr0 y => Ok (amap (fun x => mul x y) a)
  | Arr1 u, Arr1 v =>
      if (length u =? length v)%nat then Ok (Arr0 (dotp u v))
      else Raise ValueError
  | Arr1 u, Arr2 c rows =>
      if (length u =? length rows)%nat
      then Ok (Arr1 (tab c (fun j => dotp u (column j rows))))
      else Raise ValueError
  | Arr2 c rows, Arr1 v =>
      if (c =? length v)%nat
      then Ok (Arr1 (fmap (M:=list) (fun row => dotp row v) rows))
      else Raise ValueError
  | Arr2 c rows, Arr2 c' rows' =>
      if (c =? length rows')%nat
      then Ok (Arr2 c' (fmap (M:=list)
                         (fun row => tab c' (fun j => dotp row (column j rows'))) rows))
      else Raise ValueError
  end.
End Dot.

(** *** Raw binary files of 4-byte items *)

(** The memory image of one float32 item. *)
Definition item4 : Type := Byte.byte * Byte.byte * Byte.byte * Byte.byte.

Definition item_bytes (w : item4) : list Byte.byte :=
  let '(a, b, c, d) := w in [a; b; c; d].

(** [tofile]: the items one after the other, no header. *)
Definition tofile_bytes (ws : list item4) : list Byte.byte :=
  concat (fmap (M:=list) item_bytes ws).

(** [fromfile]: as many whole items as the file holds. *)
Fixpoint fromfile_items (bs : list Byte.byte) : list item4 :=
  match bs with
  | a :: b :: c :: d :: rest => (a, b, c, d) :: fromfile_items rest
  | _ => []
  end.

End NumPy.
Import NumPy.

(** ** The scalar interface of float64 *)

(** The arithmetic NumPy performs on float64 items, the literals the
    class uses, and the conversions between a float64 value and the memory
    image of a float32 item ([astype('float32')] and the widening that
    arithmetic on a float32 array performs). *)
Class Float64 (F : Type) : Type := {
  f64_zero : F;                     (* 0.0 *)
  f64_one : F;                      (* 1.0 *)
  f64_half : F;                     (* 0.5 *)
  f64_tenth : F;                    (* 0.1 *)
  f64_add : F -> F -> F;
  f64_sub : F -> F -> F;
  f64_mul : F -> F -> F;
  f64_div : F -> F -> F;
  f64_neg : F -> F;
  f64_exp : F -> F;                 (* np.exp on one item *)
  f64_gt : F -> F -> bool;          (* x > y *)
  f64_to_f32 : F -> item4;          (* the float32 item nearest to x *)
  f64_of_f32 : item4 -> F           (* the value of a float32 item *)
}.

#[export] Instance Float64_inhabited `{Float64 F} : Inhabited F :=
  populate f64_zero.

(** The generator behind [np.random]: one draw returns a sample and the
    next generator state. *)
Class RandomState (F G : Type) : Type := {
  random_uniform : F -> F -> G -> F * G;   (* low, high *)
  random_normal : F -> F -> G -> F * G     (* loc, scale *)
}.

Inductive dtype : Type := float32 | float64.

(** What [print] receives. *)
Inductive printed : Type :=
| PStr (s : string)
| PInt (n : Z).

Section Model.
Context {F G : Type} `{Float64 F} `{RandomState F G}.

(** *** The object and the world *)

(** The attributes of a [LogisticModel] instance; [W = None] is
    Python's [self.W = None].  The weight array carries its dtype: the
    items of a [float32] array are kept as the float64 values they
    denote. *)
Record LogisticModel : Type := {
  ndims : Z;
  W_init : string;
  W : option (dtype * ndarray F)
}.

Record world : Type := {
  files : gmap string (list Byte.byte);
  stdout : list (list printed);
  random_state : G
}.

Definition state : Type := LogisticModel * world.

(** Computations that read and write the state and may raise. *)
Definition M (A : Type) : Type := state -> result A * state.

Definition ret {A} (a : A) : M A := fun s => (Ok a, s).

Definition bind {A B} (c : M A) (k : A -> M B) : M B :=
  fun s =>
    match c s with
    | (Ok a, s') => k a s'
    | (Raise e, s') => (Raise e, s')
    end.

Definition lift {A} (r : result A) : M A := fun s => (r, s).

Definition print (args : list printed) : M unit :=
  fun '(self, w) =>
    (Ok tt, (self, {| files := files w;
                      stdout := stdout w ++ [args];
                      random_state := random_state w |})).

(** Reading [self.W] in order to use it as an array. *)
Definition get_W : M (dtype * ndarray F) :=
  fun '(self, w) =>
    match W self with
    | Some a => (Ok a, (self, w))
    | None => (Raise AttributeError, (self, w))
    end.

Definition set_W (a : dtype * ndarray F) : M unit :=
  fun '(self, w) =>
    (Ok tt, ({| ndims := ndims self; W_init := W_init self; W := Some a |}, w)).

End Model.

Notation "x <- c ;; k" := (bind c (fun x => k))
  (at level 62, c at next level, right associativity).
Notation "c ;;; k" := (bind c (fun _ => k))
  (at level 62, right associativity).

Section Methods.
Context {F G : Type} `{Float64 F} `{RandomState F G}.

Local Abbreviation M := (@M F G).

(** [for x in xs: body(x)] *)
Fixpoint for_each {A} (xs : list A) (body : A -> M unit) : M unit :=
  match xs with
  | [] => ret tt
  | x :: rest => body x ;;; for_each rest body
  end.

(** *** Array constructors used by [__init__] *)

(** [np.zeros([n, c])] and [np.ones([n, c])]: a negative extent is
    refused. *)
Definition np_full (x : F) (n : Z) (c : nat) : result (ndarray F) :=
  if n <? 0 then Raise ValueError
  else Ok (Arr2 c (replicate (Z.to_nat n) (replicate c x))).

Definition np_zeros := np_full f64_zero.
Definition np_ones := np_full f64_one.

(** [k] successive draws. *)
Fixpoint draw_list (sample : G -> F * G) (k : nat) (g : G) : list F * G :=
  match k with
  | O => ([], g)
  | S k' =>
      let '(x, g1) := sample g in
      let '(xs, g2) := draw_list sample k' g1 in
      (x :: xs, g2)
  end.

Fixpoint draw_rows (sample : G -> F * G) (r c : nat) (g : G) : list (list F) * G :=
  match r with
  | O => ([], g)
  | S r' =>
      let '(row, g1) := draw_list sample c g in
      let '(rows, g2) := draw_rows sample r' c g1 in
      (row :: rows, g2)
  end.

(** [np.random.<dist>(size=[n, c], ...)]: filled in row-major order. *)
Definition np_random (sample : G -> F * G) (n : Z) (c : nat) (g : G)
  : result (ndarray F) * G :=
  if n <? 0 then (Raise ValueError, g)
  else let '(rows, g') := draw_rows sample (Z.to_nat n) c g in
       (Ok (Arr2 c rows), g').

(** *** [LogisticModel.__init__] *)

(** The constructor runs on a fresh object; it yields the object, or
    raises.  The four named policies set [W]; any other name prints a
    message and leaves [W = None]. *)
Definition __init__ (ndims : Z) (W_init : string) (w : world (G:=G))
  : result (LogisticModel (F:=F)) * world (G:=G) :=
  let self W := {| ndims := ndims; W_init := W_init; W := W |} in
  if String.eqb W_init "zeros" then
    match np_zeros (ndims + 1) 1 with
    | Ok a => (Ok (self (Some (float64, a))), w)
    | Raise e => (Raise e, w)
    end
  else if String.eqb W_init "ones" then
    match np_ones (ndims + 1) 1 with
    | Ok a => (Ok (self (Some (float64, a))), w)
    | Raise e => (Raise e, w)
    end
  else if String.eqb W_init "uniform" then
    let '(r, g) := np_random (random_uniform f64_zero f64_one) (ndims + 1) 1
                     (random_state w) in
    let w' := {| files := files w; stdout := stdout w; random_state := g |} in
    match r with
    | Ok a => (Ok (self (Some (float64, a))), w')
    | Raise e => (Raise e, w')
    end
  else if String.eqb W_init "gaussian" then
    let '(r, g) := np_random (random_normal f64_zero f64_tenth) (ndims + 1) 1
                     (random_state w) in
    let w' := {| files := files w; stdout := stdout w; random_state := g |} in
    match r with
    | Ok a => (Ok (self (Some (float64, a))), w')
    | Raise e => (Raise e, w')
    end
  else
    (Ok (self None),
     {| files := files w;
        stdout := stdout w ++ [[PStr "Unknown W_init "; PStr W_init]];
        random_state := random_state w |}).

(** *** [save_model] and [load_model] *)

(** Files are a finite map from paths to contents.  Writing creates or
    replaces the entry (opening for writing is taken to succeed); reading
    a path that has no entry raises. *)
Definition write_file (path : string) (bs : list Byte.byte) : M unit :=
  fun '(self, w) =>
    (Ok tt, (self, {| files := <[path := bs]> (files w);
                      stdout := stdout w;
                      random_state := random_state w |})).

Definition read_file (path : string) : M (list Byte.byte) :=
  fun '(self, w) =>
    match files w !! path with
    | Some bs => (Ok bs, (self, w))
    | None => (Raise FileNotFoundError, (self, w))
    end.

(** [self.W.astype('float32').tofile(weight_file)] *)
Definition save_model (weight_file : string) : M unit :=
  a <- get_W ;;
  write_file weight_file
    (tofile_bytes (fmap (M:=list) f64_to_f32 (ravel (snd a)))) ;;;
  print [PStr "model saved to"; PStr weight_file].

(** [self.W = np.fromfile(weight_file, dtype=np.float32)] *)
Definition load_model (weight_file : string) : M unit :=
  bs <- read_file weight_file ;;
  set_W (float32, Arr1 (fmap (M:=list) f64_of_f32 (fromfile_items bs))) ;;;
  print [PStr "model loaded from"; PStr weight_file].

(** *** [sigmoid], [forward], [backward], [classify] *)

(** [1 / (1 + np.exp(-x))] *)
Definition sigmoid (x : ndarray F) : M (ndarray F) :=
  s <- lift (broadcast f64_add (Arr0 f64_one) (amap f64_exp (amap f64_neg x))) ;;
  lift (broadcast f64_div (Arr0 f64_one) s).

Definition np_dot : ndarray F -> ndarray F -> result (ndarray F) :=
  dot f64_zero f64_add f64_mul.

Definition forward (X : ndarray F) : M (ndarray F) :=
  a <- get_W ;;
  D <- lift (np_dot (T (snd a)) (T X)) ;;
  S <- sigmoid D ;;
  ret S.

Definition backward (Y_true X : ndarray F) : M (ndarray F) :=
  a <- get_W ;;
  D <- lift (np_dot (T (snd a)) (T X)) ;;
  P <- lift (broadcast f64_mul (amap f64_neg Y_true) D) ;;
  let E := amap f64_exp P in
  N <- lift (broadcast f64_mul (amap f64_neg Y_true) E) ;;
  D <- lift (broadcast f64_add (Arr0 f64_one) E) ;;
  F' <- lift (broadcast f64_div N D) ;;
  G' <- lift (np_dot (T X) (T F')) ;;
  ret G'.

(** [(P > 0.5) * 2 - 1]: a boolean array, turned into integers by the
    multiplication. *)
Definition classify (X : ndarray F) : M (ndarray Z) :=
  P <- forward X ;;
  B <- lift (broadcast f64_gt P (Arr0 f64_half)) ;;
  B2 <- lift (broadcast (fun (b : bool) (k : Z) => Z.b2z b * k) B (Arr0 2)) ;;
  C <- lift (broadcast Z.sub B2 (Arr0 1)) ;;
  ret C.

(** *** [fit] *)

(** Storing a float64 result in an array of the given dtype. *)
Definition cast (dt : dtype) (x : F) : F :=
  match dt with
  | float64 => x
  | float32 => f64_of_f32 (f64_to_f32 x)
  end.

(** [self.W -= D]: computed in float64, stored with the dtype of
    [self.W]. *)
Definition isub_W (D : ndarray F) : M unit :=
  a <- get_W ;;
  r <- lift (inplace f64_sub (snd a) D) ;;
  set_W (fst a, amap (cast (fst a)) r).

(** One pass of the loop body. *)
Definition fit_body (Y_true X : ndarray F) (learn_rate : F) (i : Z) : M unit :=
  G' <- backward Y_true X ;;
  D <- lift (broadcast f64_mul G' (Arr0 learn_rate)) ;;
  isub_W D ;;;
  print [PInt i].

(** [for i in range(max_iters): ...] *)
Definition fit (Y_true X : ndarray F) (learn_rate : F) (max_iters : Z) : M unit :=
  for_each (seqZ 0 max_iters) (fit_body Y_true X learn_rate).

End Methods.

(** ** IEEE binary64 as an instance of the scalar interface *)

From Stdlib Require Import Floats.SpecFloat.

Module Binary64.

(** A float64 item is a [spec_float] of precision 53 and maximal
    exponent 1024; a float32 item one of precision 24 and maximal
    exponent 128. *)
Definition prec : Z := 53.
Definition emax : Z := 1024.
Definition prec32 : Z := 24.
Definition emax32 : Z := 128.

Definition zero : spec_float := S754_zero false.
Definition one : spec_float := S754_finite false 4503599627370496 (-52).
Definition half : spec_float := S754_finite false 4503599627370496 (-53).
Definition tenth : spec_float := S754_finite false 7205759403792794 (-56).

Definition add := SFadd prec emax.
Definition sub := SFsub prec emax.
Definition mul := SFmul prec emax.
Definition div := SFdiv prec emax.
Definition neg := SFopp.
Definition gt (x y : spec_float) : bool := SFltb y x.

(** The float nearest to an integer. *)
Definition of_Z (n : Z) : spec_float := binary_normalize prec emax n 0 false.

(** *** The exponential

    NumPy hands [np.exp] to the C library.  Here the exponential is
    computed in fixed point with 128 fractional bits (argument reduction
    by multiples of [ln 2], then the power series) and rounded once to
    binary64. *)
Definition ln2_128 : Z := 235865763225513294137944142764154484399.
Definition one_128 : Z := 2 ^ 128.

Fixpoint exp_series (r : Z) (n : nat) (i : Z) (term acc : Z) : Z :=
  match n with
  | O => acc
  | S n' =>
      let term' := (term * r) / (one_128 * i) in
      exp_series r n' (i + 1) term' (acc + term')
  end.

Definition exp (x : spec_float) : spec_float :=
  match x with
  | S754_nan => S754_nan
  | S754_infinity false => S754_infinity false
  | S754_infinity true => zero
  | S754_zero _ => one
  | S754_finite s m e =>
      if 11 <? Z.pos (digits2_pos m) + e
      then (if s then zero else S754_infinity false)
      else
        let X := cond_Zopp s (Z.shiftl (Z.pos m) (e + 128)) in
        let k := (2 * X + ln2_128) / (2 * ln2_128) in
        let r := X - k * ln2_128 in
        binary_normalize prec emax (exp_series r 40 1 one_128 one_128) (k - 128) false
  end.

(** *** float32 items *)

(** [astype('float32')] on one item: round to precision 24. *)
Definition to_binary32 (x : spec_float) : spec_float :=
  match x with
  | S754_finite s m e =>
      binary_normalize prec32 emax32 (cond_Zopp s (Z.pos m)) e s
  | _ => x
  end.

(** The 32 bits of a float32: sign, 8 exponent bits, 23 fraction bits. *)
Definition bits_of_binary32 (x : spec_float) : Z :=
  let sign (s : bool) := if s then 2 ^ 31 else 0 in
  match x with
  | S754_zero s => sign s
  | S754_infinity s => sign s + 255 * 2 ^ 23
  | S754_nan => 255 * 2 ^ 23 + 2 ^ 22
  | S754_finite s m e => sign s + (e + 149) * 2 ^ 23 + Z.pos m
  end.

Definition binary32_of_bits (b : Z) : spec_float :=
  let s := Z.testbit b 31 in
  let e := Z.land (Z.shiftr b 23) 255 in
  let f := Z.land b (2 ^ 23 - 1) in
  if e =? 0 then
    match f with
    | Z.pos m => S754_finite s m (-149)
    | _ => S754_zero s
    end
  else if e =? 255 then
    (if f =? 0 then S754_infinity s else S754_nan)
  else
    match f + 2 ^ 23 with
    | Z.pos m => S754_finite s m (e - 150)
    | _ => S754_nan
    end.

Definition byte_of_Z (n : Z) : Byte.byte :=
  match Byte.of_N (Z.to_N (n mod 256)) with
  | Some b => b
  | None => Byte.x00
  end.

Definition Z_of_byte (b : Byte.byte) : Z := Z.of_N (Byte.to_N b).

(** Four bytes, least significant first. *)
Definition item_of_bits (b : Z) : item4 :=
  (byte_of_Z b, byte_of_Z (Z.shiftr b 8),
   byte_of_Z (Z.shiftr b 16), byte_of_Z (Z.shiftr b 24)).

Definition bits_of_item (w : item4) : Z :=
  let '(b0, b1, b2, b3) := w in
  Z_of_byte b0 + 2 ^ 8 * Z_of_byte b1 + 2 ^ 16 * Z_of_byte b2
  + 2 ^ 24 * Z_of_byte b3.

Definition to_f32 (x : spec_float) : item4 :=
  item_of_bits (bits_of_binary32 (to_binary32 x)).

(** Widening is exact; the result is put in binary64's normal form. *)
Definition of_f32 (w : item4) : spec_float :=
  match binary32_of_bits (bits_of_item w) with
  | S754_finite s m e => binary_normalize prec emax (cond_Zopp s (Z.pos m)) e s
  | y => y
  end.

(** The instance for a given implementation [e] of the exponential;
    [binary64] takes the one above. *)
Definition binary64_with (e : spec_float -> spec_float) : Float64 spec_float := {|
  f64_zero := zero;
  f64_one := one;
  f64_half := half;
  f64_tenth := tenth;
  f64_add := add;
  f64_sub := sub;
  f64_mul := mul;
  f64_div := div;
  f64_neg := neg;
  f64_exp := e;
  f64_gt := gt;
  f64_to_f32 := to_f32;
  f64_of_f32 := of_f32
|}.

#[global] Instance binary64 : Float64 spec_float := binary64_with exp.

(** *** Classes of values and the order *)

Definition is_finite (x : spec_float) : bool :=
  match x with
  | S754_zero _ | S754_finite _ _ _ => true
  | _ => false
  end.

(** Not NaN and not below zero: what an exponential returns. *)
Definition nonneg (x : spec_float) : bool :=
  match x with
  | S754_zero _ | S754_infinity false | S754_finite false _ _ => true
  | _ => false
  end.

(** The one NaN of the embedding. *)
Definition is_nan (x : spec_float) : bool :=
  match x with
  | S754_nan => true
  | _ => false
  end.

Definition leb (x y : spec_float) : bool := SFleb x y.
Definition ltb (x y : spec_float) : bool := SFltb x y.

(** [0 <= p <= 1] and [0 < p < 1]. *)
Definition in_closed_unit (p : spec_float) : Prop :=
  leb zero p = true /\ leb p one = true.
Definition in_open_unit (p : spec_float) : Prop :=
  ltb zero p = true /\ ltb p one = true.

(** The last stage of [binary_round_aux]: renormalise after rounding and
    check for overflow. *)
Definition finish (sx : bool) (m2 : Z) (e' : Z) : spec_float :=
  let '(mrs'', e'') := shr_fexp prec emax m2 e' loc_Exact in
  match shr_m mrs'' with
  | Z0 => S754_zero sx
  | Zpos m => if e'' <=? emax - prec then S754_finite sx m e'' else S754_infinity sx
  | _ => S754_nan
  end.

(** Normal-form positive values that are at least one, and non-negative
    values that are at most one, read off mantissa and exponent. *)
Definition ge_one (x : spec_float) : Prop :=
  match x with
  | S754_infinity false => True
  | S754_finite false m e => Z.pos (digits2_pos m) = 53 /\ -52 <= e <= 971
  | _ => False
  end.

Definition le_one (x : spec_float) : Prop :=
  match x with
  | S754_zero false => True
  | S754_finite false m e => e < -52 \/ (e = -52 /\ Z.pos m <= 2 ^ 52)
  | _ => False
  end.

(** *** float32 values in normal form *)

(** A subnormal has exponent -149 and a mantissa below [2^23]; a normal
    number has a mantissa of 24 digits and an exponent from -149 to 104. *)
Definition valid32 (x : spec_float) : Prop :=
  match x with
  | S754_finite _ m e =>
      (Z.pos m < 2 ^ 23 /\ e = -149)
      \/ (2 ^ 23 <= Z.pos m < 2 ^ 24 /\ -149 <= e <= 104)
  | _ => True
  end.

Definition sign_bit (s : bool) : Z := if s then 1 else 0.

(** *** A generator

    A 48-bit linear congruential generator stands for NumPy's Mersenne
    Twister: [uniform] scales a draw from [[0, 1)], [normal] adds twelve
    such draws. *)
Definition next (g : Z) : Z := (g * 25214903917 + 11) mod 2 ^ 48.

Definition unit_draw (g : Z) : spec_float * Z :=
  let g' := next g in
  (binary_normalize prec emax g' (-48) false, g').

Definition uniform (low high : spec_float) (g : Z) : spec_float * Z :=
  let '(u, g') := unit_draw g in
  (add low (mul (sub high low) u), g').

Fixpoint sum_draws (n : nat) (acc : spec_float) (g : Z) : spec_float * Z :=
  match n with
  | O => (acc, g)
  | S n' => let '(u, g') := unit_draw g in sum_draws n' (add acc u) g'
  end.

Definition normal (loc scale : spec_float) (g : Z) : spec_float * Z :=
  let '(t, g') := sum_draws 12 zero g in
  (add loc (mul scale (sub t (of_Z 6))), g').

#[global] Instance lcg : RandomState spec_float Z := {|
  random_uniform := uniform;
  random_normal := normal
|}.

End Binary64.

(** ** The formulas of the specification *)

Section Formulas.
Context {F : Type} `{Float64 F}.

(** The two layouts a weight array takes: the column of shape [(n, 1)]
    the constructor builds, and the flat array of shape [(n,)] that
    [load_model] reads. *)
Inductive layout : Type := Column | Flat.

Definition weights_array (lay : layout) (ws : list F) : ndarray F :=
  match lay with
  | Column => Arr2 1 (fmap (M:=list) (fun x => [x]) ws)
  | Flat => Arr1 ws
  end.

(** One value per sample: shape [(1, N)] for a column of weights,
    [(N,)] for a flat array. *)
Definition samples_array {A} (lay : layout) (vs : list A) : ndarray A :=
  match lay with
  | Column => Arr2 (length vs) [vs]
  | Flat => Arr1 vs
  end.

(** [dot(W, x)] for one sample [x]. *)
Definition score (ws x : list F) : F := dotp f64_zero f64_add f64_mul ws x.

(** [1 / (1 + exp(-x))] *)
Definition logistic (x : F) : F :=
  f64_div f64_one (f64_add f64_one (f64_exp (f64_neg x))).

(** [E = exp(-y * D)] and [F = (-y * E) / (1 + E)] for one sample. *)
Definition E_term (y d : F) : F := f64_exp (f64_mul (f64_neg y) d).

Definition F_term (y d : F) : F :=
  f64_div (f64_mul (f64_neg y) (E_term y d)) (f64_add f64_one (E_term y d)).

Definition contributions (ws : list F) (ys : list F) (rows : list (list F)) : list F :=
  zip_with (fun y x => F_term y (score ws x)) ys rows.

(** [G = X^T . F]: component [j] sums [X[i][j] * F[i]] over the samples. *)
Definition gradient (ws : list F) (ys : list F) (rows : list (list F)) : list F :=
  tab (length ws)
    (fun j => dotp f64_zero f64_add f64_mul (column j rows) (contributions ws ys rows)).

(** [W - G * learn_rate], stored with dtype [dt]. *)
Definition descent_step (dt : dtype) (learn_rate : F)
    (ys : list F) (rows : list (list F)) (ws : list F) : list F :=
  zip_with (fun w g => cast dt (f64_sub w (f64_mul g learn_rate)))
    ws (gradient ws ys rows).

(** The label the threshold gives a probability. *)
Definition label (p : F) : Z := if f64_gt p f64_half then 1 else -1.

End Formulas.

Section Invariant.
Context {F : Type} `{Float64 F}.

(** [len(self.W)], as a Python integer. *)
Definition weight_len (self : LogisticModel (F:=F)) : option Z :=
  match W self with
  | Some (_, a) => Z.of_nat <$> len a
  | None => None
  end.

(** The invariant of the data model: [W] has length [ndims + 1]. *)
Definition length_invariant (self : LogisticModel (F:=F)) : Prop :=
  weight_len self = Some (ndims self + 1).

(** The weight array is one of the two arrays the class ever stores. *)
Definition has_weights (self : LogisticModel (F:=F))
    (dt : dtype) (lay : layout) (ws : list F) : Prop :=
  W self = Some (dt, weights_array lay ws).

Definition with_W (self : LogisticModel (F:=F)) (a : dtype * ndarray F)
  : LogisticModel (F:=F) :=
  {| ndims := ndims self; W_init := W_init self; W := Some a |}.

Definition named_policy (W_init : string) : Prop :=
  W_init = "zeros"%string \/ W_init = "ones"%string \/
  W_init = "uniform"%string \/ W_init = "gaussian"%string.

End Invariant.

Section Worlds.
Context {G : Type}.

(** The world after some more lines went to standard output. *)
Definition add_stdout (w : world (G:=G)) (lines : list (list printed)) : world (G:=G) :=
  {| files := files w;
     stdout := stdout w ++ lines;
     random_state := random_state w |}.

(** The lines a loop over [range] prints: one counter value each. *)
Definition counter_lines (first count : Z) : list (list printed) :=
  fmap (M:=list) (fun i => [PInt i]) (seqZ first count).

End Worlds.

Section Preservation.
Context {F G : Type} `{Float64 F}.

(** A computation that leaves [len(self.W)] and [self.ndims] as they
    are, whether it returns or raises. *)
Definition keeps_len {A} (c : M (F:=F) (G:=G) A) : Prop :=
  forall s,
    weight_len (fst (snd (c s))) = weight_len (fst s)
    /\ ndims (fst (snd (c s))) = ndims (fst s).

(** A computation that leaves the whole state as it is. *)
Definition pure_M {A} (c : M (F:=F) (G:=G) A) : Prop :=
  forall s, snd (c s) = s.

(** The number of whole float32 items in a file. *)
Definition file_items (bs : list Byte.byte) : nat := length (fromfile_items bs).

End Preservation.

Section Float32Values.
Context {F : Type} `{Float64 F}.

(** Values a float32 array holds without loss: converting them to
    float32 and back changes nothing. *)
Definition float32_exact (ws : list F) : Prop :=
  Forall (fun x => cast float32 x = x) ws.

End Float32Values.

(** ** Concrete data for the binary64 instance *)

Module Examples.
Import Binary64.

Definition world0 : world (G:=Z) :=
  {| files := ∅; stdout := []; random_state := 42 |}.

(** [LogisticModel(2, 'zeros')] *)
Definition model0 : LogisticModel (F:=spec_float) :=
  {| ndims := 2; W_init := "zeros";
     W := Some (float64, weights_array Column [zero; zero; zero]) |}.

(** [X = [[1, 0, 0], [1, 1, 1]]] and [Y_true = [1, -1]] *)
Definition rows0 : list (list spec_float) :=
  [[one; zero; zero]; [one; one; one]].
Definition labels0 : list spec_float := [one; neg one].

(** [LogisticModel(1, 'ones')] and the sample [[1, 39]], of score 40. *)
Definition model1 : LogisticModel (F:=spec_float) :=
  {| ndims := 1; W_init := "ones";
     W := Some (float64, weights_array Column [one; one]) |}.
Definition rows1 : list (list spec_float) := [[one; of_Z 39]].

(** The sample [[1, -711]], of score -710. *)
Definition rows2 : list (list spec_float) := [[one; of_Z (-711)]].

(** A file that holds the single float32 item 1.0. *)
Definition one_item : list Byte.byte :=
  [Byte.x00; Byte.x00; Byte.x80; Byte.x3f].
Definition world1 : world (G:=Z) :=
  {| files := {[ "w.bin"%string := one_item ]}; stdout := []; random_state := 42 |}.

(** A matrix too narrow for [model0], and one label too many for
    [rows0]. *)
Definition rows_narrow : list (list spec_float) := [[one; zero]].
Definition labels3 : list spec_float := [one; neg one; one].

(** The object [load_model] leaves when [model0] reads [one_item], and a
    sample of the width it then takes. *)
Definition model_loaded : LogisticModel (F:=spec_float) :=
  {| ndims := 2; W_init := "zeros"; W := Some (float32, Arr1 [one]) |}.
Definition rows_one : list (list spec_float) := [[one]].

(** [LogisticModel(2, 'foo')]: the weights are unset. *)
Definition model_unset : LogisticModel (F:=spec_float) :=
  {| ndims := 2; W_init := "foo"; W := None |}.

(** A sample with a NaN feature. *)
Definition rows_nan : list (list spec_float) := [[one; S754_nan; zero]].

End Examples.

(** * Properties *)

(** ** Lists built by index *)

Section Tab.
Context {A : Type} `{!Inhabited A}.

Lemma length_tab (n : nat) (f : nat -> A) : length (tab n f) = n.
Proof. unfold tab. now rewrite length_fmap, length_seq. Qed.

Lemma lookup_tab (n : nat) (f : nat -> A) (i : nat) :
  (i < n)%nat -> tab n f !! i = Some (f i).
Proof.
  intros Hi. unfold tab.
  rewrite list_lookup_fmap, lookup_seq_lt by assumption. reflexivity.
Qed.

Lemma lookup_total_tab (n : nat) (f : nat -> A) (i : nat) :
  (i < n)%nat -> tab n f !!! i = f i.
Proof.
  intros Hi. apply list_lookup_total_correct. now apply lookup_tab.
Qed.

(** A list is the table of its own items. *)
Lemma tab_eq (n : nat) (f : nat -> A) (l : list A) :
  length l = n ->
  (forall i, (i < n)%nat -> l !!! i = f i) ->
  tab n f = l.
Proof.
  intros Hlen Hf. apply list_eq_same_length with n.
  - assumption.
  - apply length_tab.
  - intros i x y Hi Hx Hy.
    rewrite lookup_tab in Hx by assumption.
    apply list_lookup_total_correct in Hy.
    rewrite Hf in Hy by assumption. congruence.
Qed.

Lemma tab_ext (n : nat) (f g : nat -> A) :
  (forall i, (i < n)%nat -> f i = g i) -> tab n f = tab n g.
Proof.
  intros Hfg. apply tab_eq.
  - apply length_tab.
  - intros i Hi. rewrite lookup_total_tab by assumption. symmetry. auto.
Qed.

Lemma tab_lookup_total (l : list A) : tab (length l) (fun i => l !!! i) = l.
Proof. apply tab_eq; auto. Qed.

Lemma tab_1 (f : nat -> A) : tab 1 f = [f 0%nat].
Proof. reflexivity. Qed.

Lemma tab_fmap {B} (g : A -> B) (n : nat) (f : nat -> A) :
  fmap (M:=list) g (tab n f) = tab n (fun i => g (f i)).
Proof. unfold tab. now rewrite <- list_fmap_compose. Qed.

End Tab.

Section Columns.
Context {A : Type} `{!Inhabited A}.

Lemma length_column (j : nat) (rows : list (list A)) :
  length (column j rows) = length rows.
Proof. unfold column. apply length_fmap. Qed.

Lemma lookup_total_column (j i : nat) (rows : list (list A)) :
  (i < length rows)%nat -> column j rows !!! i = (rows !!! i) !!! j.
Proof.
  intros Hi. unfold column.
  apply list_lookup_total_correct.
  rewrite list_lookup_fmap.
  now rewrite (list_lookup_lookup_total_lt rows i Hi).
Qed.

Lemma wf_rows_lookup (c i : nat) (rows : list (list A)) :
  wf_rows c rows -> (i < length rows)%nat -> length (rows !!! i) = c.
Proof.
  intros Hwf Hi. unfold wf_rows in Hwf.
  rewrite Forall_lookup in Hwf. apply (Hwf i).
  now apply list_lookup_lookup_total_lt.
Qed.

(** Column [i] of the transpose is row [i]. *)
Lemma column_transpose (c i : nat) (rows : list (list A)) :
  wf_rows c rows -> (i < length rows)%nat ->
  column i (tab c (fun j => column j rows)) = rows !!! i.
Proof.
  intros Hwf Hi. unfold column at 1. rewrite tab_fmap.
  apply tab_eq.
  - now apply wf_rows_lookup.
  - intros j Hj. symmetry. now apply lookup_total_column.
Qed.

(** The columns of a single row are its items. *)
Lemma column_singleton_rows (j : nat) (v : list A) :
  column j [v] = [v !!! j].
Proof. reflexivity. Qed.

(** The only column of a column is the list itself. *)
Lemma column_of_column (ws : list A) :
  column 0 (fmap (M:=list) (fun x => [x]) ws) = ws.
Proof.
  unfold column. rewrite <- list_fmap_compose.
  induction ws as [|x ws IH]; simpl; [reflexivity|]. now f_equal.
Qed.

Lemma wf_rows_tab (c n : nat) (f : nat -> list A) :
  (forall i, (i < n)%nat -> length (f i) = c) -> wf_rows c (tab n f).
Proof.
  intros Hf. unfold wf_rows. rewrite Forall_lookup. intros i row Hrow.
  assert (Hi : (i < n)%nat).
  { apply lookup_lt_Some in Hrow. now rewrite length_tab in Hrow. }
  rewrite lookup_tab in Hrow by assumption.
  injection Hrow as <-. auto.
Qed.

End Columns.

(** ** Broadcasting on the shapes the class meets *)

Section Lookups.
Context {A B C : Type} `{!Inhabited A, !Inhabited B, !Inhabited C}.

Lemma lookup_total_fmap_lt (g : A -> B) (l : list A) (i : nat) :
  (i < length l)%nat -> fmap (M:=list) g l !!! i = g (l !!! i).
Proof.
  intros Hi. apply list_lookup_total_correct.
  rewrite list_lookup_fmap.
  now rewrite (list_lookup_lookup_total_lt l i Hi).
Qed.

Lemma lookup_total_zip_with_lt (g : A -> B -> C) (l : list A) (k : list B) (i : nat) :
  (i < length l)%nat -> (i < length k)%nat ->
  zip_with g l k !!! i = g (l !!! i) (k !!! i).
Proof.
  intros Hl Hk. apply list_lookup_total_correct.
  rewrite lookup_zip_with.
  rewrite (list_lookup_lookup_total_lt l i Hl).
  now rewrite (list_lookup_lookup_total_lt k i Hk).
Qed.

Lemma length_zip_with_same (g : A -> B -> C) (l : list A) (k : list B) :
  length l = length k -> length (zip_with g l k) = length l.
Proof. intros Hlk. rewrite length_zip_with. lia. Qed.

End Lookups.

Lemma bidx_lt (n i : nat) : (i < n)%nat -> bidx n i = i.
Proof.
  intros Hi. unfold bidx. destruct (Nat.eqb_spec n 1); [lia | reflexivity].
Qed.

Lemma bdim_same (n : nat) : bdim n n = Some n.
Proof. unfold bdim. now rewrite Nat.eqb_refl. Qed.

Lemma bdim_1_l (n : nat) : bdim 1 n = Some n.
Proof.
  unfold bdim. destruct (Nat.eqb_spec 1 n); [now subst | reflexivity].
Qed.

Lemma bdim_1_r (n : nat) : bdim n 1 = Some n.
Proof.
  unfold bdim. destruct (Nat.eqb_spec n 1); [reflexivity|].
  reflexivity.
Qed.

Section Broadcast.
Context {A B C : Type} `{!Inhabited A, !Inhabited B, !Inhabited C}.
Variable f : A -> B -> C.

(** [x op b] for a scalar [x]. *)
Lemma broadcast_scalar_l (x : A) (b : ndarray B) :
  wf b -> broadcast f (Arr0 x) b = Ok (amap (f x) b).
Proof.
  intros Hwf. destruct b as [y|v|c rows]; unfold broadcast; simpl.
  - reflexivity.
  - rewrite bdim_1_l. simpl. do 2 f_equal.
    apply tab_eq; [apply length_fmap|].
    intros j Hj. rewrite lookup_total_fmap_lt by assumption.
    now rewrite bidx_lt.
  - rewrite !bdim_1_l. simpl. do 2 f_equal.
    apply tab_eq; [apply length_fmap|].
    intros i Hi. rewrite lookup_total_fmap_lt by assumption.
    rewrite bidx_lt by assumption.
    symmetry. apply tab_eq.
    + rewrite length_fmap. now apply wf_rows_lookup.
    + intros j Hj. rewrite lookup_total_fmap_lt.
      * now rewrite bidx_lt.
      * rewrite (wf_rows_lookup c i rows); assumption.
Qed.

(** [a op y] for a scalar [y]. *)
Lemma broadcast_scalar_r (a : ndarray A) (y : B) :
  wf a -> broadcast f a (Arr0 y) = Ok (amap (fun x => f x y) a).
Proof.
  intros Hwf. destruct a as [x|v|c rows]; unfold broadcast; simpl.
  - reflexivity.
  - rewrite bdim_1_r. simpl. do 2 f_equal.
    apply tab_eq; [apply length_fmap|].
    intros j Hj. rewrite lookup_total_fmap_lt by assumption.
    now rewrite bidx_lt.
  - rewrite !bdim_1_r. simpl. do 2 f_equal.
    apply tab_eq; [apply length_fmap|].
    intros i Hi. rewrite lookup_total_fmap_lt by assumption.
    rewrite bidx_lt by assumption.
    symmetry. apply tab_eq.
    + rewrite length_fmap. now apply wf_rows_lookup.
    + intros j Hj. rewrite lookup_total_fmap_lt.
      * now rewrite bidx_lt.
      * rewrite (wf_rows_lookup c i rows); assumption.
Qed.

Lemma tab_zip_with (n : nat) (xs : list A) (ys : list B) :
  length xs = n -> length ys = n ->
  tab n (fun j => f (xs !!! bidx n j) (ys !!! bidx n j)) = zip_with f xs ys.
Proof.
  intros Hx Hy. apply tab_eq.
  - rewrite length_zip_with. lia.
  - intros j Hj. rewrite lookup_total_zip_with_lt by lia.
    now rewrite bidx_lt.
Qed.

(** Two flat arrays of one length. *)
Lemma broadcast_flat_flat (xs : list A) (ys : list B) :
  length xs = length ys ->
  broadcast f (Arr1 xs) (Arr1 ys) = Ok (Arr1 (zip_with f xs ys)).
Proof.
  intros Hlen. unfold broadcast; simpl.
  rewrite Hlen, bdim_same. simpl. do 2 f_equal.
  apply tab_zip_with; congruence.
Qed.

(** A flat array against one row: shapes [(N,)] and [(1, N)]. *)
Lemma broadcast_flat_row (xs : list A) (ys : list B) :
  length xs = length ys ->
  broadcast f (Arr1 xs) (Arr2 (length ys) [ys])
  = Ok (Arr2 (length ys) [zip_with f xs ys]).
Proof.
  intros Hlen. unfold broadcast; simpl.
  rewrite Hlen, bdim_same. simpl. rewrite tab_1. do 3 f_equal.
  apply tab_zip_with; congruence.
Qed.

(** Two rows of one length: shapes [(1, N)] and [(1, N)]. *)
Lemma broadcast_row_row (n : nat) (xs : list A) (ys : list B) :
  length xs = n -> length ys = n ->
  broadcast f (Arr2 n [xs]) (Arr2 n [ys]) = Ok (Arr2 n [zip_with f xs ys]).
Proof.
  intros Hx Hy. unfold broadcast; simpl.
  rewrite bdim_same. simpl. rewrite tab_1. do 3 f_equal.
  now apply tab_zip_with.
Qed.

(** Two columns of one length: shapes [(n, 1)] and [(n, 1)]. *)
Lemma broadcast_col_col (xs : list A) (ys : list B) :
  length xs = length ys ->
  broadcast f (Arr2 1 (fmap (M:=list) (fun x => [x]) xs))
              (Arr2 1 (fmap (M:=list) (fun y => [y]) ys))
  = Ok (Arr2 1 (fmap (M:=list) (fun z => [z]) (zip_with f xs ys))).
Proof.
  intros Hlen. unfold broadcast; simpl.
  rewrite !length_fmap, Hlen, bdim_same. simpl. do 2 f_equal.
  apply tab_eq.
  - rewrite length_fmap, length_zip_with. lia.
  - intros i Hi. rewrite tab_1, !bidx_lt by lia.
    rewrite !lookup_total_fmap_lt by (rewrite ?length_zip_with; lia).
    rewrite lookup_total_zip_with_lt by lia.
    reflexivity.
Qed.

End Broadcast.

(** ** The two layouts under the array operations *)

Section Layouts.
Context {F : Type} `{Float64 F}.

Lemma wf_weights_array (lay : layout) (ws : list F) : wf (weights_array lay ws).
Proof.
  destruct lay; simpl; [|exact I].
  unfold wf_rows. rewrite Forall_fmap. now apply Forall_true.
Qed.

Lemma wf_samples_array {A} (lay : layout) (vs : list A) : wf (samples_array lay vs).
Proof.
  destruct lay; simpl; [|exact I]. now repeat constructor.
Qed.

Lemma len_weights_array (lay : layout) (ws : list F) :
  len (weights_array lay ws) = Some (length ws).
Proof. destruct lay; simpl; [now rewrite length_fmap | reflexivity]. Qed.

Lemma ravel_weights_array (lay : layout) (ws : list F) :
  ravel (weights_array lay ws) = ws.
Proof.
  destruct lay; simpl; [|reflexivity].
  induction ws as [|x ws IH]; simpl; [reflexivity | now f_equal].
Qed.

Lemma ravel_samples_array {A} (lay : layout) (vs : list A) :
  ravel (samples_array lay vs) = vs.
Proof. destruct lay; simpl; [apply app_nil_r | reflexivity]. Qed.

Lemma amap_weights_array (g : F -> F) (lay : layout) (ws : list F) :
  amap g (weights_array lay ws) = weights_array lay (fmap (M:=list) g ws).
Proof.
  destruct lay; simpl; [|reflexivity].
  f_equal. rewrite <- !list_fmap_compose. reflexivity.
Qed.

Lemma amap_samples_array {A B} (g : A -> B) (lay : layout) (vs : list A) :
  amap g (samples_array lay vs) = samples_array lay (fmap (M:=list) g vs).
Proof. destruct lay; simpl; [now rewrite length_fmap | reflexivity]. Qed.

Lemma broadcast_flat_samples {A B C} `{!Inhabited A, !Inhabited B, !Inhabited C}
    (f : A -> B -> C) (lay : layout) (xs : list A) (ys : list B) :
  length xs = length ys ->
  broadcast f (Arr1 xs) (samples_array lay ys)
  = Ok (samples_array lay (zip_with f xs ys)).
Proof.
  intros Hlen. destruct lay; simpl.
  - rewrite broadcast_flat_row by assumption.
    rewrite length_zip_with. do 2 f_equal. lia.
  - now apply broadcast_flat_flat.
Qed.

Lemma broadcast_samples_samples {A B C} `{!Inhabited A, !Inhabited B, !Inhabited C}
    (f : A -> B -> C) (lay : layout) (xs : list A) (ys : list B) :
  length xs = length ys ->
  broadcast f (samples_array lay xs) (samples_array lay ys)
  = Ok (samples_array lay (zip_with f xs ys)).
Proof.
  intros Hlen. destruct lay; simpl.
  - rewrite <- Hlen.
    rewrite (broadcast_row_row f (length xs) xs ys) by congruence.
    rewrite length_zip_with. do 2 f_equal. lia.
  - now apply broadcast_flat_flat.
Qed.

Lemma broadcast_weights_weights (f : F -> F -> F) (lay : layout) (xs ys : list F) :
  length xs = length ys ->
  broadcast f (weights_array lay xs) (weights_array lay ys)
  = Ok (weights_array lay (zip_with f xs ys)).
Proof.
  intros Hlen. destruct lay; simpl.
  - now apply broadcast_col_col.
  - now apply broadcast_flat_flat.
Qed.

Lemma shape_weights_array (lay : layout) (xs ys : list F) :
  length xs = length ys ->
  shape (weights_array lay xs) = shape (weights_array lay ys).
Proof.
  intros Hlen. destruct lay; simpl; rewrite ?length_fmap; now rewrite Hlen.
Qed.

(** [W.T . X.T]: one score per sample. *)
Lemma np_dot_scores (lay : layout) (ws : list F) (rows : list (list F)) :
  wf_rows (length ws) rows ->
  np_dot (T (weights_array lay ws)) (T (Arr2 (length ws) rows))
  = Ok (samples_array lay (fmap (M:=list) (score ws) rows)).
Proof.
  intros Hwf. unfold np_dot. destruct lay; simpl.
  - rewrite !length_fmap, length_tab, Nat.eqb_refl.
    rewrite column_of_column. do 3 f_equal.
    apply tab_eq; [apply length_fmap|].
    intros i Hi. rewrite lookup_total_fmap_lt by assumption.
    unfold score. f_equal. symmetry. now apply column_transpose.
  - rewrite length_tab, Nat.eqb_refl. do 2 f_equal.
    apply tab_eq; [apply length_fmap|].
    intros i Hi. rewrite lookup_total_fmap_lt by assumption.
    unfold score. f_equal. symmetry. now apply column_transpose.
Qed.

(** [X.T . F.T]: one sum over the samples per feature. *)
Lemma np_dot_gradient (lay : layout) (n : nat) (rows : list (list F)) (fs : list F) :
  length fs = length rows ->
  np_dot (T (Arr2 n rows)) (T (samples_array lay fs))
  = Ok (weights_array lay
          (tab n (fun j => dotp f64_zero f64_add f64_mul (column j rows) fs))).
Proof.
  intros Hlen. unfold np_dot. destruct lay; simpl.
  - rewrite length_tab, Hlen, Nat.eqb_refl. do 2 f_equal.
    rewrite !tab_fmap. apply tab_ext. intros j Hj.
    rewrite tab_1. do 2 f_equal.
    unfold column at 1. rewrite tab_fmap. simpl.
    rewrite <- Hlen. apply tab_lookup_total.
  - rewrite Hlen, Nat.eqb_refl. do 2 f_equal.
    now rewrite tab_fmap.
Qed.

End Layouts.

(** ** Running the monad *)

Section Run.
Context {F G : Type}.
Local Abbreviation M := (@M F G).

Lemma bind_Ok {A B} (c : M A) (k : A -> M B) (s s' : state) (a : A) :
  c s = (Ok a, s') -> bind c k s = k a s'.
Proof. intros Hc. unfold bind. now rewrite Hc. Qed.

Lemma bind_Raise {A B} (c : M A) (k : A -> M B) (s s' : state) (e : exn) :
  c s = (Raise e, s') -> bind c k s = (Raise e, s').
Proof. intros Hc. unfold bind. now rewrite Hc. Qed.

Lemma lift_run {A} (r : result A) (s : state (F:=F) (G:=G)) : lift r s = (r, s).
Proof. reflexivity. Qed.

Lemma get_W_Some (self : LogisticModel (F:=F)) (w : world (G:=G))
    (a : dtype * ndarray F) :
  W self = Some a -> get_W (self, w) = (Ok a, (self, w)).
Proof. intros HW. unfold get_W. now rewrite HW. Qed.

Lemma get_W_None (self : LogisticModel (F:=F)) (w : world (G:=G)) :
  W self = None -> get_W (self, w) = (Raise AttributeError, (self, w)).
Proof. intros HW. unfold get_W. now rewrite HW. Qed.

End Run.

(** ** What the numerical methods compute *)

Section Behaviour.
Context {F G : Type} `{Float64 F} `{RandomState F G}.
Implicit Types (self : LogisticModel (F:=F)) (w : world (G:=G)).
Implicit Types (ws ys : list F) (rows : list (list F)).

Lemma sigmoid_samples (lay : layout) (ds : list F) (s : state (F:=F) (G:=G)) :
  sigmoid (samples_array lay ds) s
  = (Ok (samples_array lay (fmap (M:=list) logistic ds)), s).
Proof.
  unfold sigmoid.
  rewrite !amap_samples_array.
  erewrite bind_Ok; cycle 1.
  { rewrite lift_run, broadcast_scalar_l by apply wf_samples_array.
    reflexivity. }
  rewrite lift_run, broadcast_scalar_l by (rewrite amap_samples_array; apply wf_samples_array).
  rewrite !amap_samples_array, <- !list_fmap_compose. reflexivity.
Qed.

Lemma forward_run self w dt lay ws rows :
  has_weights self dt lay ws ->
  wf_rows (length ws) rows ->
  forward (Arr2 (length ws) rows) (self, w)
  = (Ok (samples_array lay
           (fmap (M:=list) (fun x => logistic (score ws x)) rows)),
     (self, w)).
Proof.
  intros HW Hwf. unfold forward.
  erewrite bind_Ok by (apply get_W_Some, HW). simpl snd.
  erewrite bind_Ok by (rewrite lift_run, np_dot_scores by assumption; reflexivity).
  erewrite bind_Ok by apply sigmoid_samples.
  unfold ret. now rewrite <- list_fmap_compose.
Qed.

(** The per-sample contributions, computed array-wise as the code does. *)
Lemma contributions_arraywise ws ys rows :
  zip_with f64_div
    (zip_with f64_mul (fmap (M:=list) f64_neg ys)
       (fmap (M:=list) f64_exp
          (zip_with f64_mul (fmap (M:=list) f64_neg ys)
             (fmap (M:=list) (score ws) rows))))
    (fmap (M:=list) (f64_add f64_one)
       (fmap (M:=list) f64_exp
          (zip_with f64_mul (fmap (M:=list) f64_neg ys)
             (fmap (M:=list) (score ws) rows))))
  = contributions ws ys rows.
Proof.
  unfold contributions. revert rows.
  induction ys as [|y ys IH]; intros [|x rows]; simpl; try reflexivity.
  f_equal. apply IH.
Qed.

Lemma length_gradient ws ys rows : length (gradient ws ys rows) = length ws.
Proof. unfold gradient. apply length_tab. Qed.

Lemma backward_run self w dt lay ws ys rows :
  has_weights self dt lay ws ->
  wf_rows (length ws) rows ->
  length ys = length rows ->
  backward (Arr1 ys) (Arr2 (length ws) rows) (self, w)
  = (Ok (weights_array lay (gradient ws ys rows)), (self, w)).
Proof.
  intros HW Hwf Hlen. unfold backward.
  erewrite bind_Ok by (apply get_W_Some, HW). simpl snd.
  erewrite bind_Ok by (rewrite lift_run, np_dot_scores by assumption; reflexivity).
  simpl amap.
  erewrite bind_Ok; cycle 1.
  { rewrite lift_run, broadcast_flat_samples by (now rewrite !length_fmap).
    reflexivity. }
  rewrite amap_samples_array.
  erewrite bind_Ok; cycle 1.
  { rewrite lift_run, broadcast_flat_samples; [reflexivity|].
    rewrite !length_fmap, length_zip_with, !length_fmap. lia. }
  erewrite bind_Ok; cycle 1.
  { rewrite lift_run, broadcast_scalar_l by apply wf_samples_array.
    rewrite amap_samples_array. reflexivity. }
  erewrite bind_Ok; cycle 1.
  { rewrite lift_run, broadcast_samples_samples; [reflexivity|].
    rewrite !length_zip_with, !length_fmap, !length_zip_with, !length_fmap. lia. }
  rewrite contributions_arraywise.
  erewrite bind_Ok; cycle 1.
  { rewrite lift_run, np_dot_gradient; [reflexivity|].
    unfold contributions. rewrite length_zip_with. lia. }
  reflexivity.
Qed.

End Behaviour.

Section Training.
Context {F G : Type} `{Float64 F} `{RandomState F G}.
Implicit Types (self : LogisticModel (F:=F)) (w : world (G:=G)).
Implicit Types (ws ys : list F) (rows : list (list F)).

Lemma classify_run self w dt lay ws rows :
  has_weights self dt lay ws ->
  wf_rows (length ws) rows ->
  classify (Arr2 (length ws) rows) (self, w)
  = (Ok (samples_array lay
           (fmap (M:=list) (fun x => label (logistic (score ws x))) rows)),
     (self, w)).
Proof.
  intros HW Hwf. unfold classify.
  erewrite bind_Ok by (eapply forward_run; eassumption).
  erewrite bind_Ok; cycle 1.
  { rewrite lift_run, broadcast_scalar_r by apply wf_samples_array.
    rewrite amap_samples_array. reflexivity. }
  erewrite bind_Ok; cycle 1.
  { rewrite lift_run, broadcast_scalar_r by apply wf_samples_array.
    rewrite amap_samples_array. reflexivity. }
  erewrite bind_Ok; cycle 1.
  { rewrite lift_run, broadcast_scalar_r by apply wf_samples_array.
    rewrite amap_samples_array. reflexivity. }
  unfold ret. rewrite <- !list_fmap_compose. do 3 f_equal.
  apply list_fmap_ext. intros i x Hx. simpl. unfold label.
  now destruct (f64_gt _ _).
Qed.

Lemma length_descent_step dt lr ys rows ws :
  length (descent_step dt lr ys rows ws) = length ws.
Proof.
  unfold descent_step. rewrite length_zip_with, length_gradient. lia.
Qed.

Lemma descent_step_arraywise dt lr ws (gs : list F) :
  fmap (M:=list) (cast dt)
    (zip_with f64_sub ws (fmap (M:=list) (fun g => f64_mul g lr) gs))
  = zip_with (fun x g => cast dt (f64_sub x (f64_mul g lr))) ws gs.
Proof.
  revert gs. induction ws as [|x ws IH]; intros [|g gs]; simpl; try reflexivity.
  f_equal. apply IH.
Qed.

Lemma isub_W_run self w dt lay ws (ds : list F) :
  has_weights self dt lay ws ->
  length ds = length ws ->
  isub_W (weights_array lay ds) (self, w)
  = (Ok tt,
     (with_W self (dt, weights_array lay
                         (fmap (M:=list) (cast dt) (zip_with f64_sub ws ds))),
      w)).
Proof.
  intros HW Hlen. unfold isub_W.
  erewrite bind_Ok by (apply get_W_Some, HW). simpl fst. simpl snd.
  erewrite bind_Ok; cycle 1.
  { rewrite lift_run. unfold inplace.
    rewrite broadcast_weights_weights by congruence. simpl rbind.
    rewrite decide_True; [reflexivity|].
    apply shape_weights_array. rewrite length_zip_with. lia. }
  rewrite amap_weights_array. reflexivity.
Qed.

(** One pass of the loop of [fit]. *)
Lemma fit_body_run self w dt lay ws ys rows lr (i : Z) :
  has_weights self dt lay ws ->
  wf_rows (length ws) rows ->
  length ys = length rows ->
  fit_body (Arr1 ys) (Arr2 (length ws) rows) lr i (self, w)
  = (Ok tt,
     (with_W self (dt, weights_array lay (descent_step dt lr ys rows ws)),
      add_stdout w [[PInt i]])).
Proof.
  intros HW Hwf Hlen. unfold fit_body.
  erewrite bind_Ok by (eapply backward_run; eassumption).
  erewrite bind_Ok; cycle 1.
  { rewrite lift_run, broadcast_scalar_r by apply wf_weights_array.
    rewrite amap_weights_array. reflexivity. }
  erewrite bind_Ok; cycle 1.
  { eapply isub_W_run; [eassumption|].
    now rewrite length_fmap, length_gradient. }
  rewrite descent_step_arraywise. reflexivity.
Qed.

Lemma add_stdout_app w (l1 l2 : list (list printed)) :
  add_stdout (add_stdout w l1) l2 = add_stdout w (l1 ++ l2).
Proof. unfold add_stdout. simpl. now rewrite <- app_assoc. Qed.

Lemma add_stdout_nil w : add_stdout w [] = w.
Proof. destruct w. unfold add_stdout. simpl. now rewrite app_nil_r. Qed.

Lemma with_W_idem self (a b : dtype * ndarray F) :
  with_W (with_W self a) b = with_W self b.
Proof. reflexivity. Qed.

Lemma with_W_same self dt lay ws :
  has_weights self dt lay ws -> with_W self (dt, weights_array lay ws) = self.
Proof.
  unfold has_weights, with_W. destruct self as [n i W0]. simpl.
  now intros ->.
Qed.

(** The loop, from any counter value on. *)
Lemma for_each_fit_body dt lay ys rows lr (k : nat) :
  forall self ws (first : Z) w,
  has_weights self dt lay ws ->
  wf_rows (length ws) rows ->
  length ys = length rows ->
  for_each (seqZ first (Z.of_nat k))
    (fit_body (Arr1 ys) (Arr2 (length ws) rows) lr) (self, w)
  = (Ok tt,
     (with_W self
        (dt, weights_array lay (Nat.iter k (descent_step dt lr ys rows) ws)),
      add_stdout w (counter_lines first (Z.of_nat k)))).
Proof.
  induction k as [|k IH]; intros self ws first w0 HW Hwf Hlen.
  - simpl. unfold ret, counter_lines. simpl.
    now rewrite add_stdout_nil, (with_W_same self dt lay ws).
  - rewrite seqZ_cons by lia.
    replace (Z.pred (Z.of_nat (S k))) with (Z.of_nat k) by lia.
    simpl for_each.
    erewrite bind_Ok by (eapply fit_body_run; eassumption).
    assert (Hlen' : length (descent_step dt lr ys rows ws) = length ws)
      by apply length_descent_step.
    rewrite <- Hlen'.
    rewrite (IH _ (descent_step dt lr ys rows ws) (Z.succ first)
               (add_stdout w0 [[PInt first]])); cycle 1.
    { reflexivity. }
    { now rewrite Hlen'. }
    { assumption. }
    rewrite add_stdout_app, with_W_idem. unfold counter_lines.
    rewrite (seqZ_cons first (Z.of_nat (S k))) by lia.
    replace (Z.pred (Z.of_nat (S k))) with (Z.of_nat k) by lia.
    simpl. do 5 f_equal.
    rewrite <- Nat.iter_succ_r. reflexivity.
Qed.

End Training.

(** In binary64 the product does not depend on the order of the factors:
    [G * learn_rate], as the code writes it, is [learn_rate * G]. *)
Lemma binary64_mul_comm (x y : spec_float) :
  Binary64.mul x y = Binary64.mul y x.
Proof.
  unfold Binary64.mul.
  destruct x as [sx|sx| |sx mx ex], y as [sy|sy| |sy my ey];
    cbn [SFmul]; try reflexivity;
    try (rewrite (xorb_comm sx sy); reflexivity).
  rewrite (xorb_comm sx sy), (Pos.mul_comm mx my), (Z.add_comm ex ey).
  reflexivity.
Qed.

(** * The claims about the numerical methods *)

Section NumericalClaims.
Context {F G : Type} `{Float64 F} `{RandomState F G}.
Implicit Types (self : LogisticModel (F:=F)) (w : world (G:=G)).
Implicit Types (ws ys : list F) (rows : list (list F)).

Lemma weight_len_has_weights self dt lay ws :
  has_weights self dt lay ws -> weight_len self = Some (Z.of_nat (length ws)).
Proof.
  unfold has_weights, weight_len. intros ->.
  now rewrite len_weights_array.
Qed.

(** C1.  With weights [ws] (in either layout), a feature matrix whose
    rows have as many columns as there are weights, and one label per
    row, [backward(Y_true, X)] returns, without touching the state, the
    array of the weights' layout that holds the gradient: component [j]
    is the sum over the samples [i] of [X[i][j] * F[i]], where
    [F[i] = (-y * E) / (1 + E)], [E = exp(-y * D)] and [D = dot(W, x)]
    for the label [y] and the row [x] of sample [i].  It has as many
    components as there are weights, [ndims + 1] under the length
    invariant.  The labels need not be +1 or -1 for this to hold. *)
Theorem backward_gradient self w dt lay ws ys rows :
  has_weights self dt lay ws ->
  wf_rows (length ws) rows ->
  length ys = length rows ->
  backward (Arr1 ys) (Arr2 (length ws) rows) (self, w)
  = (Ok (weights_array lay (gradient ws ys rows)), (self, w))
  /\ length (gradient ws ys rows) = length ws
  /\ (length_invariant self ->
      Z.of_nat (length (gradient ws ys rows)) = ndims self + 1)
  /\ (forall j, (j < length ws)%nat ->
        gradient ws ys rows !!! j
        = dotp f64_zero f64_add f64_mul (column j rows) (contributions ws ys rows))
  /\ (forall i, (i < length rows)%nat ->
        let y := ys !!! i in
        let D := score ws (rows !!! i) in
        let E := f64_exp (f64_mul (f64_neg y) D) in
        contributions ws ys rows !!! i
        = f64_div (f64_mul (f64_neg y) E) (f64_add f64_one E)).
Proof.
  intros HW Hwf Hlen. repeat split.
  - now apply backward_run with dt.
  - apply length_gradient.
  - intros Hinv. unfold length_invariant in Hinv.
    rewrite (weight_len_has_weights self dt lay ws HW) in Hinv.
    rewrite length_gradient. congruence.
  - intros j Hj. unfold gradient. now rewrite lookup_total_tab.
  - intros i Hi. unfold contributions.
    rewrite lookup_total_zip_with_lt by lia. reflexivity.
Qed.

(** C3.  With weights [ws] and a feature matrix whose rows have as many
    columns as there are weights, [forward(X)] returns one value per
    sample, the value for row [x] being [1 / (1 + exp(-dot(W, x)))], in
    an array of shape [(1, N)] for a column of weights and [(N,)] for a
    flat one; the object and the world are left as they were. *)
Theorem forward_probabilities self w dt lay ws rows :
  has_weights self dt lay ws ->
  wf_rows (length ws) rows ->
  exists ps : list F,
    forward (Arr2 (length ws) rows) (self, w)
    = (Ok (samples_array lay ps), (self, w))
    /\ length ps = length rows
    /\ forall i, (i < length rows)%nat ->
         ps !!! i
         = f64_div f64_one
             (f64_add f64_one (f64_exp (f64_neg (score ws (rows !!! i))))).
Proof.
  intros HW Hwf.
  exists (fmap (M:=list) (fun x => logistic (score ws x)) rows).
  split; [|split].
  - now apply forward_run with dt.
  - apply length_fmap.
  - intros i Hi. now rewrite lookup_total_fmap_lt.
Qed.

(** C2.  With well-shaped inputs and [max_iters >= 0], [fit] returns
    normally after exactly [max_iters] passes: the final [W] is the
    [max_iters]-fold iterate of the descent step on the initial
    weights, the counter values [0 .. max_iters - 1] were printed, and
    nothing else changed.  At every pass [k] the gradient is what
    [backward(Y_true, X)] returns on the weights of that pass, and the
    step stores [W - G * learn_rate] (converted to the dtype of [W],
    which is the identity for float64; in binary64 [G * learn_rate] is
    [learn_rate * G]). *)
Theorem fit_runs_max_iters self w dt lay ws ys rows lr (max_iters : Z) :
  has_weights self dt lay ws ->
  wf_rows (length ws) rows ->
  length ys = length rows ->
  0 <= max_iters ->
  let step := descent_step dt lr ys rows in
  let X := Arr2 (length ws) rows in
  fit (Arr1 ys) X lr max_iters (self, w)
  = (Ok tt,
     (with_W self (dt, weights_array lay (Nat.iter (Z.to_nat max_iters) step ws)),
      add_stdout w (counter_lines 0 max_iters)))
  /\ (forall (k : nat) w',
        let wk := Nat.iter k step ws in
        backward (Arr1 ys) X (with_W self (dt, weights_array lay wk), w')
        = (Ok (weights_array lay (gradient wk ys rows)),
           (with_W self (dt, weights_array lay wk), w'))
        /\ Nat.iter (S k) step ws
           = zip_with (fun x g => cast dt (f64_sub x (f64_mul g lr)))
               wk (gradient wk ys rows))
  /\ (forall x : F, cast float64 x = x)
  /\ (forall g r : spec_float, Binary64.mul g r = Binary64.mul r g).
Proof.
  intros HW Hwf Hlen Hk step X. split; [|split; [|split]].
  - unfold fit, X.
    pose proof (for_each_fit_body dt lay ys rows lr (Z.to_nat max_iters)
                  self ws 0 w HW Hwf Hlen) as Hrun.
    rewrite Z2Nat.id in Hrun by assumption. exact Hrun.
  - intros k w' wk.
    assert (Hwk : length wk = length ws).
    { unfold wk. clear. induction k as [|k IH]; [reflexivity|].
      simpl. unfold step at 1. now rewrite length_descent_step. }
    split; [|reflexivity].
    unfold X. rewrite <- Hwk.
    apply backward_run with dt.
    + reflexivity.
    + now rewrite Hwk.
    + assumption.
  - reflexivity.
  - exact binary64_mul_comm.
Qed.

(** C10.  With [max_iters <= 0] the loop of [fit] has no pass: whatever
    the arrays and whatever the state (even with [W] unset), [fit]
    returns normally and the object and the world are unchanged. *)
Theorem fit_nonpositive_is_noop (Y_true X : ndarray F) (lr : F)
    (max_iters : Z) (s : state (F:=F) (G:=G)) :
  max_iters <= 0 ->
  fit Y_true X lr max_iters s = (Ok tt, s).
Proof.
  intros Hk. unfold fit. rewrite seqZ_nil by assumption. reflexivity.
Qed.

End NumericalClaims.

Section ClassifyClaim.
Context {F G : Type} `{Float64 F} `{RandomState F G}.
Implicit Types (self : LogisticModel (F:=F)) (w : world (G:=G)).

Lemma label_values (p : F) : label p = 1 \/ label p = -1.
Proof. unfold label. destruct (f64_gt p f64_half); auto. Qed.

Lemma label_positive (p : F) : label p = 1 <-> f64_gt p f64_half = true.
Proof. unfold label. destruct (f64_gt p f64_half); split; congruence. Qed.

Lemma label_negative (p : F) : label p = -1 <-> f64_gt p f64_half = false.
Proof. unfold label. destruct (f64_gt p f64_half); split; congruence. Qed.

(** C4.  With weights set and a feature matrix of matching width,
    [classify(X)] returns, without touching the state, an array of the
    shape of [forward(X)] whose items are all +1 or -1: the item of
    sample [i] is +1 exactly when item [i] of [forward(X)] is [> 0.5],
    and -1 otherwise.  In binary64 the comparison [0.5 > 0.5] is false,
    so a probability of exactly 0.5 gets the label -1. *)
Theorem classify_thresholds_forward self w dt lay (ws : list F)
    (rows : list (list F)) :
  has_weights self dt lay ws ->
  wf_rows (length ws) rows ->
  exists (ps : list F) (cs : list Z),
    forward (Arr2 (length ws) rows) (self, w)
    = (Ok (samples_array lay ps), (self, w))
    /\ classify (Arr2 (length ws) rows) (self, w)
       = (Ok (samples_array lay cs), (self, w))
    /\ length cs = length ps
    /\ Forall (fun c => c = 1 \/ c = -1) (ravel (samples_array lay cs))
    /\ (forall i, (i < length ps)%nat ->
          (cs !!! i = 1 <-> f64_gt (ps !!! i) f64_half = true)
          /\ (cs !!! i = -1 <-> f64_gt (ps !!! i) f64_half = false))
    /\ Binary64.gt Binary64.half Binary64.half = false
    /\ @label spec_float Binary64.binary64 Binary64.half = -1.
Proof.
  intros HW Hwf.
  exists (fmap (M:=list) (fun x => logistic (score ws x)) rows).
  exists (fmap (M:=list) label
            (fmap (M:=list) (fun x => logistic (score ws x)) rows)).
  split; [now apply forward_run with dt|].
  split; [rewrite <- list_fmap_compose; now apply classify_run with dt|].
  split; [now rewrite !length_fmap|].
  split.
  { rewrite ravel_samples_array, Forall_fmap.
    apply Forall_true. intros p. apply label_values. }
  split; [|split; reflexivity].
  intros i Hi. rewrite lookup_total_fmap_lt by assumption.
  split; [apply label_positive | apply label_negative].
Qed.

End ClassifyClaim.

(** * The claims about construction *)

Section ConstructionClaims.
Context {F G : Type} `{Float64 F} `{RandomState F G}.
Implicit Types (self : LogisticModel (F:=F)) (w : world (G:=G)).

Lemma np_full_column (x : F) (n : Z) :
  0 <= n ->
  np_full x n 1 = Ok (weights_array Column (replicate (Z.to_nat n) x)).
Proof.
  intros Hn. unfold np_full.
  destruct (Z.ltb_spec n 0); [lia|].
  simpl. now rewrite fmap_replicate.
Qed.

(** C5.  For [ndims > 0], construction with ['zeros'] returns normally,
    prints nothing and draws nothing, and sets [W] to a float64 column
    of [ndims + 1] items that are all [0.0]; with ['ones'], all [1.0]. *)
Theorem init_zeros_ones (n : Z) w :
  0 < n ->
  let zeros := replicate (Z.to_nat (n + 1)) (f64_zero (F:=F)) in
  let ones := replicate (Z.to_nat (n + 1)) (f64_one (F:=F)) in
  __init__ n "zeros" w
  = (Ok {| ndims := n; W_init := "zeros";
           W := Some (float64, weights_array Column zeros) |}, w)
  /\ __init__ n "ones" w
     = (Ok {| ndims := n; W_init := "ones";
              W := Some (float64, weights_array Column ones) |}, w)
  /\ Z.of_nat (length zeros) = n + 1
  /\ Z.of_nat (length ones) = n + 1
  /\ Forall (fun x => x = f64_zero) zeros
  /\ Forall (fun x => x = f64_one) ones
  /\ shape (weights_array Column zeros) = [Z.to_nat (n + 1); 1%nat]
  /\ shape (weights_array Column ones) = [Z.to_nat (n + 1); 1%nat].
Proof.
  intros Hn zeros ones. unfold __init__, np_zeros, np_ones. simpl.
  rewrite !np_full_column by lia.
  repeat split.
  - unfold zeros. rewrite length_replicate. lia.
  - unfold ones. rewrite length_replicate. lia.
  - apply Forall_replicate. reflexivity.
  - apply Forall_replicate. reflexivity.
  - unfold zeros. simpl. now rewrite length_fmap, length_replicate.
  - unfold ones. simpl. now rewrite length_fmap, length_replicate.
Qed.

Lemma not_named_policy (name : string) :
  ~ named_policy name ->
  String.eqb name "zeros" = false /\ String.eqb name "ones" = false /\
  String.eqb name "uniform" = false /\ String.eqb name "gaussian" = false.
Proof.
  intros Hn. unfold named_policy in Hn.
  repeat split; apply String.eqb_neq; intros ->; apply Hn; auto.
Qed.

(** C9.  For every [ndims] and every [W_init] that is none of the four
    names, construction returns normally, with [W] left at [None]; the
    only effect is the line ['Unknown W_init <name>'] on standard
    output.  On such an object [forward], [backward], [classify],
    [save_model] and [fit] with at least one pass raise
    [AttributeError] at their first use of [self.W], leaving the state
    as it was. *)
Theorem init_unknown_policy_leaves_W_unset (n : Z) (name : string) w :
  ~ named_policy name ->
  let self := {| ndims := n; W_init := name; W := None |} in
  __init__ n name w
  = (Ok self, add_stdout w [[PStr "Unknown W_init "; PStr name]])
  /\ forall (X Y_true : ndarray F) (path : string) (lr : F) (k : Z) w',
       forward X (self, w') = (Raise AttributeError, (self, w'))
       /\ backward Y_true X (self, w') = (Raise AttributeError, (self, w'))
       /\ classify X (self, w') = (Raise AttributeError, (self, w'))
       /\ save_model path (self, w') = (Raise AttributeError, (self, w'))
       /\ (0 < k ->
           fit Y_true X lr k (self, w') = (Raise AttributeError, (self, w'))).
Proof.
  intros Hname self.
  destruct (not_named_policy name Hname) as (Hz & Ho & Hu & Hg).
  split.
  - unfold __init__. now rewrite Hz, Ho, Hu, Hg.
  - intros X Y_true path lr k w'.
    assert (Hfwd : forward X (self, w') = (Raise AttributeError, (self, w'))).
    { unfold forward. now apply bind_Raise, get_W_None. }
    assert (Hbwd : backward Y_true X (self, w')
                   = (Raise AttributeError, (self, w'))).
    { unfold backward. now apply bind_Raise, get_W_None. }
    split; [exact Hfwd|]. split; [exact Hbwd|].
    split; [unfold classify; now apply bind_Raise|].
    split; [unfold save_model; now apply bind_Raise, get_W_None|].
    intros Hk. unfold fit. rewrite seqZ_cons by assumption.
    simpl for_each. apply bind_Raise.
    unfold fit_body. now apply bind_Raise.
Qed.

End ConstructionClaims.

(** * The claims about persistence and the length invariant *)

Lemma fromfile_tofile (items : list item4) :
  fromfile_items (tofile_bytes items) = items.
Proof.
  unfold tofile_bytes.
  induction items as [|[[[a b] c] d] items IH]; [reflexivity|].
  change (fromfile_items
            (a :: b :: c :: d :: concat (fmap (M:=list) item_bytes items))
          = (a, b, c, d) :: items).
  simpl fromfile_items. now rewrite IH.
Qed.

Section PersistenceClaims.
Context {F G : Type} `{Float64 F} `{RandomState F G}.
Implicit Types (self : LogisticModel (F:=F)) (w : world (G:=G)).

Lemma save_model_run self w dt (a : ndarray F) (path : string) :
  W self = Some (dt, a) ->
  save_model path (self, w)
  = (Ok tt,
     (self,
      {| files := <[path := tofile_bytes (fmap (M:=list) f64_to_f32 (ravel a))]>
                    (files w);
         stdout := stdout w ++ [[PStr "model saved to"; PStr path]];
         random_state := random_state w |})).
Proof.
  intros HW. unfold save_model.
  erewrite bind_Ok by (apply get_W_Some, HW). reflexivity.
Qed.

Lemma load_model_run self w (path : string) (bs : list Byte.byte) :
  files w !! path = Some bs ->
  load_model path (self, w)
  = (Ok tt,
     (with_W self
        (float32, Arr1 (fmap (M:=list) f64_of_f32 (fromfile_items bs))),
      add_stdout w [[PStr "model loaded from"; PStr path]])).
Proof.
  intros Hf. unfold load_model, bind, read_file. now rewrite Hf.
Qed.

Lemma load_model_missing self w (path : string) :
  files w !! path = None ->
  load_model path (self, w) = (Raise FileNotFoundError, (self, w)).
Proof.
  intros Hf. unfold load_model, bind, read_file. now rewrite Hf.
Qed.

Lemma save_then_load_run self w dt lay (ws : list F) (path : string) :
  has_weights self dt lay ws ->
  (save_model path ;;; load_model path) (self, w)
  = (Ok tt,
     (with_W self
        (float32,
         weights_array Flat
           (fmap (M:=list) (fun x => f64_of_f32 (f64_to_f32 x)) ws)),
      {| files := <[path := tofile_bytes (fmap (M:=list) f64_to_f32 ws)]> (files w);
         stdout := stdout w ++ [[PStr "model saved to"; PStr path];
                                [PStr "model loaded from"; PStr path]];
         random_state := random_state w |})).
Proof.
  intros HW.
  erewrite bind_Ok by (eapply save_model_run, HW).
  rewrite ravel_weights_array.
  erewrite load_model_run by (simpl; apply lookup_insert_eq).
  rewrite fromfile_tofile, <- list_fmap_compose.
  unfold add_stdout. simpl. now rewrite <- app_assoc.
Qed.

End PersistenceClaims.

Section LengthInvariant.
Context {F G : Type} `{Float64 F} `{RandomState F G}.
Implicit Types (self : LogisticModel (F:=F)) (w : world (G:=G)).
Local Abbreviation M := (@M F G).

Lemma keeps_len_pure {A} (c : M A) : pure_M c -> keeps_len c.
Proof. intros Hc s. now rewrite Hc. Qed.

Lemma pure_ret {A} (a : A) : pure_M (ret (F:=F) (G:=G) a).
Proof. intros s. reflexivity. Qed.

Lemma pure_lift {A} (r : result A) : pure_M (lift (F:=F) (G:=G) r).
Proof. intros s. reflexivity. Qed.

Lemma pure_get_W : pure_M (get_W (F:=F) (G:=G)).
Proof. intros [self w]. unfold get_W. now destruct (W self). Qed.

Lemma pure_bind {A B} (c : M A) (k : A -> M B) :
  pure_M c -> (forall a, pure_M (k a)) -> pure_M (bind c k).
Proof.
  intros Hc Hk s. unfold bind. specialize (Hc s).
  destruct (c s) as [[a|e] s']; simpl in Hc; subst s'.
  - apply Hk.
  - reflexivity.
Qed.

Lemma keeps_len_bind {A B} (c : M A) (k : A -> M B) :
  keeps_len c -> (forall a, keeps_len (k a)) -> keeps_len (bind c k).
Proof.
  intros Hc Hk s. unfold bind. specialize (Hc s).
  destruct (c s) as [[a|e] s']; simpl in Hc.
  - destruct (Hk a s') as [H1 H2]. destruct Hc as [H3 H4].
    split; [now rewrite H1 | now rewrite H2].
  - exact Hc.
Qed.

Lemma keeps_len_print (args : list printed) : keeps_len (print (F:=F) (G:=G) args).
Proof. intros [self w]. now split. Qed.

Lemma pure_sigmoid (x : ndarray F) : pure_M (sigmoid (G:=G) x).
Proof.
  unfold sigmoid. apply pure_bind; [apply pure_lift|].
  intros s. apply pure_lift.
Qed.

Lemma pure_forward (X : ndarray F) : pure_M (forward (G:=G) X).
Proof.
  unfold forward.
  repeat (apply pure_bind; [first [apply pure_get_W | apply pure_lift
                                  | apply pure_sigmoid]|intros ?]).
  apply pure_ret.
Qed.

Lemma pure_backward (Y_true X : ndarray F) : pure_M (backward (G:=G) Y_true X).
Proof.
  unfold backward.
  repeat (apply pure_bind; [first [apply pure_get_W | apply pure_lift]|intros ?]).
  apply pure_ret.
Qed.

Lemma pure_classify (X : ndarray F) : pure_M (classify (G:=G) X).
Proof.
  unfold classify.
  repeat (apply pure_bind; [first [apply pure_forward | apply pure_lift]|intros ?]).
  apply pure_ret.
Qed.

Lemma len_of_shape {A B} (a : ndarray A) (b : ndarray B) :
  shape a = shape b -> len a = len b.
Proof.
  destruct a, b; simpl; intros Hs; try discriminate; try reflexivity;
    injection Hs; intros; congruence.
Qed.

Lemma len_amap {A B} (g : A -> B) (a : ndarray A) : len (amap g a) = len a.
Proof. destruct a; simpl; now rewrite ?length_fmap. Qed.

Lemma keeps_len_isub_W (D : ndarray F) : keeps_len (isub_W (G:=G) D).
Proof.
  intros [self w].
  unfold isub_W, bind, get_W, lift, inplace, set_W, weight_len. simpl.
  destruct (W self) as [[dt a]|] eqn:HW; simpl; rewrite ?HW; [|now split].
  destruct (broadcast f64_sub a D) as [r|e]; simpl; rewrite ?HW; [|now split].
  destruct (decide (shape r = shape a)) as [Hs|Hs]; simpl; rewrite ?HW;
    [|now split].
  split; [|reflexivity].
  rewrite len_amap. now rewrite (len_of_shape r a Hs).
Qed.

Lemma keeps_len_fit_body (Y_true X : ndarray F) (lr : F) (i : Z) :
  keeps_len (fit_body (G:=G) Y_true X lr i).
Proof.
  unfold fit_body.
  apply keeps_len_bind; [apply keeps_len_pure, pure_backward|intros G0].
  apply keeps_len_bind; [apply keeps_len_pure, pure_lift|intros D].
  apply keeps_len_bind; [apply keeps_len_isub_W|intros _].
  apply keeps_len_print.
Qed.

Lemma keeps_len_fit (Y_true X : ndarray F) (lr : F) (max_iters : Z) :
  keeps_len (fit (G:=G) Y_true X lr max_iters).
Proof.
  unfold fit. induction (seqZ 0 max_iters) as [|i l IH]; simpl.
  - apply keeps_len_pure, pure_ret.
  - apply keeps_len_bind; [apply keeps_len_fit_body|intros _; exact IH].
Qed.

Lemma save_model_keeps_object (path : string) (s : state (F:=F) (G:=G)) :
  fst (snd (save_model path s)) = fst s.
Proof.
  destruct s as [self w]. unfold save_model, bind, get_W.
  now destruct (W self).
Qed.

Lemma length_draw_list (sample : G -> F * G) (k : nat) (g : G) :
  length (fst (draw_list sample k g)) = k.
Proof.
  revert g. induction k as [|k IH]; intros g; simpl; [reflexivity|].
  destruct (sample g) as [x g1]. specialize (IH g1).
  destruct (draw_list sample k g1) as [xs g2]. simpl in *. now rewrite IH.
Qed.

Lemma length_draw_rows (sample : G -> F * G) (r c : nat) (g : G) :
  length (fst (draw_rows sample r c g)) = r.
Proof.
  revert g. induction r as [|r IH]; intros g; simpl; [reflexivity|].
  destruct (draw_list sample c g) as [row g1]. specialize (IH g1).
  destruct (draw_rows sample r c g1) as [rows g2]. simpl in *. now rewrite IH.
Qed.

Lemma np_full_len (x : F) (n : Z) (c : nat) (a : ndarray F) :
  np_full x n c = Ok a -> Z.of_nat <$> len a = Some n.
Proof.
  unfold np_full. destruct (Z.ltb_spec n 0); [discriminate|].
  intros [= <-]. simpl. rewrite length_replicate. f_equal. lia.
Qed.

Lemma np_random_len (sample : G -> F * G) (n : Z) (c : nat) (g g' : G)
    (a : ndarray F) :
  np_random sample n c g = (Ok a, g') -> Z.of_nat <$> len a = Some n.
Proof.
  unfold np_random. destruct (Z.ltb_spec n 0); [discriminate|].
  pose proof (length_draw_rows sample (Z.to_nat n) c g) as Hlen.
  destruct (draw_rows sample (Z.to_nat n) c g) as [rows g2].
  intros [= <- _]. simpl in *. rewrite Hlen. f_equal. lia.
Qed.

Lemma init_length_invariant (n : Z) (name : string) w self w' :
  named_policy name ->
  __init__ n name w = (Ok self, w') ->
  length_invariant self.
Proof.
  intros Hname. unfold __init__, length_invariant, weight_len.
  destruct (String.eqb name "zeros") eqn:Hz.
  { destruct (np_zeros (n + 1) 1) as [a|e] eqn:Ha; intros [= <- _]; simpl.
    now apply np_full_len in Ha. }
  destruct (String.eqb name "ones") eqn:Ho.
  { destruct (np_ones (n + 1) 1) as [a|e] eqn:Ha; intros [= <- _]; simpl.
    now apply np_full_len in Ha. }
  destruct (String.eqb name "uniform") eqn:Hu.
  { destruct (np_random _ _ _ _) as [[a|e] g] eqn:Ha; intros [= <- _]; simpl.
    now apply np_random_len in Ha. }
  destruct (String.eqb name "gaussian") eqn:Hg.
  { destruct (np_random _ _ _ _) as [[a|e] g] eqn:Ha; intros [= <- _]; simpl.
    now apply np_random_len in Ha. }
  exfalso. apply String.eqb_neq in Hz, Ho, Hu, Hg.
  destruct Hname as [Hn| [Hn| [Hn| Hn]]]; contradiction.
Qed.

End LengthInvariant.

Section LengthInvariantClaim.
Context {F G : Type} `{Float64 F} `{RandomState F G}.
Implicit Types (self : LogisticModel (F:=F)) (w : world (G:=G)).

Lemma init_returns (n : Z) (name : string) w :
  named_policy name -> -1 <= n ->
  exists self w', __init__ n name w = (Ok self, w').
Proof.
  intros Hname Hn. unfold __init__, np_zeros, np_ones, np_full, np_random.
  destruct (Z.ltb_spec (n + 1) 0); [lia|].
  destruct (String.eqb name "zeros"); [eauto|].
  destruct (String.eqb name "ones"); [eauto|].
  destruct (String.eqb name "uniform") eqn:Hu.
  { destruct (draw_rows _ _ _ _) as [rows g]. eauto. }
  destruct (String.eqb name "gaussian") eqn:Hg.
  { destruct (draw_rows _ _ _ _) as [rows g]. eauto. }
  eauto.
Qed.

(** C8, as the code has it.  [len(W) = ndims + 1] holds after
    construction with each of the four named policies (construction
    returns for [ndims >= -1]); [fit] and [save_model] keep it, on any
    arguments and whether they return or raise.  [load_model] reads no
    length: after it, [len(W)] is the number of whole 4-byte items in
    the file, so the invariant holds afterwards exactly when the file
    holds [ndims + 1] items -- as it does when the file was just
    written by [save_model] on an object that satisfies the invariant.
    When the file is missing, [load_model] leaves the object alone. *)
Theorem length_invariant_up_to_load :
  (forall (n : Z) (name : string) w self w',
      named_policy name ->
      __init__ n name w = (Ok self, w') ->
      length_invariant self)
  /\ (forall (n : Z) (name : string) w,
        named_policy name -> -1 <= n ->
        exists self w', __init__ n name w = (Ok self, w'))
  /\ (forall (Y_true X : ndarray F) (lr : F) (k : Z) (s : state (F:=F) (G:=G)),
        length_invariant (fst s) ->
        length_invariant (fst (snd (fit Y_true X lr k s))))
  /\ (forall (path : string) (s : state (F:=F) (G:=G)),
        length_invariant (fst s) ->
        length_invariant (fst (snd (save_model path s))))
  /\ (forall (path : string) self w (bs : list Byte.byte),
        files w !! path = Some bs ->
        let self' := fst (snd (load_model path (self, w))) in
        ndims self' = ndims self
        /\ weight_len self' = Some (Z.of_nat (file_items bs))
        /\ (length_invariant self' <-> Z.of_nat (file_items bs) = ndims self + 1))
  /\ (forall (path : string) self w,
        files w !! path = None ->
        fst (snd (load_model path (self, w))) = self)
  /\ (forall (path : string) self w dt lay (ws : list F),
        has_weights self dt lay ws ->
        length_invariant self ->
        length_invariant
          (fst (snd ((save_model path ;;; load_model path) (self, w))))).
Proof.
  split; [exact init_length_invariant|].
  split; [exact init_returns|].
  split.
  { intros Y_true X lr k s Hinv. unfold length_invariant in *.
    destruct (keeps_len_fit Y_true X lr k s) as [Hlen Hnd].
    now rewrite Hlen, Hnd. }
  split.
  { intros path s Hinv. now rewrite save_model_keeps_object. }
  split.
  { intros path self w bs Hf self'. unfold self'.
    rewrite (load_model_run self w path bs Hf). simpl.
    split; [reflexivity|].
    assert (Hlen : weight_len
              (with_W self
                 (float32, Arr1 (fmap (M:=list) f64_of_f32 (fromfile_items bs))))
            = Some (Z.of_nat (file_items bs))).
    { unfold weight_len, file_items. simpl. now rewrite length_fmap. }
    split; [exact Hlen|].
    unfold length_invariant. rewrite Hlen. simpl.
    split; [intros [= Heq]; exact Heq | intros ->; reflexivity]. }
  split.
  { intros path self w Hf. now rewrite load_model_missing. }
  intros path self w dt lay ws HW Hinv.
  rewrite (save_then_load_run self w dt lay ws path HW). simpl.
  unfold length_invariant in *.
  rewrite (weight_len_has_weights self dt lay ws HW) in Hinv.
  unfold weight_len. simpl. rewrite length_fmap. exact Hinv.
Qed.

End LengthInvariantClaim.

(** The invariant is lost when a model with [ndims = 2] loads a file that
    holds one float32 item: the invariant holds before [load_model],
    [load_model] returns normally, and afterwards [len(W)] is 1, not 3. *)
Lemma load_model_breaks_length_invariant :
  length_invariant Examples.model0
  /\ fst (load_model "w.bin" (Examples.model0, Examples.world1)) = Ok tt
  /\ ndims (fst (snd (load_model "w.bin" (Examples.model0, Examples.world1)))) = 2
  /\ weight_len (fst (snd (load_model "w.bin" (Examples.model0, Examples.world1))))
     = Some 1
  /\ ~ length_invariant
         (fst (snd (load_model "w.bin" (Examples.model0, Examples.world1)))).
Proof.
  assert (Hf : files Examples.world1 !! "w.bin"%string = Some Examples.one_item)
    by apply lookup_singleton_eq.
  rewrite (load_model_run Examples.model0 Examples.world1 "w.bin" _ Hf).
  split; [reflexivity|]. split; [reflexivity|]. split; [reflexivity|].
  split; [reflexivity|].
  unfold length_invariant. simpl. discriminate.
Qed.

(** * The claims at concrete inputs, in binary64

    The scenario of the specification: [ndims = 2], zero weights,
    [X = [[1, 0, 0], [1, 1, 1]]], [Y_true = [1, -1]], [learn_rate = 0.1]. *)

Lemma model0_has_weights :
  has_weights Examples.model0 float64 Column
    [Binary64.zero; Binary64.zero; Binary64.zero].
Proof. reflexivity. Defined.

Lemma rows0_wf :
  wf_rows (length [Binary64.zero; Binary64.zero; Binary64.zero]) Examples.rows0.
Proof. repeat constructor. Defined.

Lemma labels0_length : length Examples.labels0 = length Examples.rows0.
Proof. reflexivity. Defined.

(** On zero weights every probability is 0.5 and both samples get -1. *)
Example forward_model0 :
  forward (Arr2 3 Examples.rows0) (Examples.model0, Examples.world0)
  = (Ok (Arr2 2 [[Binary64.half; Binary64.half]]),
     (Examples.model0, Examples.world0)).
Proof. vm_compute. reflexivity. Qed.

Example classify_model0 :
  classify (Arr2 3 Examples.rows0) (Examples.model0, Examples.world0)
  = (Ok (Arr2 2 [[-1; -1]]), (Examples.model0, Examples.world0)).
Proof. vm_compute. reflexivity. Qed.

(** The gradient at zero weights is [[0, 0.5, 0.5]], and one step with
    [learn_rate = 0.1] gives [W = [0, -0.05, -0.05]]. *)
Example backward_model0 :
  fst (backward (Arr1 Examples.labels0) (Arr2 3 Examples.rows0)
         (Examples.model0, Examples.world0))
  = Ok (Arr2 1 [[Binary64.zero]; [Binary64.half]; [Binary64.half]]).
Proof. vm_compute. reflexivity. Qed.

Example fit_model0_one_step :
  W (fst (snd (fit (Arr1 Examples.labels0) (Arr2 3 Examples.rows0)
                 Binary64.tenth 1 (Examples.model0, Examples.world0))))
  = Some (float64,
          Arr2 1 [[Binary64.zero];
                  [S754_finite true 7205759403792794 (-57)];
                  [S754_finite true 7205759403792794 (-57)]]).
Proof. vm_compute. reflexivity. Qed.

(** The float32 image of 0.1 is [cd cc cc 3d]; read back it is
    0.100000001490116..., not 0.1. *)
Example tenth_as_float32 :
  Binary64.to_f32 Binary64.tenth = (Byte.xcd, Byte.xcc, Byte.xcc, Byte.x3d)
  /\ Binary64.of_f32 (Binary64.to_f32 Binary64.tenth)
     = S754_finite false 7205759511166976 (-56)
  /\ Binary64.of_f32 (Binary64.to_f32 Binary64.one) = Binary64.one.
Proof. vm_compute. repeat split. Qed.

Lemma backward_gradient_witness :
  has_weights Examples.model0 float64 Column
    [Binary64.zero; Binary64.zero; Binary64.zero]
  /\ wf_rows 3 Examples.rows0
  /\ length Examples.labels0 = length Examples.rows0
  /\ backward (Arr1 Examples.labels0) (Arr2 3 Examples.rows0)
       (Examples.model0, Examples.world0)
     = (Ok (weights_array Column
              (gradient [Binary64.zero; Binary64.zero; Binary64.zero]
                 Examples.labels0 Examples.rows0)),
        (Examples.model0, Examples.world0)).
Proof.
  split; [exact model0_has_weights|].
  split; [exact rows0_wf|].
  split; [exact labels0_length|].
  exact (proj1 (backward_gradient Examples.model0 Examples.world0 float64 Column
                  _ Examples.labels0 Examples.rows0
                  model0_has_weights rows0_wf labels0_length)).
Defined.

Lemma forward_probabilities_witness :
  has_weights Examples.model0 float64 Column
    [Binary64.zero; Binary64.zero; Binary64.zero]
  /\ wf_rows 3 Examples.rows0
  /\ exists ps : list spec_float,
       forward (Arr2 3 Examples.rows0) (Examples.model0, Examples.world0)
       = (Ok (samples_array Column ps), (Examples.model0, Examples.world0))
       /\ length ps = length Examples.rows0
       /\ forall i, (i < length Examples.rows0)%nat ->
            ps !!! i
            = f64_div f64_one
                (f64_add f64_one
                   (f64_exp (f64_neg
                      (score [Binary64.zero; Binary64.zero; Binary64.zero]
                         (Examples.rows0 !!! i))))).
Proof.
  split; [exact model0_has_weights|].
  split; [exact rows0_wf|].
  exact (forward_probabilities Examples.model0 Examples.world0 float64 Column
           _ Examples.rows0 model0_has_weights rows0_wf).
Defined.

Lemma fit_runs_max_iters_witness :
  0 <= 3
  /\ fit (Arr1 Examples.labels0) (Arr2 3 Examples.rows0) Binary64.tenth 3
       (Examples.model0, Examples.world0)
     = (Ok tt,
        (with_W Examples.model0
           (float64,
            weights_array Column
              (Nat.iter 3
                 (descent_step float64 Binary64.tenth Examples.labels0 Examples.rows0)
                 [Binary64.zero; Binary64.zero; Binary64.zero])),
         add_stdout Examples.world0 [[PInt 0]; [PInt 1]; [PInt 2]])).
Proof.
  assert (H3 : 0 <= 3) by (intros Hc; discriminate Hc).
  split; [exact H3|].
  exact (proj1 (fit_runs_max_iters Examples.model0 Examples.world0 float64 Column
                  _ Examples.labels0 Examples.rows0 Binary64.tenth 3
                  model0_has_weights rows0_wf labels0_length H3)).
Defined.

Lemma classify_thresholds_forward_witness :
  has_weights Examples.model0 float64 Column
    [Binary64.zero; Binary64.zero; Binary64.zero]
  /\ wf_rows 3 Examples.rows0
  /\ exists (ps : list spec_float) (cs : list Z),
       forward (Arr2 3 Examples.rows0) (Examples.model0, Examples.world0)
       = (Ok (samples_array Column ps), (Examples.model0, Examples.world0))
       /\ classify (Arr2 3 Examples.rows0) (Examples.model0, Examples.world0)
          = (Ok (samples_array Column cs), (Examples.model0, Examples.world0))
       /\ length cs = length ps.
Proof.
  split; [exact model0_has_weights|].
  split; [exact rows0_wf|].
  destruct (classify_thresholds_forward Examples.model0 Examples.world0
              float64 Column _ Examples.rows0 model0_has_weights rows0_wf)
    as (ps & cs & Hf & Hc & Hl & _).
  exists ps, cs. split; [exact Hf|]. split; [exact Hc | exact Hl].
Defined.

Lemma fit_nonpositive_is_noop_witness :
  -1 <= 0
  /\ fit (Arr1 Examples.labels0) (Arr2 3 Examples.rows0) Binary64.tenth (-1)
       (Examples.model0, Examples.world0)
     = (Ok tt, (Examples.model0, Examples.world0)).
Proof.
  assert (Hk : -1 <= 0) by (intros Hc; discriminate Hc).
  split; [exact Hk|].
  exact (fit_nonpositive_is_noop (Arr1 Examples.labels0) (Arr2 3 Examples.rows0)
           Binary64.tenth (-1) (Examples.model0, Examples.world0) Hk).
Defined.

Lemma init_zeros_ones_witness :
  0 < 2
  /\ __init__ 2 "zeros" Examples.world0 = (Ok Examples.model0, Examples.world0).
Proof.
  assert (Hn : 0 < 2) by reflexivity.
  split; [exact Hn|].
  exact (proj1 (init_zeros_ones (F:=spec_float) 2 Examples.world0 Hn)).
Defined.

Lemma foo_not_named : ~ named_policy "foo".
Proof.
  unfold named_policy. intros [Hc|[Hc|[Hc|Hc]]]; discriminate Hc.
Defined.

Lemma init_unknown_policy_leaves_W_unset_witness :
  ~ named_policy "foo"
  /\ __init__ (F:=spec_float) 2 "foo" Examples.world0
     = (Ok {| ndims := 2; W_init := "foo"; W := None |},
        add_stdout Examples.world0 [[PStr "Unknown W_init "; PStr "foo"]]).
Proof.
  split; [exact foo_not_named|].
  exact (proj1 (init_unknown_policy_leaves_W_unset (F:=spec_float)
                  2 "foo" Examples.world0 foo_not_named)).
Defined.


Lemma length_invariant_up_to_load_witness :
  length_invariant Examples.model0
  /\ length_invariant
       (fst (snd (fit (Arr1 Examples.labels0) (Arr2 3 Examples.rows0)
                    Binary64.tenth 3 (Examples.model0, Examples.world0))))
  /\ length_invariant
       (fst (snd ((save_model "w.bin" ;;; load_model "w.bin")
                    (Examples.model0, Examples.world0)))).
Proof.
  assert (Hinv : length_invariant Examples.model0) by reflexivity.
  destruct (length_invariant_up_to_load (F:=spec_float) (G:=Z))
    as (_ & _ & Hfit & _ & _ & _ & Hsl).
  split; [exact Hinv|]. split.
  - exact (Hfit (Arr1 Examples.labels0) (Arr2 3 Examples.rows0) Binary64.tenth 3
             (Examples.model0, Examples.world0) Hinv).
  - exact (Hsl "w.bin"%string Examples.model0 Examples.world0 float64 Column _
             model0_has_weights Hinv).
Defined.


(** * Binary64: the logistic function stays within the closed unit interval

    The facts below follow the definitions of [SFadd], [SFdiv] and
    [binary_round_aux] on mantissas and exponents: a sum [1 + y] with
    [y >= 0] rounds to a normal number with exponent at least -52 (or to
    infinity), and the quotient of 1 by such a number rounds to at most
    one. *)

Lemma fexp64 (e : Z) : fexp Binary64.prec Binary64.emax e = Z.max (e - 53) (-1074).
Proof. reflexivity. Qed.

Lemma digits2_pos_bounds (m : positive) :
  2 ^ (Z.pos (digits2_pos m) - 1) <= Z.pos m < 2 ^ Z.pos (digits2_pos m).
Proof.
  induction m as [p IH|p IH|]; simpl digits2_pos.
  - rewrite Pos2Z.inj_succ.
    replace (Z.succ (Z.pos (digits2_pos p)) - 1) with (Z.succ (Z.pos (digits2_pos p) - 1)) by lia.
    rewrite !Z.pow_succ_r by lia. lia.
  - rewrite Pos2Z.inj_succ.
    replace (Z.succ (Z.pos (digits2_pos p)) - 1) with (Z.succ (Z.pos (digits2_pos p) - 1)) by lia.
    rewrite !Z.pow_succ_r by lia. lia.
  - simpl. lia.
Qed.

Lemma digits2_pos_ge (m : positive) (k : Z) :
  0 <= k -> 2 ^ k <= Z.pos m -> k + 1 <= Z.pos (digits2_pos m).
Proof.
  intros Hk Hm. destruct (digits2_pos_bounds m) as [_ Hlt].
  destruct (Z_lt_le_dec (Z.pos (digits2_pos m)) (k + 1)) as [Hc|Hc]; [|exact Hc].
  exfalso. assert (2 ^ Z.pos (digits2_pos m) <= 2 ^ k) by (apply Z.pow_le_mono_r; lia).
  lia.
Qed.

Lemma digits2_pos_le (m : positive) (k : Z) :
  Z.pos m < 2 ^ k -> Z.pos (digits2_pos m) <= k.
Proof.
  intros Hm. destruct (digits2_pos_bounds m) as [Hle _].
  destruct (Z_lt_le_dec k (Z.pos (digits2_pos m))) as [Hc|Hc]; [|exact Hc].
  exfalso.
  destruct (Z_lt_le_dec k 0) as [Hk|Hk].
  { rewrite Z.pow_neg_r in Hm by assumption. lia. }
  assert (2 ^ k <= 2 ^ (Z.pos (digits2_pos m) - 1)) by (apply Z.pow_le_mono_r; lia).
  lia.
Qed.

Lemma shr_1_digits (s : shr_record) :
  0 <= shr_m s ->
  Zdigits2 (shr_m (shr_1 s)) = Z.max 0 (Zdigits2 (shr_m s) - 1)
  /\ 0 <= shr_m (shr_1 s).
Proof.
  destruct s as [m r st]. simpl shr_m at 1. intros Hm.
  destruct m as [|p|p]; [simpl; lia| |lia].
  destruct p as [p|p|]; cbn [shr_1 shr_m Zdigits2 digits2_pos orb];
    rewrite ?Pos2Z.inj_succ; split; lia.
Qed.

Lemma iter_shr_1_digits (p : positive) :
  forall s : shr_record,
  0 <= shr_m s ->
  Zdigits2 (shr_m (iter_pos shr_1 p s)) = Z.max 0 (Zdigits2 (shr_m s) - Z.pos p)
  /\ 0 <= shr_m (iter_pos shr_1 p s).
Proof.
  induction p as [p IH|p IH|]; intros s Hs; simpl iter_pos.
  - destruct (shr_1_digits s Hs) as [H1 H1'].
    destruct (IH _ H1') as [H2 H2'].
    destruct (IH _ H2') as [H3 H3'].
    split; [|exact H3'].
    rewrite H3, H2, H1. rewrite Pos2Z.inj_xI. lia.
  - destruct (IH _ Hs) as [H2 H2'].
    destruct (IH _ H2') as [H3 H3'].
    split; [|exact H3'].
    rewrite H3, H2. rewrite Pos2Z.inj_xO. lia.
  - apply shr_1_digits, Hs.
Qed.

Lemma round_nearest_even_cases (m : Z) (l : location) :
  round_nearest_even m l = m \/ round_nearest_even m l = m + 1.
Proof.
  destruct l as [|[| |]]; simpl; auto. destruct (Z.even m); auto.
Qed.

Lemma shr_record_of_loc_m (m : Z) (l : location) : shr_m (shr_record_of_loc m l) = m.
Proof. destruct l as [|[| |]]; reflexivity. Qed.

Lemma binary_round_aux_finish sx mx ex lx :
  binary_round_aux Binary64.prec Binary64.emax sx mx ex lx
  = Binary64.finish sx (round_nearest_even (shr_m (fst (shr_fexp Binary64.prec Binary64.emax mx ex lx)))
                 (loc_of_shr_record (fst (shr_fexp Binary64.prec Binary64.emax mx ex lx))))
      (snd (shr_fexp Binary64.prec Binary64.emax mx ex lx)).
Proof.
  unfold binary_round_aux, Binary64.finish.
  destruct (shr_fexp Binary64.prec Binary64.emax mx ex lx) as [mrs' e']. reflexivity.
Qed.

(** [shr_fexp] leaves a mantissa of at most 53 digits alone. *)
Lemma shr_fexp_noshift (m : positive) (e : Z) (l : location) :
  Z.pos (digits2_pos m) <= 53 -> -1074 <= e ->
  shr_fexp Binary64.prec Binary64.emax (Z.pos m) e l = (shr_record_of_loc (Z.pos m) l, e).
Proof.
  intros Hd He. unfold shr_fexp. cbn [Zdigits2]. rewrite fexp64.
  unfold shr.
  destruct (Z.max (Z.pos (digits2_pos m) + e - 53) (-1074) - e) as [|p|p] eqn:Hn;
    try reflexivity.
  lia.
Qed.

(** [shr_fexp] cuts a longer mantissa down to 53 digits. *)
Lemma shr_fexp_shift (m : positive) (e : Z) (l : location) :
  53 <= Z.pos (digits2_pos m) -> -1074 <= Z.pos (digits2_pos m) + e - 53 ->
  let r := shr_fexp Binary64.prec Binary64.emax (Z.pos m) e l in
  Zdigits2 (shr_m (fst r)) = 53 /\ 0 <= shr_m (fst r)
  /\ snd r = Z.pos (digits2_pos m) + e - 53.
Proof.
  intros Hd He. unfold shr_fexp. cbn [Zdigits2]. rewrite fexp64.
  replace (Z.max (Z.pos (digits2_pos m) + e - 53) (-1074) - e)
    with (Z.pos (digits2_pos m) - 53) by lia.
  unfold shr.
  destruct (Z.pos (digits2_pos m) - 53) as [|p|p] eqn:Hn; cbn [fst snd].
  - rewrite shr_record_of_loc_m. cbn [Zdigits2]. lia.
  - destruct (iter_shr_1_digits p (shr_record_of_loc (Z.pos m) l)) as [H1 H2].
    { rewrite shr_record_of_loc_m. lia. }
    rewrite H1, shr_record_of_loc_m. cbn [Zdigits2]. lia.
  - lia.
Qed.

Lemma Zdigits2_53_pos (m : Z) :
  Zdigits2 m = 53 -> 0 <= m -> exists p, m = Z.pos p /\ Z.pos (digits2_pos p) = 53.
Proof.
  destruct m as [|p|p]; simpl; intros Hd Hm; try lia. eauto.
Qed.

Lemma finish_ge_one (m2 : positive) (e' : Z) :
  2 ^ 52 <= Z.pos m2 <= 2 ^ 53 -> -52 <= e' ->
  Binary64.ge_one (Binary64.finish false (Z.pos m2) e').
Proof.
  intros Hm He. unfold Binary64.finish.
  assert (Hd : 53 <= Z.pos (digits2_pos m2) <= 54).
  { split.
    - apply (digits2_pos_ge m2 52); lia.
    - apply digits2_pos_le. change (2 ^ 54) with (2 * 2 ^ 53). lia. }
  destruct (shr_fexp_shift m2 e' loc_Exact) as (H1 & H2 & H3); [lia|lia|].
  destruct (shr_fexp Binary64.prec Binary64.emax (Z.pos m2) e' loc_Exact) as [mrs'' e''].
  cbn [fst snd] in *.
  destruct (Zdigits2_53_pos _ H1 H2) as (p & -> & Hp).
  change (Binary64.emax - Binary64.prec) with 971; destruct (Z.leb_spec e'' 971); simpl; [|exact I].
  split; [exact Hp|lia].
Qed.

Lemma round_aux_ge_one (M : positive) (ez : Z) (loc : location) :
  ez <= -52 -> 1 <= Z.pos (digits2_pos M) + ez ->
  Binary64.ge_one (binary_round_aux Binary64.prec Binary64.emax false (Z.pos M) ez loc).
Proof.
  intros Hez HD. rewrite binary_round_aux_finish.
  destruct (shr_fexp_shift M ez loc) as (H1 & H2 & H3); [lia|lia|].
  destruct (shr_fexp Binary64.prec Binary64.emax (Z.pos M) ez loc) as [mrs' e'].
  cbn [fst snd] in *.
  destruct (Zdigits2_53_pos _ H1 H2) as (p & Hp & Hdp).
  rewrite Hp.
  pose proof (digits2_pos_bounds p) as Hb. rewrite Hdp in Hb.
  change (2 ^ (53 - 1)) with (2 ^ 52) in Hb.
  destruct (round_nearest_even_cases (Z.pos p) (loc_of_shr_record mrs')) as [->| ->].
  - apply finish_ge_one; lia.
  - replace (Z.pos p + 1) with (Z.pos (p + 1)) by lia.
    apply finish_ge_one; lia.
Qed.

Lemma loc_of_shr_record_of_loc (m : Z) (l : location) :
  loc_of_shr_record (shr_record_of_loc m l) = l.
Proof. destruct l as [|[| |]]; reflexivity. Qed.

Lemma finish_two_53 (e' : Z) :
  -1074 <= e' <= -53 ->
  Binary64.finish false (Z.pos 9007199254740992) e' = S754_finite false 4503599627370496 (e' + 1).
Proof.
  intros He. unfold Binary64.finish, shr_fexp.
  change (Zdigits2 (Z.pos 9007199254740992)) with 54. rewrite fexp64.
  replace (Z.max (54 + e' - 53) (-1074) - e') with 1 by lia.
  cbn [shr iter_pos shr_record_of_loc shr_1 shr_m orb].
  change (Binary64.emax - Binary64.prec) with 971; destruct (Z.leb_spec (e' + 1) 971); [reflexivity|lia].
Qed.

Lemma finish_le_one (m2 : positive) (e' : Z) :
  Z.pos m2 <= 2 ^ 53 -> -1074 <= e' <= -53 ->
  Binary64.le_one (Binary64.finish false (Z.pos m2) e').
Proof.
  intros Hm He.
  destruct (Z_le_gt_dec (Z.pos (digits2_pos m2)) 53) as [Hd|Hd].
  - unfold Binary64.finish. rewrite shr_fexp_noshift by lia.
    cbn [shr_record_of_loc shr_m].
    change (Binary64.emax - Binary64.prec) with 971; destruct (Z.leb_spec e' 971); [|lia]. simpl. lia.
  - assert (Hlow : 2 ^ 53 <= Z.pos m2).
    { pose proof (digits2_pos_bounds m2) as [Hb _].
      assert (2 ^ 53 <= 2 ^ (Z.pos (digits2_pos m2) - 1))
        by (apply Z.pow_le_mono_r; lia).
      lia. }
    assert (Heq : m2 = 9007199254740992%positive).
    { apply Pos2Z.inj. change (Z.pos 9007199254740992) with (2 ^ 53). lia. }
    subst m2. rewrite finish_two_53 by assumption. simpl.
    change (2 ^ 52) with 4503599627370496. lia.
Qed.

Lemma round_aux_le_one (q : positive) (e' : Z) (loc : location) :
  Z.pos q <= 2 ^ 53 -> -1074 <= e' <= -53 ->
  Binary64.le_one (binary_round_aux Binary64.prec Binary64.emax false (Z.pos q) e' loc).
Proof.
  intros Hq He.
  destruct (Z_le_gt_dec (Z.pos (digits2_pos q)) 53) as [Hd|Hd].
  - rewrite binary_round_aux_finish.
    rewrite shr_fexp_noshift by lia. cbn [fst snd].
    rewrite shr_record_of_loc_m, loc_of_shr_record_of_loc.
    assert (Hq' : Z.pos q < 2 ^ 53).
    { pose proof (digits2_pos_bounds q) as [_ Hb].
      assert (2 ^ Z.pos (digits2_pos q) <= 2 ^ 53)
        by (apply Z.pow_le_mono_r; lia).
      lia. }
    destruct (round_nearest_even_cases (Z.pos q) loc) as [->| ->].
    + apply finish_le_one; lia.
    + replace (Z.pos q + 1) with (Z.pos (q + 1)) by lia.
      apply finish_le_one; lia.
  - assert (Hlow : 2 ^ 53 <= Z.pos q).
    { pose proof (digits2_pos_bounds q) as [Hb _].
      assert (2 ^ 53 <= 2 ^ (Z.pos (digits2_pos q) - 1))
        by (apply Z.pow_le_mono_r; lia).
      lia. }
    assert (Heq : q = 9007199254740992%positive).
    { apply Pos2Z.inj. change (Z.pos 9007199254740992) with (2 ^ 53). lia. }
    subst q. rewrite binary_round_aux_finish. unfold shr_fexp.
    change (Zdigits2 (Z.pos 9007199254740992)) with 54. rewrite fexp64.
    replace (Z.max (54 + e' - 53) (-1074) - e') with 1 by lia.
    assert (Hfin : Binary64.finish false 4503599627370496 (e' + 1)
                   = S754_finite false 4503599627370496 (e' + 1)).
    { unfold Binary64.finish. rewrite shr_fexp_noshift by (simpl; lia).
      cbn [shr_record_of_loc shr_m].
      change (Binary64.emax - Binary64.prec) with 971; destruct (Z.leb_spec (e' + 1) 971); [reflexivity|lia]. }
    destruct loc as [|[| |]];
      cbn [shr iter_pos shr_record_of_loc shr_1 shr_m fst snd orb
           loc_of_shr_record round_nearest_even];
      rewrite Hfin; simpl; change (2 ^ 52) with 4503599627370496; lia.
Qed.

Lemma pos_iter_xO (m d : positive) : Z.pos (Pos.iter xO m d) = Z.pos m * 2 ^ Z.pos d.
Proof.
  induction d as [|d IH] using Pos.peano_ind.
  - simpl. lia.
  - rewrite Pos.iter_succ, Pos2Z.inj_xO, IH, Pos2Z.inj_succ, Z.pow_succ_r by lia. lia.
Qed.

Lemma shl_align_fst (mx : positive) (ex ex' : Z) :
  ex' <= ex -> Z.pos (fst (shl_align mx ex ex')) = Z.pos mx * 2 ^ (ex - ex').
Proof.
  intros He. unfold shl_align.
  destruct (ex' - ex) as [|d|d] eqn:Hd; cbn [fst].
  - replace (ex - ex') with 0 by lia. lia.
  - lia.
  - rewrite pos_iter_xO. f_equal. f_equal. lia.
Qed.

Lemma shl_align_noshift (mx : positive) (ex ex' : Z) :
  ex <= ex' -> shl_align mx ex ex' = (mx, ex).
Proof.
  intros He. unfold shl_align.
  destruct (ex' - ex) as [|d|d] eqn:Hd; try reflexivity. lia.
Qed.

Lemma add_one_ge_one (y : spec_float) :
  Binary64.nonneg y = true -> Binary64.ge_one (SFadd Binary64.prec Binary64.emax Binary64.one y).
Proof.
  destruct y as [s|[|]| |[|] m ex]; simpl Binary64.nonneg; intros Hy; try discriminate.
  - simpl. split; [reflexivity|lia].
  - exact I.
  - unfold Binary64.one, SFadd. cbn [cond_Zopp].
    set (ez := Z.min (-52) ex).
    assert (Hez : ez <= -52) by (unfold ez; lia).
    assert (Hez' : ez <= ex) by (unfold ez; lia).
    pose proof (shl_align_fst 4503599627370496 (-52) ez Hez) as Ha.
    pose proof (shl_align_fst m ex ez Hez') as Hb.
    set (a := fst (shl_align 4503599627370496 (-52) ez)) in *.
    set (b := fst (shl_align m ex ez)) in *.
    change (Z.pos a + Z.pos b) with (Z.pos (a + b)).
    cbn [binary_normalize]. unfold binary_round.
    assert (Hsum : 2 ^ (- ez) <= Z.pos (a + b)).
    { rewrite Pos2Z.inj_add, Ha.
      change (Z.pos 4503599627370496) with (2 ^ 52).
      rewrite <- Z.pow_add_r by lia.
      replace (52 + (-52 - ez)) with (- ez) by lia. lia. }
    assert (HD : 1 <= Z.pos (digits2_pos (a + b)) + ez).
    { pose proof (digits2_pos_ge (a + b) (- ez)). lia. }
    rewrite shl_align_noshift by (rewrite fexp64; clear - Hez HD; lia).
    apply round_aux_ge_one; assumption.
Qed.

Lemma div_eucl_bounds (a b q r : Z) :
  0 < b -> Z.div_eucl a b = (q, r) -> a = b * q + r /\ 0 <= r < b.
Proof.
  intros Hb Hqr. assert (Hb' : b > 0) by lia.
  pose proof (Z_div_mod a b Hb') as Hdm.
  rewrite Hqr in Hdm. exact Hdm.
Qed.

Lemma div_core_le_one (md : positive) (ed : Z) (n : Z) (q r : Z) :
  2 ^ 52 <= Z.pos md < 2 ^ 53 ->
  51 <= n <= 53 ->
  Z.div_eucl (2 ^ (52 + n)) (Z.pos md) = (q, r) ->
  1 <= q <= 2 ^ 53.
Proof.
  intros Hmd Hn Hqr.
  assert (Hb0 : 0 < Z.pos md) by lia.
  destruct (div_eucl_bounds _ _ _ _ Hb0 Hqr) as [Heq Hr].
  assert (Hpow : 2 ^ (52 + n) = 2 ^ 52 * 2 ^ n) by (apply Z.pow_add_r; lia).
  assert (Hn1 : 2 ^ 51 <= 2 ^ n) by (apply Z.pow_le_mono_r; lia).
  assert (Hn2 : 2 ^ n <= 2 ^ 53) by (apply Z.pow_le_mono_r; lia).
  change (2 ^ 53) with 9007199254740992 in *.
  change (2 ^ 52) with 4503599627370496 in *.
  change (2 ^ 51) with 2251799813685248 in *.
  split; nia.
Qed.

Lemma div_one_le_one (d : spec_float) :
  Binary64.ge_one d -> Binary64.le_one (SFdiv Binary64.prec Binary64.emax Binary64.one d).
Proof.
  destruct d as [s|[|]| |[|] md ed]; simpl Binary64.ge_one; intros Hd; try contradiction.
  - exact I.
  - destruct Hd as [Hdig He].
    pose proof (digits2_pos_bounds md) as Hmd. rewrite Hdig in Hmd.
    change (2 ^ (53 - 1)) with (2 ^ 52) in Hmd.
    unfold Binary64.one, SFdiv, SFdiv_core_binary. cbn [xorb].
    change (Zdigits2 (Z.pos 4503599627370496)) with 53.
    cbn [Zdigits2]. rewrite Hdig, fexp64.
    set (e' := Z.min (Z.max (53 + -52 - (53 + ed) - 53) (-1074)) (-52 - ed)).
    assert (He' : -1074 <= e' <= -53) by (unfold e'; lia).
    assert (Hs : -52 - ed - e' = 53 \/ -52 - ed - e' = 52 \/ -52 - ed - e' = 51)
      by (unfold e'; lia).
    assert (Hm' : exists n, 51 <= n <= 53 /\
              match -52 - ed - e' with
              | Z.pos _ => Z.shiftl (Z.pos 4503599627370496) (-52 - ed - e')
              | 0 => Z.pos 4503599627370496
              | Z.neg _ => 0
              end = 2 ^ (52 + n)).
    { destruct Hs as [->|[->| ->]];
        [exists 53 | exists 52 | exists 51]; (split; [lia|reflexivity]). }
    destruct Hm' as (n & Hn & ->).
    destruct (Z.div_eucl (2 ^ (52 + n)) (Z.pos md)) as [q r] eqn:Hqr.
    pose proof (div_core_le_one md ed n q r Hmd Hn Hqr) as Hq.
    destruct q as [|q|q]; try lia.
    apply round_aux_le_one; lia.
Qed.

Lemma le_one_interval (p : spec_float) :
  Binary64.le_one p -> SFleb Binary64.zero p = true /\ SFleb p Binary64.one = true.
Proof.
  destruct p as [[|]|[|]| |[|] m e]; simpl Binary64.le_one; intros Hp; try contradiction.
  - split; reflexivity.
  - split; [reflexivity|].
    unfold SFleb, Binary64.one, SFcompare.
    destruct Hp as [He|[-> Hm]].
    + now rewrite (proj2 (Z.compare_lt_iff e (-52)) He).
    + rewrite Z.compare_refl.
      change (2 ^ 52) with (Z.pos 4503599627370496) in Hm.
      rewrite Pos.compare_cont_spec.
      destruct (Pos.compare_spec m 4503599627370496) as [Hc|Hc|Hc];
        cbn [Pos.switch_Eq]; try reflexivity.
      exfalso. clear - Hc Hm. lia.
Qed.

(** The logistic function of binary64 stays in [0, 1]. *)
Lemma logistic_unit_interval (y : spec_float) :
  Binary64.nonneg y = true ->
  Binary64.in_closed_unit
    (Binary64.div Binary64.one (Binary64.add Binary64.one y)).
Proof.
  intros Hy. unfold Binary64.in_closed_unit, Binary64.leb.
  apply le_one_interval.
  unfold Binary64.div, Binary64.add.
  apply div_one_le_one, add_one_ge_one, Hy.
Qed.

(** * The claim about the range of [forward] *)

(** C7, as the code has it.  In binary64, with any implementation [e] of
    [np.exp] that returns a value that is neither NaN nor negative on the
    negated score of every sample (as an exponential does on every score
    that is not NaN), every value [p] returned by [forward(X)] satisfies
    [0 <= p <= 1].  The bounds are not strict: see
    [forward_reaches_one_and_zero]. *)
Theorem forward_in_closed_unit_interval {G : Type} (e : spec_float -> spec_float)
    (self : LogisticModel (F:=spec_float)) (w : world (G:=G))
    (dt : dtype) (lay : layout) (ws : list spec_float)
    (rows : list (list spec_float)) :
  has_weights self dt lay ws ->
  wf_rows (length ws) rows ->
  Forall (fun x =>
            Binary64.nonneg
              (e (Binary64.neg (score (H:=Binary64.binary64_with e) ws x)))
            = true) rows ->
  exists ps : list spec_float,
    forward (H:=Binary64.binary64_with e) (Arr2 (length ws) rows) (self, w)
    = (Ok (samples_array lay ps), (self, w))
    /\ length ps = length rows
    /\ Forall Binary64.in_closed_unit ps.
Proof.
  intros HW Hwf Hexp.
  exists (fmap (M:=list)
            (fun x => logistic (H:=Binary64.binary64_with e)
                        (score (H:=Binary64.binary64_with e) ws x)) rows).
  split; [|split].
  - now apply (forward_run (H:=Binary64.binary64_with e)) with dt.
  - apply length_fmap.
  - rewrite Forall_fmap. eapply Forall_impl; [exact Hexp|].
    intros x Hx. exact (logistic_unit_interval _ Hx).
Qed.

(** The open interval is left at finite inputs.  With weights [[1, 1]],
    the sample [[1, 39]] has the finite score 40, [exp(-40)] is below half
    an ulp of 1, and [forward] returns exactly 1.0.  The sample
    [[1, -711]] has the finite score -710, [exp(710)] overflows to
    infinity, and [forward] returns exactly 0.0. *)
Lemma forward_reaches_one_and_zero :
  (Forall (Forall (fun x => Binary64.is_finite x = true)) Examples.rows1
   /\ score [Binary64.one; Binary64.one] [Binary64.one; Binary64.of_Z 39]
      = Binary64.of_Z 40
   /\ Binary64.is_finite (Binary64.of_Z 40) = true
   /\ forward (Arr2 2 Examples.rows1) (Examples.model1, Examples.world0)
      = (Ok (Arr2 1 [[Binary64.one]]), (Examples.model1, Examples.world0))
   /\ ~ Binary64.in_open_unit Binary64.one)
  /\ (Forall (Forall (fun x => Binary64.is_finite x = true)) Examples.rows2
      /\ score [Binary64.one; Binary64.one] [Binary64.one; Binary64.of_Z (-711)]
         = Binary64.of_Z (-710)
      /\ Binary64.is_finite (Binary64.of_Z (-710)) = true
      /\ forward (Arr2 2 Examples.rows2) (Examples.model1, Examples.world0)
         = (Ok (Arr2 1 [[Binary64.zero]]), (Examples.model1, Examples.world0))
      /\ ~ Binary64.in_open_unit Binary64.zero).
Proof.
  split.
  - split; [repeat constructor|].
    split; [vm_compute; reflexivity|].
    split; [reflexivity|].
    split; [vm_compute; reflexivity|].
    unfold Binary64.in_open_unit. vm_compute. intros [_ Hc]. discriminate Hc.
  - split; [repeat constructor|].
    split; [vm_compute; reflexivity|].
    split; [reflexivity|].
    split; [vm_compute; reflexivity|].
    unfold Binary64.in_open_unit. vm_compute. intros [Hc _]. discriminate Hc.
Qed.

(** [Examples.model1] is what [LogisticModel(1, 'ones')] constructs. *)
Example init_model1 :
  __init__ 1 "ones" Examples.world0 = (Ok Examples.model1, Examples.world0).
Proof. reflexivity. Qed.

Lemma model1_has_weights :
  has_weights Examples.model1 float64 Column [Binary64.one; Binary64.one].
Proof. reflexivity. Defined.

Lemma rows1_wf : wf_rows (length [Binary64.one; Binary64.one]) Examples.rows1.
Proof. repeat constructor. Defined.

Lemma rows1_exp_nonneg :
  Forall (fun x =>
            Binary64.nonneg
              (Binary64.exp
                 (Binary64.neg (score [Binary64.one; Binary64.one] x)))
            = true) Examples.rows1.
Proof. repeat constructor. Defined.

Lemma forward_in_closed_unit_interval_witness :
  has_weights Examples.model1 float64 Column [Binary64.one; Binary64.one]
  /\ wf_rows 2 Examples.rows1
  /\ Forall (fun x =>
               Binary64.nonneg
                 (Binary64.exp
                    (Binary64.neg (score [Binary64.one; Binary64.one] x)))
               = true) Examples.rows1
  /\ exists ps : list spec_float,
       forward (Arr2 2 Examples.rows1) (Examples.model1, Examples.world0)
       = (Ok (samples_array Column ps), (Examples.model1, Examples.world0))
       /\ length ps = length Examples.rows1
       /\ Forall Binary64.in_closed_unit ps.
Proof.
  split; [exact model1_has_weights|].
  split; [exact rows1_wf|].
  split; [exact rows1_exp_nonneg|].
  exact (forward_in_closed_unit_interval Binary64.exp
           Examples.model1 Examples.world0 float64 Column
           [Binary64.one; Binary64.one] Examples.rows1
           model1_has_weights rows1_wf rows1_exp_nonneg).
Defined.

(** The exponential of [Module Binary64] at a few points, as the C library
    gives them: [exp(1) = 0x1.5bf0a8b145769p+1],
    [exp(-40) = 0x1.3978e42bcf924p-58], [exp(709)] is finite, [exp(710)]
    overflows and [exp(-746)] underflows to zero. *)
Example exp_values :
  Binary64.exp Binary64.one = S754_finite false 6121026514868073 (-51)
  /\ Binary64.exp (Binary64.of_Z (-40)) = S754_finite false 5514679113423396 (-110)
  /\ Binary64.exp (Binary64.of_Z 709) = S754_finite false 8235536102055067 970
  /\ Binary64.exp (Binary64.of_Z 710) = S754_infinity false
  /\ Binary64.exp (Binary64.of_Z (-746)) = Binary64.zero
  /\ Binary64.exp Binary64.zero = Binary64.one.
Proof. vm_compute. repeat split. Qed.

(** Whatever the implementation of the exponential, as soon as it
    overflows at 710 (as every binary64 exponential does: [e^710] exceeds
    the largest finite number), [forward] returns exactly 0.0 on the
    sample of score -710. *)
Lemma forward_zero_when_exp_overflows (e : spec_float -> spec_float) :
  e (Binary64.of_Z 710) = S754_infinity false ->
  forward (H:=Binary64.binary64_with e) (Arr2 2 Examples.rows2)
    (Examples.model1, Examples.world0)
  = (Ok (Arr2 1 [[Binary64.zero]]), (Examples.model1, Examples.world0)).
Proof.
  intros He.
  assert (Hrows : wf_rows (length [Binary64.one; Binary64.one]) Examples.rows2)
    by repeat constructor.
  pose proof (forward_run (H:=Binary64.binary64_with e) Examples.model1
                Examples.world0 float64 Column [Binary64.one; Binary64.one]
                Examples.rows2 model1_has_weights Hrows) as Hrun.
  change (length [Binary64.one; Binary64.one]) with 2%nat in Hrun.
  rewrite Hrun. clear Hrun.
  unfold Examples.rows2, logistic. cbn [fmap list_fmap samples_array length].
  assert (Hs : f64_neg (Float64:=Binary64.binary64_with e)
                 (score (H:=Binary64.binary64_with e)
                    [Binary64.one; Binary64.one]
                    [Binary64.one; Binary64.of_Z (-711)])
               = Binary64.of_Z 710) by (vm_compute; reflexivity).
  rewrite Hs.
  change (f64_exp (Float64:=Binary64.binary64_with e) (Binary64.of_Z 710))
    with (e (Binary64.of_Z 710)).
  rewrite He. reflexivity.
Qed.

(** * Binary64: float32 items survive the file

    The 32-bit pattern of a float32 value in normal form decodes to that
    value, the four bytes of an item hold the pattern, widening to float64
    is exact, and rounding a widened value back to float32 gives the
    value: what [load_model] reads is a fixed point of the conversion. *)

(** The four bytes of an item hold its 32-bit pattern. *)
Lemma Z_of_byte_range (b : Byte.byte) : 0 <= Binary64.Z_of_byte b < 256.
Proof.
  unfold Binary64.Z_of_byte. pose proof (Byte.to_N_bounded b) as Hb.
  lia.
Qed.

Lemma Z_of_byte_of_Z (n : Z) :
  0 <= n < 256 -> Binary64.Z_of_byte (Binary64.byte_of_Z n) = n.
Proof.
  intros Hn. unfold Binary64.Z_of_byte, Binary64.byte_of_Z.
  rewrite Z.mod_small by lia.
  destruct (Byte.of_N (Z.to_N n)) as [b|] eqn:Hb.
  - apply Byte.to_of_N in Hb. rewrite Hb. lia.
  - exfalso. apply Byte.of_N_None_iff in Hb. lia.
Qed.

Lemma Z_of_byte_of_Z_mod (n : Z) :
  Binary64.Z_of_byte (Binary64.byte_of_Z n) = n mod 256.
Proof.
  rewrite <- (Z_of_byte_of_Z (n mod 256)) by (apply Z.mod_pos_bound; lia).
  unfold Binary64.byte_of_Z. now rewrite Z.mod_mod by lia.
Qed.

Lemma bits_of_item_of_bits (z : Z) :
  0 <= z < 2 ^ 32 -> Binary64.bits_of_item (Binary64.item_of_bits z) = z.
Proof.
  intros Hz. unfold Binary64.bits_of_item, Binary64.item_of_bits.
  rewrite !Z_of_byte_of_Z_mod, !Z.shiftr_div_pow2 by lia.
  change (2 ^ 32) with 4294967296 in Hz.
  change (2 ^ 8) with 256. change (2 ^ 16) with 65536. change (2 ^ 24) with 16777216.
  pose proof (Z.div_mod z 256 ltac:(lia)).
  pose proof (Z.div_mod (z / 256) 256 ltac:(lia)).
  pose proof (Z.div_mod (z / 65536) 256 ltac:(lia)).
  assert (z / 65536 = z / 256 / 256) by (rewrite Z.div_div by lia; reflexivity).
  assert (z / 16777216 = z / 65536 / 256) by (rewrite Z.div_div by lia; reflexivity).
  assert (z / 16777216 < 256) by (apply Z.div_lt_upper_bound; lia).
  assert (0 <= z / 16777216) by (apply Z.div_pos; lia).
  rewrite (Z.mod_small (z / 16777216)) by lia.
  lia.
Qed.

Lemma decode_fields (s E f : Z) :
  0 <= s <= 1 -> 0 <= E < 2 ^ 8 -> 0 <= f < 2 ^ 23 ->
  let b := s * 2 ^ 31 + E * 2 ^ 23 + f in
  Z.testbit b 31 = (s =? 1)
  /\ Z.land (Z.shiftr b 23) 255 = E
  /\ Z.land b (2 ^ 23 - 1) = f.
Proof.
  intros Hs HE Hf b.
  change (2 ^ 8) with 256 in HE. change (2 ^ 23) with 8388608 in Hf.
  assert (Hb23 : b / 2 ^ 23 = s * 256 + E).
  { symmetry. apply (Z.div_unique b (2 ^ 23) (s * 256 + E) f).
    - left. change (2 ^ 23) with 8388608. lia.
    - unfold b. change (2 ^ 31) with 2147483648. change (2 ^ 23) with 8388608. lia. }
  split; [|split].
  - assert (Hb31 : b / 2 ^ 31 = s).
    { symmetry. apply (Z.div_unique b (2 ^ 31) s (E * 2 ^ 23 + f)).
      - left. change (2 ^ 31) with 2147483648. change (2 ^ 23) with 8388608. lia.
      - unfold b. lia. }
    assert (H31 : 0 <= 31) by lia.
    pose proof (Z.testbit_spec' b 31 H31) as Ht. rewrite Hb31 in Ht.
    assert (Hcases : s = 0 \/ s = 1) by lia.
    destruct Hcases as [Hs0 | Hs1]; rewrite ?Hs0, ?Hs1 in *;
      destruct (Z.testbit b 31); simpl in Ht; try reflexivity; discriminate Ht.
  - rewrite Z.shiftr_div_pow2 by lia. rewrite Hb23.
    change 255 with (Z.ones 8). rewrite Z.land_ones by lia.
    symmetry. apply (Z.mod_unique (s * 256 + E) (2 ^ 8) s E).
    + left. change (2 ^ 8) with 256. lia.
    + change (2 ^ 8) with 256. lia.
  - change (2 ^ 23 - 1) with (Z.ones 23). rewrite Z.land_ones by lia.
    symmetry. apply (Z.mod_unique b (2 ^ 23) (s * 256 + E) f).
    + left. change (2 ^ 23) with 8388608. lia.
    + unfold b. change (2 ^ 31) with 2147483648. change (2 ^ 23) with 8388608. lia.
Qed.

Lemma sign_bit_range (s : bool) : 0 <= Binary64.sign_bit s <= 1.
Proof. destruct s; simpl; lia. Qed.

Lemma sign_bit_eqb (s : bool) : (Binary64.sign_bit s =? 1) = s.
Proof. now destruct s. Qed.

(** Decoding the encoding of a value in normal form gives it back, and
    the encoding has 32 bits. *)
Lemma binary32_of_bits_of_binary32 (x : spec_float) :
  Binary64.valid32 x ->
  0 <= Binary64.bits_of_binary32 x < 2 ^ 32
  /\ Binary64.binary32_of_bits (Binary64.bits_of_binary32 x) = x.
Proof.
  intros Hx. unfold Binary64.binary32_of_bits.
  assert (Hgen : forall s E f, 0 <= E < 2 ^ 8 -> 0 <= f < 2 ^ 23 ->
            Binary64.bits_of_binary32 x = Binary64.sign_bit s * 2 ^ 31 + E * 2 ^ 23 + f ->
            0 <= Binary64.bits_of_binary32 x < 2 ^ 32
            /\ Z.testbit (Binary64.bits_of_binary32 x) 31 = s
            /\ Z.land (Z.shiftr (Binary64.bits_of_binary32 x) 23) 255 = E
            /\ Z.land (Binary64.bits_of_binary32 x) (2 ^ 23 - 1) = f).
  { intros s E f HE Hf ->.
    destruct (decode_fields (Binary64.sign_bit s) E f (sign_bit_range s) HE Hf) as (H1 & H2 & H3).
    rewrite H1, H2, H3, sign_bit_eqb.
    pose proof (sign_bit_range s).
    change (2 ^ 8) with 256 in HE. change (2 ^ 23) with 8388608 in *.
    change (2 ^ 31) with 2147483648. change (2 ^ 32) with 4294967296.
    repeat split; lia. }
  destruct x as [s|s| |s m e].
  - destruct (Hgen s 0 0) as (Hr & -> & -> & ->); [lia|lia| |].
    { simpl. destruct s; reflexivity. }
    split; [exact Hr|reflexivity].
  - destruct (Hgen s 255 0) as (Hr & -> & -> & ->); [lia|lia| |].
    { simpl. destruct s; reflexivity. }
    split; [exact Hr|reflexivity].
  - destruct (Hgen false 255 (2 ^ 22)) as (Hr & -> & -> & ->); [lia|lia| |].
    { reflexivity. }
    split; [exact Hr|reflexivity].
  - simpl in Hx. destruct Hx as [[Hm He]|[Hm He]].
    + subst e. destruct (Hgen s 0 (Z.pos m)) as (Hr & -> & -> & ->); [lia|lia| |].
      { unfold Binary64.bits_of_binary32, Binary64.sign_bit. destruct s; lia. }
      split; [exact Hr|reflexivity].
    + destruct (Hgen s (e + 150) (Z.pos m - 2 ^ 23)) as (Hr & -> & -> & ->).
      { change (2 ^ 8) with 256. lia. }
      { change (2 ^ 24) with (2 * 2 ^ 23) in Hm. lia. }
      { unfold Binary64.bits_of_binary32, Binary64.sign_bit. destruct s; lia. }
      split; [exact Hr|].
      destruct (Z.eqb_spec (e + 150) 0); [lia|].
      destruct (Z.eqb_spec (e + 150) 255); [lia|].
      replace (Z.pos m - 2 ^ 23 + 2 ^ 23) with (Z.pos m) by lia.
      f_equal. lia.
Qed.

(** Every bit pattern decodes to a value in normal form. *)
Lemma valid32_binary32_of_bits (b : Z) : Binary64.valid32 (Binary64.binary32_of_bits b).
Proof.
  unfold Binary64.binary32_of_bits.
  set (e := Z.land (Z.shiftr b 23) 255).
  set (f := Z.land b (2 ^ 23 - 1)).
  assert (Hf : 0 <= f < 2 ^ 23).
  { unfold f. change (2 ^ 23 - 1) with (Z.ones 23). rewrite Z.land_ones by lia.
    apply Z.mod_pos_bound. lia. }
  assert (He : 0 <= e < 2 ^ 8).
  { unfold e. change 255 with (Z.ones 8). rewrite Z.land_ones by lia.
    apply Z.mod_pos_bound. lia. }
  destruct (Z.eqb_spec e 0).
  - destruct f as [|m|m] eqn:Hfm; simpl; try exact I. left. lia.
  - destruct (Z.eqb_spec e 255).
    + destruct (f =? 0); exact I.
    + destruct (f + 2 ^ 23) as [|m|m] eqn:Hfm; simpl; try exact I.
      right. change (2 ^ 24) with (2 * 2 ^ 23). change (2 ^ 8) with 256 in He. lia.
Qed.

Lemma iter_pos_Pos_iter {A} (f : A -> A) (p : positive) :
  forall x, iter_pos f p x = Pos.iter f x p.
Proof.
  induction p as [p IH|p IH|]; intros x; simpl.
  - rewrite !IH. now rewrite <- !Pos.iter_swap.
  - now rewrite !IH.
  - reflexivity.
Qed.

Lemma shr_iter_xO (m d : positive) :
  iter_pos shr_1 d
    {| shr_m := Z.pos (Pos.iter xO m d); shr_r := false; shr_s := false |}
  = {| shr_m := Z.pos m; shr_r := false; shr_s := false |}.
Proof.
  rewrite iter_pos_Pos_iter.
  induction d as [|d IH] using Pos.peano_ind.
  - reflexivity.
  - rewrite Pos.iter_succ_r. rewrite (Pos.iter_succ d positive xO m). exact IH.
Qed.

Lemma digits2_pos_iter_xO (m d : positive) :
  Z.pos (digits2_pos (Pos.iter xO m d)) = Z.pos (digits2_pos m) + Z.pos d.
Proof.
  induction d as [|d IH] using Pos.peano_ind.
  - simpl. lia.
  - rewrite (Pos.iter_succ d positive xO m). cbn [digits2_pos]. lia.
Qed.

Lemma fexp32 (e : Z) :
  fexp Binary64.prec32 Binary64.emax32 e = Z.max (e - 24) (-149).
Proof. reflexivity. Qed.

Lemma valid32_digits (s : bool) (m : positive) (e : Z) :
  Binary64.valid32 (S754_finite s m e) ->
  Z.pos (digits2_pos m) <= 24
  /\ Z.max (Z.pos (digits2_pos m) + e - 24) (-149) = e
  /\ -149 <= e <= 104.
Proof.
  simpl. intros [[Hm He]|[Hm He]].
  - pose proof (digits2_pos_le m 23 Hm). lia.
  - assert (Hd : Z.pos (digits2_pos m) = 24).
    { pose proof (digits2_pos_le m 24 ltac:(lia)).
      pose proof (digits2_pos_ge m 23 ltac:(lia) ltac:(lia)). lia. }
    lia.
Qed.

(** Widening a float32 value in normal form: the mantissa is padded to 53
    digits. *)
Lemma widen_valid32 (s : bool) (m : positive) (e : Z) :
  Binary64.valid32 (S754_finite s m e) ->
  exists d : positive,
    Z.pos d = 53 - Z.pos (digits2_pos m)
    /\ binary_normalize Binary64.prec Binary64.emax
         (cond_Zopp s (Z.pos m)) e s
       = S754_finite s (Pos.iter xO m d) (e - Z.pos d).
Proof.
  intros Hv. destruct (valid32_digits s m e Hv) as (Hd & _ & He).
  pose proof (Pos2Z.is_pos (digits2_pos m)) as Hd0.
  exists (Z.to_pos (53 - Z.pos (digits2_pos m))).
  assert (Hdp : Z.pos (Z.to_pos (53 - Z.pos (digits2_pos m)))
                = 53 - Z.pos (digits2_pos m)) by (rewrite Z2Pos.id; lia).
  split; [exact Hdp|].
  set (d := Z.to_pos (53 - Z.pos (digits2_pos m))) in *.
  assert (Hround : binary_normalize Binary64.prec Binary64.emax
                     (cond_Zopp s (Z.pos m)) e s
                   = binary_round Binary64.prec Binary64.emax s m e)
    by (destruct s; reflexivity).
  rewrite Hround. unfold binary_round. rewrite fexp64.
  replace (Z.max (Z.pos (digits2_pos m) + e - 53) (-1074))
    with (e - Z.pos d) by lia.
  assert (Hshl : shl_align m e (e - Z.pos d) = (Pos.iter xO m d, e - Z.pos d)).
  { unfold shl_align. replace (e - Z.pos d - e) with (Z.neg d) by lia.
    reflexivity. }
  rewrite Hshl.
  assert (Hdig : Z.pos (digits2_pos (Pos.iter xO m d)) = 53)
    by (rewrite digits2_pos_iter_xO; lia).
  rewrite binary_round_aux_finish.
  rewrite shr_fexp_noshift by lia. cbn [fst snd shr_record_of_loc shr_m
    loc_of_shr_record round_nearest_even].
  unfold Binary64.finish. rewrite shr_fexp_noshift by lia.
  cbn [shr_record_of_loc shr_m].
  change (Binary64.emax - Binary64.prec) with 971.
  destruct (Z.leb_spec (e - Z.pos d) 971); [reflexivity|lia].
Qed.

(** Rounding the widened value to float32 gives the float32 value back. *)
Lemma narrow_widened (s : bool) (m d : positive) (e : Z) :
  Binary64.valid32 (S754_finite s m e) ->
  Binary64.to_binary32 (S754_finite s (Pos.iter xO m d) (e - Z.pos d))
  = S754_finite s m e.
Proof.
  intros Hv. destruct (valid32_digits s m e Hv) as (Hd & Hfe & He).
  unfold Binary64.to_binary32.
  assert (Hround : binary_normalize Binary64.prec32 Binary64.emax32
                     (cond_Zopp s (Z.pos (Pos.iter xO m d))) (e - Z.pos d) s
                   = binary_round Binary64.prec32 Binary64.emax32 s
                       (Pos.iter xO m d) (e - Z.pos d))
    by (destruct s; reflexivity).
  rewrite Hround. unfold binary_round.
  rewrite fexp32, digits2_pos_iter_xO.
  replace (Z.pos (digits2_pos m) + Z.pos d + (e - Z.pos d) - 24)
    with (Z.pos (digits2_pos m) + e - 24) by lia.
  rewrite Hfe.
  rewrite shl_align_noshift by lia.
  unfold binary_round_aux, shr_fexp.
  cbn [Zdigits2]. rewrite fexp32, digits2_pos_iter_xO.
  replace (Z.pos (digits2_pos m) + Z.pos d + (e - Z.pos d) - 24)
    with (Z.pos (digits2_pos m) + e - 24) by lia.
  rewrite Hfe.
  replace (e - (e - Z.pos d)) with (Z.pos d) by lia.
  cbn [shr shr_record_of_loc]. rewrite shr_iter_xO.
  cbn [shr_m loc_of_shr_record round_nearest_even Zdigits2 shr_record_of_loc].
  replace (e - Z.pos d + Z.pos d) with e by lia.
  rewrite fexp32, Hfe, Z.sub_diag.
  cbn [shr shr_m].
  change (Binary64.emax32 - Binary64.prec32) with 104.
  destruct (Z.leb_spec e 104); [reflexivity|lia].
Qed.

Lemma decode_item_of_encoding (v : spec_float) :
  Binary64.valid32 v ->
  Binary64.binary32_of_bits
    (Binary64.bits_of_item (Binary64.item_of_bits (Binary64.bits_of_binary32 v)))
  = v.
Proof.
  intros Hv. destruct (binary32_of_bits_of_binary32 v Hv) as [Hr Hd].
  now rewrite bits_of_item_of_bits.
Qed.

(** A float32 item read as float64 and converted back to float32 is the
    same value. *)
Lemma of_f32_to_f32_of_f32 (b : item4) :
  Binary64.of_f32 (Binary64.to_f32 (Binary64.of_f32 b)) = Binary64.of_f32 b.
Proof.
  unfold Binary64.of_f32 at 2 3.
  pose proof (valid32_binary32_of_bits (Binary64.bits_of_item b)) as Hv.
  destruct (Binary64.binary32_of_bits (Binary64.bits_of_item b))
    as [s|s| |s m e] eqn:Hb.
  - unfold Binary64.of_f32, Binary64.to_f32. cbn [Binary64.to_binary32].
    now rewrite (decode_item_of_encoding (S754_zero s) I).
  - unfold Binary64.of_f32, Binary64.to_f32. cbn [Binary64.to_binary32].
    now rewrite (decode_item_of_encoding (S754_infinity s) I).
  - unfold Binary64.of_f32, Binary64.to_f32. cbn [Binary64.to_binary32].
    now rewrite (decode_item_of_encoding S754_nan I).
  - destruct (widen_valid32 s m e Hv) as (d & Hd & Hw).
    rewrite Hw. unfold Binary64.of_f32, Binary64.to_f32.
    rewrite (narrow_widened s m d e Hv).
    rewrite (decode_item_of_encoding _ Hv). exact Hw.
Qed.

Lemma cast_float32_idempotent (x : spec_float) :
  cast (H:=Binary64.binary64) float32 (cast (H:=Binary64.binary64) float32 x)
  = cast (H:=Binary64.binary64) float32 x.
Proof. unfold cast. simpl. apply of_f32_to_f32_of_f32. Qed.

(** Out of the float32 range the conversion saturates: [10^39] is read
    back as infinity, and [10^-46] as zero. *)
Example float32_out_of_range :
  cast (H:=Binary64.binary64) float32 (Binary64.of_Z (10 ^ 39))
  = S754_infinity false
  /\ cast (H:=Binary64.binary64) float32
       (Binary64.div Binary64.one (Binary64.of_Z (10 ^ 46)))
     = Binary64.zero.
Proof. vm_compute. split; reflexivity. Qed.

(** * The claim about the round trip through a file *)

(** C6.  On a model whose weights are set, [save_model(path)] followed
    by [load_model(path)] returns normally and leaves in [W] a flat
    float32 array with one item per original weight, in order: item [i]
    is the original weight [i] converted to float32 (read back as the
    float64 value of that float32 item).  The file holds the 4-byte
    images of those items and both messages were printed.  In binary64
    the conversion is idempotent: a weight that is a float32 value is
    read back unchanged, so a second round trip changes nothing. *)
Theorem save_then_load_roundtrip {F G : Type} `{Float64 F}
    (self : LogisticModel (F:=F)) (w : world (G:=G))
    (dt : dtype) (lay : layout) (ws : list F) (path : string) :
  has_weights self dt lay ws ->
  let loaded := fmap (M:=list) (fun x => f64_of_f32 (f64_to_f32 x)) ws in
  (save_model path ;;; load_model path) (self, w)
  = (Ok tt,
     (with_W self (float32, weights_array Flat loaded),
      {| files := <[path := tofile_bytes (fmap (M:=list) f64_to_f32 ws)]> (files w);
         stdout := stdout w ++ [[PStr "model saved to"; PStr path];
                                [PStr "model loaded from"; PStr path]];
         random_state := random_state w |}))
  /\ length loaded = length ws
  /\ (forall i, (i < length ws)%nat ->
        loaded !!! i = cast float32 (ws !!! i))
  /\ (forall x : spec_float,
        cast (H:=Binary64.binary64) float32
          (cast (H:=Binary64.binary64) float32 x)
        = cast (H:=Binary64.binary64) float32 x)
  /\ (forall b : item4,
        Binary64.of_f32 (Binary64.to_f32 (Binary64.of_f32 b))
        = Binary64.of_f32 b).
Proof.
  intros HW loaded. split; [|split; [|split; [|split]]].
  - eapply save_then_load_run; eassumption.
  - apply length_fmap.
  - intros i Hi. unfold loaded. now rewrite lookup_total_fmap_lt.
  - exact cast_float32_idempotent.
  - exact of_f32_to_f32_of_f32.
Qed.

Lemma save_then_load_roundtrip_witness :
  has_weights Examples.model0 float64 Column
    [Binary64.zero; Binary64.zero; Binary64.zero]
  /\ W (fst (snd ((save_model "w.bin" ;;; load_model "w.bin")
                    (Examples.model0, Examples.world0))))
     = Some (float32, Arr1 [Binary64.zero; Binary64.zero; Binary64.zero]).
Proof.
  split; [exact model0_has_weights|].
  rewrite (proj1 (save_then_load_roundtrip Examples.model0 Examples.world0
                    float64 Column _ "w.bin" model0_has_weights)).
  reflexivity.
Defined.

(** * Further properties of the class

    What the methods do on arguments of the wrong shape, on an empty
    batch and on a single label; what [sigmoid] computes on any array;
    how two calls of [fit] compose; what the random policies and a
    negative [ndims] give; and what [save_model] and [load_model] do to
    the files. *)

(** ** Arguments of the wrong shape *)

Section ShapeErrors.
Context {F G : Type} `{Float64 F} `{RandomState F G}.
Implicit Types (self : LogisticModel (F:=F)) (w : world (G:=G)).
Implicit Types (ws ys : list F) (rows : list (list F)).

Lemma np_dot_width_mismatch (lay : layout) ws (c : nat) rows :
  c <> length ws ->
  np_dot (T (weights_array lay ws)) (T (Arr2 c rows)) = Raise ValueError.
Proof.
  intros Hc. unfold np_dot. destruct lay; simpl.
  - rewrite !length_fmap, length_tab.
    destruct (Nat.eqb_spec (length ws) c); [congruence | reflexivity].
  - rewrite length_tab.
    destruct (Nat.eqb_spec (length ws) c); [congruence | reflexivity].
Qed.

Lemma forward_width_mismatch self w dt lay ws (c : nat) rows :
  has_weights self dt lay ws -> c <> length ws ->
  forward (Arr2 c rows) (self, w) = (Raise ValueError, (self, w)).
Proof.
  intros HW Hc. unfold forward.
  erewrite bind_Ok by (apply get_W_Some, HW). simpl snd.
  erewrite bind_Raise; [reflexivity|].
  now rewrite lift_run, np_dot_width_mismatch.
Qed.

Lemma backward_width_mismatch self w dt lay ws (c : nat) rows (Y_true : ndarray F) :
  has_weights self dt lay ws -> c <> length ws ->
  backward Y_true (Arr2 c rows) (self, w) = (Raise ValueError, (self, w)).
Proof.
  intros HW Hc. unfold backward.
  erewrite bind_Ok by (apply get_W_Some, HW). simpl snd.
  erewrite bind_Raise; [reflexivity|].
  now rewrite lift_run, np_dot_width_mismatch.
Qed.

(** When the first call of [backward] raises, [fit] raises the same
    exception before it has stored or printed anything. *)
Lemma fit_first_pass_raises (Y_true X : ndarray F) (lr : F) (k : Z)
    (s : state (F:=F) (G:=G)) (e : exn) :
  1 <= k ->
  backward Y_true X s = (Raise e, s) ->
  fit Y_true X lr k s = (Raise e, s).
Proof.
  intros Hk Hb. unfold fit. rewrite seqZ_cons by lia. simpl for_each.
  erewrite bind_Raise; [reflexivity|].
  unfold fit_body. erewrite bind_Raise; [reflexivity|exact Hb].
Qed.

(** X1.  A matrix [X] whose number of columns is not [len(W)] is
    refused by the first [np.dot]: [forward], [classify] and [backward]
    raise [ValueError] and change nothing, and so does [fit] when it has
    at least one pass to run -- no weight is updated and no counter is
    printed. *)
Theorem wrong_width_raises_ValueError self w dt lay ws (c : nat) rows
    (Y_true : ndarray F) (lr : F) (k : Z) :
  has_weights self dt lay ws ->
  c <> length ws ->
  let X := Arr2 c rows in
  forward X (self, w) = (Raise ValueError, (self, w))
  /\ classify X (self, w) = (Raise ValueError, (self, w))
  /\ backward Y_true X (self, w) = (Raise ValueError, (self, w))
  /\ (1 <= k -> fit Y_true X lr k (self, w) = (Raise ValueError, (self, w))).
Proof.
  intros HW Hc X.
  assert (Hf : forward X (self, w) = (Raise ValueError, (self, w)))
    by (eapply forward_width_mismatch; eassumption).
  assert (Hb : backward Y_true X (self, w) = (Raise ValueError, (self, w)))
    by (eapply backward_width_mismatch; eassumption).
  split; [exact Hf|]. split; [|split; [exact Hb|]].
  - unfold classify. erewrite bind_Raise; [reflexivity|exact Hf].
  - intros Hk. now apply fit_first_pass_raises.
Qed.

End ShapeErrors.

Section BroadcastEdges.
Context {A B C : Type} `{!Inhabited A, !Inhabited B, !Inhabited C}.
Variable f : A -> B -> C.

(** Two flat extents that differ, neither of them one, do not broadcast. *)
Lemma broadcast_flat_samples_mismatch (lay : layout) (xs : list A) (ys : list B) :
  length xs <> length ys -> length xs <> 1%nat -> length ys <> 1%nat ->
  broadcast f (Arr1 xs) (samples_array lay ys) = Raise ValueError.
Proof.
  intros Hne Hx Hy.
  assert (Hb : bdim (length xs) (length ys) = None).
  { unfold bdim.
    destruct (Nat.eqb_spec (length xs) (length ys)); [contradiction|].
    destruct (Nat.eqb_spec (length xs) 1); [contradiction|].
    destruct (Nat.eqb_spec (length ys) 1); [contradiction|reflexivity]. }
  destruct lay; unfold broadcast; simpl; now rewrite Hb.
Qed.

(** Against a single sample, a flat array keeps its extent. *)
Lemma broadcast_flat_single (lay : layout) (xs : list A) (d : B) :
  broadcast f (Arr1 xs) (samples_array lay [d])
  = Ok (samples_array lay (fmap (M:=list) (fun x => f x d) xs)).
Proof.
  assert (Htab : tab (length xs) (fun j => f (xs !!! bidx (length xs) j) d)
                 = fmap (M:=list) (fun x => f x d) xs).
  { apply tab_eq; [apply length_fmap|].
    intros j Hj. rewrite lookup_total_fmap_lt by assumption.
    now rewrite bidx_lt. }
  destruct lay; unfold broadcast; simpl.
  - rewrite bdim_1_r. simpl.
    rewrite Htab. now rewrite length_fmap.
  - rewrite bdim_1_r. simpl.
    now rewrite Htab.
Qed.

(** A flat array of one item is read at index 0 for every sample. *)
Lemma broadcast_single_samples (lay : layout) (x : A) (ys : list B) :
  broadcast f (Arr1 [x]) (samples_array lay ys)
  = Ok (samples_array lay (fmap (M:=list) (f x) ys)).
Proof.
  assert (Htab : tab (length ys) (fun j => f x (ys !!! bidx (length ys) j))
                 = fmap (M:=list) (f x) ys).
  { apply tab_eq; [apply length_fmap|].
    intros j Hj. rewrite lookup_total_fmap_lt by assumption.
    now rewrite bidx_lt. }
  destruct lay; unfold broadcast; simpl.
  - rewrite bdim_1_l. simpl.
    rewrite Htab. now rewrite length_fmap.
  - rewrite bdim_1_l. simpl.
    now rewrite Htab.
Qed.

End BroadcastEdges.

Section LabelShapes.
Context {F G : Type} `{Float64 F} `{RandomState F G}.
Implicit Types (self : LogisticModel (F:=F)) (w : world (G:=G)).
Implicit Types (ws ys : list F) (rows : list (list F)).

Lemma np_dot_gradient_mismatch (lay : layout) (n : nat) rows (fs : list F) :
  length fs <> length rows ->
  np_dot (T (Arr2 n rows)) (T (samples_array lay fs)) = Raise ValueError.
Proof.
  intros Hne. unfold np_dot. destruct lay; simpl.
  - rewrite length_tab.
    destruct (Nat.eqb_spec (length rows) (length fs)); [congruence|reflexivity].
  - destruct (Nat.eqb_spec (length rows) (length fs)); [congruence|reflexivity].
Qed.

(** With more than one sample the labels fail to broadcast against the
    scores; with one sample they broadcast, and the last [np.dot] finds
    one row of [X] against several contributions. *)
Lemma backward_label_mismatch self w dt lay ws ys rows :
  has_weights self dt lay ws ->
  wf_rows (length ws) rows ->
  length ys <> length rows ->
  length ys <> 1%nat ->
  backward (Arr1 ys) (Arr2 (length ws) rows) (self, w)
  = (Raise ValueError, (self, w)).
Proof.
  intros HW Hwf Hne Hy1. unfold backward.
  erewrite bind_Ok by (apply get_W_Some, HW). simpl snd.
  erewrite bind_Ok by (rewrite lift_run, np_dot_scores by assumption; reflexivity).
  simpl amap.
  destruct (decide (length rows = 1%nat)) as [H1|H1].
  - destruct rows as [|r [|r' rows]]; try discriminate H1.
    cbn [fmap list_fmap].
    erewrite bind_Ok by (rewrite lift_run, broadcast_flat_single; reflexivity).
    rewrite amap_samples_array.
    erewrite bind_Ok; cycle 1.
    { rewrite lift_run, broadcast_flat_samples by (now rewrite !length_fmap).
      reflexivity. }
    erewrite bind_Ok; cycle 1.
    { rewrite lift_run, broadcast_scalar_l by apply wf_samples_array.
      rewrite amap_samples_array. reflexivity. }
    erewrite bind_Ok; cycle 1.
    { rewrite lift_run, broadcast_samples_samples; [reflexivity|].
      rewrite !length_zip_with, !length_fmap. lia. }
    erewrite bind_Raise; [reflexivity|].
    rewrite lift_run, np_dot_gradient_mismatch; [reflexivity|].
    rewrite !length_zip_with, !length_fmap. simpl in *. lia.
  - erewrite bind_Raise; [reflexivity|].
    rewrite lift_run, broadcast_flat_samples_mismatch;
      rewrite ?length_fmap; auto.
Qed.

(** X2.  Labels that are neither one per sample nor a single one are
    refused: on a matrix of the right width, [backward] raises
    [ValueError] and changes nothing, and [fit] with at least one pass
    to run raises it before any update or print. *)
Theorem wrong_label_count_raises_ValueError self w dt lay ws ys rows
    (lr : F) (k : Z) :
  has_weights self dt lay ws ->
  wf_rows (length ws) rows ->
  length ys <> length rows ->
  length ys <> 1%nat ->
  let X := Arr2 (length ws) rows in
  backward (Arr1 ys) X (self, w) = (Raise ValueError, (self, w))
  /\ (1 <= k ->
      fit (Arr1 ys) X lr k (self, w) = (Raise ValueError, (self, w))).
Proof.
  intros HW Hwf Hne Hy1 X.
  assert (Hb : backward (Arr1 ys) X (self, w) = (Raise ValueError, (self, w)))
    by (eapply backward_label_mismatch; eassumption).
  split; [exact Hb|].
  intros Hk. now apply fit_first_pass_raises.
Qed.

Lemma contributions_single_label ws (y : F) rows :
  zip_with f64_div
    (fmap (M:=list) (f64_mul (f64_neg y))
       (fmap (M:=list) f64_exp
          (fmap (M:=list) (f64_mul (f64_neg y)) (fmap (M:=list) (score ws) rows))))
    (fmap (M:=list) (f64_add f64_one)
       (fmap (M:=list) f64_exp
          (fmap (M:=list) (f64_mul (f64_neg y)) (fmap (M:=list) (score ws) rows))))
  = contributions ws (replicate (length rows) y) rows.
Proof.
  unfold contributions.
  induction rows as [|x rows IH]; simpl; [reflexivity|].
  f_equal. apply IH.
Qed.

(** X3.  A label array of one item is accepted whatever the number of
    samples: broadcasting applies the one label to every sample, so
    [backward] returns what it returns on that label repeated once per
    sample, and raises nothing. *)
Theorem single_label_is_broadcast self w dt lay ws (y : F) rows :
  has_weights self dt lay ws ->
  wf_rows (length ws) rows ->
  let X := Arr2 (length ws) rows in
  let ys := replicate (length rows) y in
  backward (Arr1 [y]) X (self, w)
  = (Ok (weights_array lay (gradient ws ys rows)), (self, w))
  /\ backward (Arr1 [y]) X (self, w) = backward (Arr1 ys) X (self, w).
Proof.
  intros HW Hwf X ys.
  assert (Hb : backward (Arr1 [y]) X (self, w)
               = (Ok (weights_array lay (gradient ws ys rows)), (self, w))).
  { unfold backward, X.
    erewrite bind_Ok by (apply get_W_Some, HW). simpl snd.
    erewrite bind_Ok by (rewrite lift_run, np_dot_scores by assumption; reflexivity).
    simpl amap.
    erewrite bind_Ok by (rewrite lift_run, broadcast_single_samples; reflexivity).
    rewrite amap_samples_array.
    erewrite bind_Ok by (rewrite lift_run, broadcast_single_samples; reflexivity).
    erewrite bind_Ok; cycle 1.
    { rewrite lift_run, broadcast_scalar_l by apply wf_samples_array.
      rewrite amap_samples_array. reflexivity. }
    erewrite bind_Ok; cycle 1.
    { rewrite lift_run, broadcast_samples_samples; [reflexivity|].
      now rewrite !length_fmap. }
    rewrite contributions_single_label.
    erewrite bind_Ok; cycle 1.
    { rewrite lift_run, np_dot_gradient; [reflexivity|].
      unfold contributions. rewrite length_zip_with, length_replicate. lia. }
    reflexivity. }
  split; [exact Hb|].
  rewrite Hb. symmetry. eapply backward_run; [eassumption|assumption|].
  apply length_replicate.
Qed.

Lemma tab_const {A} (n : nat) (x : A) : tab n (fun _ => x) = replicate n x.
Proof.
  unfold tab. generalize 0%nat.
  induction n as [|n IH]; intros k; [reflexivity|].
  simpl. f_equal. apply IH.
Qed.

(** X4.  On an empty batch ([X] with no row, no label) nothing is
    raised: [forward] and [classify] return an array without items, and
    [backward] returns a gradient of [len(W)] zeros. *)
Theorem empty_batch_gives_zero_gradient self w dt lay ws :
  has_weights self dt lay ws ->
  let X := Arr2 (length ws) [] in
  forward X (self, w) = (Ok (samples_array lay []), (self, w))
  /\ classify X (self, w) = (Ok (samples_array lay []), (self, w))
  /\ backward (Arr1 []) X (self, w)
     = (Ok (weights_array lay (replicate (length ws) f64_zero)), (self, w)).
Proof.
  intros HW X.
  assert (Hwf : wf_rows (length ws) (@nil (list F))) by constructor.
  split; [|split].
  - exact (forward_run self w dt lay ws [] HW Hwf).
  - exact (classify_run self w dt lay ws [] HW Hwf).
  - unfold X. rewrite (backward_run self w dt lay ws [] [] HW Hwf eq_refl).
    unfold gradient. now rewrite <- tab_const.
Qed.

End LabelShapes.

(** ** [sigmoid] on any array *)

Section Sigmoid.
Context {F G : Type} `{Float64 F}.

Lemma wf_amap {A B} (g : A -> B) (a : ndarray A) : wf a -> wf (amap g a).
Proof.
  destruct a as [x|v|c rows]; simpl; try exact id.
  unfold wf_rows. intros Hwf. rewrite Forall_fmap.
  eapply Forall_impl; [exact Hwf|].
  intros row Hrow. simpl. now rewrite length_fmap.
Qed.

Lemma amap_amap {A B C} (g : A -> B) (h : B -> C) (a : ndarray A) :
  amap h (amap g a) = amap (fun x => h (g x)) a.
Proof.
  destruct a as [x|v|c rows]; simpl.
  - reflexivity.
  - now rewrite <- list_fmap_compose.
  - f_equal. rewrite <- list_fmap_compose. apply list_fmap_ext.
    intros i row _. simpl. now rewrite <- list_fmap_compose.
Qed.

Lemma shape_amap {A B} (g : A -> B) (a : ndarray A) : shape (amap g a) = shape a.
Proof. destruct a; simpl; now rewrite ?length_fmap. Qed.

(** X5.  [sigmoid] accepts an array of any rank and shape (a scalar, a
    vector, a matrix, empty or not): it never raises, returns an array of
    the same shape whose items are [1 / (1 + exp(-x))] of the items of
    its argument, and neither reads nor changes the object -- it works
    on a model whose [W] is unset. *)
Theorem sigmoid_is_elementwise (x : ndarray F) (s : state (F:=F) (G:=G)) :
  wf x ->
  sigmoid x s = (Ok (amap logistic x), s)
  /\ shape (amap logistic x) = shape x.
Proof.
  intros Hwf. split; [|apply shape_amap].
  unfold sigmoid.
  erewrite bind_Ok; cycle 1.
  { rewrite lift_run, broadcast_scalar_l by (now do 2 apply wf_amap).
    reflexivity. }
  rewrite lift_run, broadcast_scalar_l by (now do 3 apply wf_amap).
  now rewrite !amap_amap.
Qed.

End Sigmoid.

(** ** Two calls of [fit] *)

Section Resume.
Context {F G : Type} `{Float64 F} `{RandomState F G}.
Implicit Types (self : LogisticModel (F:=F)) (w : world (G:=G)).
Implicit Types (ws ys : list F) (rows : list (list F)).

Lemma fit_run self w dt lay ws ys rows (lr : F) (k : Z) :
  has_weights self dt lay ws ->
  wf_rows (length ws) rows ->
  length ys = length rows ->
  0 <= k ->
  fit (Arr1 ys) (Arr2 (length ws) rows) lr k (self, w)
  = (Ok tt,
     (with_W self
        (dt, weights_array lay
               (Nat.iter (Z.to_nat k) (descent_step dt lr ys rows) ws)),
      add_stdout w (counter_lines 0 k))).
Proof.
  intros HW Hwf Hlen Hk. unfold fit.
  pose proof (for_each_fit_body dt lay ys rows lr (Z.to_nat k)
                self ws 0 w HW Hwf Hlen) as Hrun.
  rewrite Z2Nat.id in Hrun by assumption. exact Hrun.
Qed.

Lemma length_iter_descent_step dt (lr : F) ys rows ws (k : nat) :
  length (Nat.iter k (descent_step dt lr ys rows) ws) = length ws.
Proof.
  induction k as [|k IH]; [reflexivity|].
  simpl. now rewrite length_descent_step.
Qed.

(** X6.  Training can be resumed: [fit] with [k1] iterations followed
    by [fit] with [k2] iterations on the same data and learning rate
    leaves the object that one call with [k1 + k2] iterations leaves.
    Only the printed counters differ: they start again from 0 in the
    second call. *)
Theorem fit_resumes_training self w dt lay ws ys rows (lr : F) (k1 k2 : Z) :
  has_weights self dt lay ws ->
  wf_rows (length ws) rows ->
  length ys = length rows ->
  0 <= k1 -> 0 <= k2 ->
  let X := Arr2 (length ws) rows in
  let twice := (fit (Arr1 ys) X lr k1 ;;; fit (Arr1 ys) X lr k2) (self, w) in
  let once := fit (Arr1 ys) X lr (k1 + k2) (self, w) in
  fst twice = Ok tt
  /\ fst once = Ok tt
  /\ fst (snd twice) = fst (snd once)
  /\ stdout (snd (snd twice))
     = stdout w ++ counter_lines 0 k1 ++ counter_lines 0 k2
  /\ stdout (snd (snd once)) = stdout w ++ counter_lines 0 (k1 + k2).
Proof.
  intros HW Hwf Hlen Hk1 Hk2 X twice once.
  set (step := descent_step dt lr ys rows).
  set (ws1 := Nat.iter (Z.to_nat k1) step ws).
  assert (Hlen1 : length ws1 = length ws) by apply length_iter_descent_step.
  assert (Honce : once
            = (Ok tt,
               (with_W self
                  (dt, weights_array lay (Nat.iter (Z.to_nat (k1 + k2)) step ws)),
                add_stdout w (counter_lines 0 (k1 + k2)))))
    by (apply fit_run; assumption || lia).
  assert (Htwice : twice
            = (Ok tt,
               (with_W self
                  (dt, weights_array lay (Nat.iter (Z.to_nat k2) step ws1)),
                add_stdout (add_stdout w (counter_lines 0 k1))
                  (counter_lines 0 k2)))).
  { unfold twice, X.
    erewrite bind_Ok by (apply fit_run; eassumption).
    fold step. fold ws1. rewrite <- Hlen1.
    rewrite (fit_run (with_W self (dt, weights_array lay ws1)) _ dt lay ws1);
      [reflexivity|reflexivity| |assumption|assumption].
    now rewrite Hlen1. }
  rewrite Honce, Htwice. cbn [fst snd stdout add_stdout].
  split; [reflexivity|]. split; [reflexivity|].
  split; [|split; [now rewrite <- app_assoc | reflexivity]].
  unfold ws1. rewrite <- Nat.iter_add.
  do 4 f_equal. lia.
Qed.

End Resume.

(** ** Construction: the random policies and a negative extent *)

Section Construction.
Context {F G : Type} `{Float64 F} `{RandomState F G}.
Implicit Types (w : world (G:=G)).

(** A column of draws is the sequence of the draws. *)
Lemma draw_rows_single (sample : G -> F * G) (r : nat) (g : G) :
  draw_rows sample r 1 g
  = (fmap (M:=list) (fun x => [x]) (fst (draw_list sample r g)),
     snd (draw_list sample r g)).
Proof.
  revert g. induction r as [|r IH]; intros g; [reflexivity|].
  cbn [draw_rows draw_list].
  destruct (sample g) as [x g1]. rewrite IH.
  destruct (draw_list sample r g1) as [xs g2]. reflexivity.
Qed.

Lemma np_random_column (sample : G -> F * G) (n : Z) (g : G) :
  0 <= n ->
  np_random sample n 1 g
  = (Ok (weights_array Column (fst (draw_list sample (Z.to_nat n) g))),
     snd (draw_list sample (Z.to_nat n) g)).
Proof.
  intros Hn. unfold np_random.
  destruct (Z.ltb_spec n 0); [lia|].
  now rewrite draw_rows_single.
Qed.

(** X7.  For [ndims >= -1], construction with ['uniform'] returns
    normally and sets [W] to a float64 column of [ndims + 1] items: item
    [i] is draw number [i] of [uniform(low=0, high=1)] from the
    generator of the world, which is left in the state after these
    draws; with ['gaussian'] the draws are those of
    [normal(loc=0, scale=0.1)].  Nothing is printed and no file is
    touched. *)
Theorem init_random_draws_in_order (n : Z) w :
  -1 <= n ->
  let k := Z.to_nat (n + 1) in
  let u := draw_list (random_uniform f64_zero f64_one) k (random_state w) in
  let g := draw_list (random_normal f64_zero f64_tenth) k (random_state w) in
  __init__ n "uniform" w
  = (Ok {| ndims := n; W_init := "uniform";
           W := Some (float64, weights_array Column (fst u)) |},
     {| files := files w; stdout := stdout w; random_state := snd u |})
  /\ __init__ n "gaussian" w
     = (Ok {| ndims := n; W_init := "gaussian";
              W := Some (float64, weights_array Column (fst g)) |},
        {| files := files w; stdout := stdout w; random_state := snd g |})
  /\ Z.of_nat (length (fst u)) = n + 1
  /\ Z.of_nat (length (fst g)) = n + 1.
Proof.
  intros Hn k u g.
  split; [|split; [|split]].
  - unfold __init__. simpl. rewrite np_random_column by lia. reflexivity.
  - unfold __init__. simpl. rewrite np_random_column by lia. reflexivity.
  - unfold u. rewrite length_draw_list. unfold k. lia.
  - unfold g. rewrite length_draw_list. unfold k. lia.
Qed.

(** X8.  With [ndims < -1] the extent [ndims + 1] is negative and each
    of the four named policies raises [ValueError]: no object is made,
    nothing is printed and no number is drawn. *)
Theorem init_negative_extent_raises (n : Z) (name : string) w :
  named_policy name ->
  n < -1 ->
  __init__ n name w = (Raise ValueError, w).
Proof.
  intros Hname Hn.
  assert (Hfull : forall x : F, np_full x (n + 1) 1 = Raise ValueError).
  { intros x. unfold np_full. destruct (Z.ltb_spec (n + 1) 0); [reflexivity|lia]. }
  assert (Hrand : forall (sample : G -> F * G) (g : G),
            np_random sample (n + 1) 1 g = (Raise ValueError, g)).
  { intros sample g. unfold np_random.
    destruct (Z.ltb_spec (n + 1) 0); [reflexivity|lia]. }
  destruct w as [fs out g].
  destruct Hname as [Hn1 | [Hn1 | [Hn1 | Hn1]]]; subst name;
    unfold __init__, np_zeros, np_ones; simpl;
    rewrite ?Hfull, ?Hrand; reflexivity.
Qed.

End Construction.

(** ** Files of 4-byte items *)

(** Induction over a list four elements at a time. *)
Lemma list_ind4 {A} (P : list A -> Prop) :
  (forall l, (length l < 4)%nat -> P l) ->
  (forall a b c d rest, P rest -> P (a :: b :: c :: d :: rest)) ->
  forall l, P l.
Proof.
  intros Hshort Hstep l.
  remember (length l) as n eqn:Hn. revert l Hn.
  induction n as [n IH] using lt_wf_ind. intros l Hn.
  destruct l as [|a [|b [|c [|d rest]]]];
    try (apply Hshort; simpl; lia).
  apply Hstep. apply (IH (length rest)); [subst n; simpl; lia | reflexivity].
Qed.

Lemma fromfile_items_short (bs : list Byte.byte) :
  (length bs < 4)%nat -> fromfile_items bs = [].
Proof.
  intros Hlen. destruct bs as [|a [|b [|c [|d rest]]]]; try reflexivity.
  simpl in Hlen. lia.
Qed.

Lemma length_fromfile_items (bs : list Byte.byte) :
  length (fromfile_items bs) = (length bs / 4)%nat.
Proof.
  induction bs as [bs Hlen|a b c d rest IH] using list_ind4.
  - rewrite fromfile_items_short by assumption.
    now rewrite Nat.div_small.
  - cbn [fromfile_items length]. rewrite IH.
    change (S (S (S (S (length rest))))) with (4 + length rest)%nat.
    replace (4 + length rest)%nat with (1 * 4 + length rest)%nat by lia.
    rewrite Nat.div_add_l by lia. lia.
Qed.

(** Item [i] of the array is made of the bytes [4i .. 4i+3] of the file. *)
Lemma lookup_fromfile_items (bs : list Byte.byte) :
  forall (i : nat) (a b c d : Byte.byte),
  bs !! (4 * i)%nat = Some a -> bs !! (4 * i + 1)%nat = Some b ->
  bs !! (4 * i + 2)%nat = Some c -> bs !! (4 * i + 3)%nat = Some d ->
  fromfile_items bs !! i = Some (a, b, c, d).
Proof.
  induction bs as [bs Hlen|a0 b0 c0 d0 rest IH] using list_ind4;
    intros i a b c d Ha Hb Hc Hd.
  - apply lookup_lt_Some in Hd. lia.
  - cbn [fromfile_items]. destruct i as [|i].
    + change (Some a0 = Some a) in Ha. change (Some b0 = Some b) in Hb.
      change (Some c0 = Some c) in Hc. change (Some d0 = Some d) in Hd.
      change (Some (a0, b0, c0, d0) = Some (a, b, c, d)). congruence.
    + replace (4 * S i)%nat with (S (S (S (S (4 * i))))) in * by lia.
      cbn [Nat.add] in Hb, Hc, Hd.
      rewrite lookup_cons. apply IH; assumption.
Qed.

(** Writing back the items read gives the whole-item prefix of the file. *)
Lemma tofile_fromfile (bs : list Byte.byte) :
  tofile_bytes (fromfile_items bs) = take (4 * (length bs / 4)) bs.
Proof.
  unfold tofile_bytes.
  induction bs as [bs Hlen|a b c d rest IH] using list_ind4.
  - rewrite fromfile_items_short by assumption.
    now rewrite Nat.div_small.
  - cbn [fromfile_items fmap list_fmap concat item_bytes length].
    change (S (S (S (S (length rest))))) with (4 + length rest)%nat.
    replace (4 + length rest)%nat with (1 * 4 + length rest)%nat by lia.
    rewrite Nat.div_add_l by lia.
    replace (4 * (1 + length rest / 4))%nat
      with (S (S (S (S (4 * (length rest / 4)))))) by lia.
    simpl. now rewrite IH.
Qed.

Lemma length_tofile_bytes (items : list item4) :
  length (tofile_bytes items) = (4 * length items)%nat.
Proof.
  unfold tofile_bytes.
  induction items as [|[[[a b] c] d] items IH]; [reflexivity|].
  cbn [fmap list_fmap concat item_bytes length app].
  change (length (concat (item_bytes <$> items)))
    with (length (concat (fmap (M:=list) item_bytes items))).
  simpl. rewrite IH. lia.
Qed.

Section Persistence.
Context {F G : Type} `{Float64 F} `{RandomState F G}.
Implicit Types (self : LogisticModel (F:=F)) (w : world (G:=G)).
Implicit Types (ws ys : list F) (rows : list (list F)).

(** X9.  [load_model] on a path that holds no file raises
    [FileNotFoundError] and changes nothing: [W] keeps its value and no
    message is printed.  On a file of [n] bytes it returns normally
    whatever [W] was before (unset included) and replaces it by a flat
    float32 array of [n / 4] items, rounded down: item [i] is the value
    of the bytes [4i .. 4i+3] and trailing bytes are ignored.  The
    message is printed; [ndims], [W_init] and the files are as they
    were. *)
Theorem load_model_reads_whole_items self w (path : string) :
  (files w !! path = None ->
   load_model path (self, w) = (Raise FileNotFoundError, (self, w)))
  /\ (forall bs : list Byte.byte,
        files w !! path = Some bs ->
        exists items : list F,
          load_model path (self, w)
          = (Ok tt,
             (with_W self (float32, Arr1 items),
              add_stdout w [[PStr "model loaded from"; PStr path]]))
          /\ length items = (length bs / 4)%nat
          /\ forall (i : nat) (a b c d : Byte.byte),
               bs !! (4 * i)%nat = Some a -> bs !! (4 * i + 1)%nat = Some b ->
               bs !! (4 * i + 2)%nat = Some c -> bs !! (4 * i + 3)%nat = Some d ->
               items !! i = Some (f64_of_f32 (a, b, c, d))).
Proof.
  split.
  - apply load_model_missing.
  - intros bs Hf.
    exists (fmap (M:=list) f64_of_f32 (fromfile_items bs)).
    split; [now apply load_model_run|].
    split; [now rewrite length_fmap, length_fromfile_items|].
    intros i a b c d Ha Hb Hc Hd.
    apply list_lookup_fmap_Some. exists (a, b, c, d).
    split; [reflexivity|].
    now apply lookup_fromfile_items.
Qed.

(** X10.  On a model whose weights are set, [save_model] returns
    normally and leaves the object as it is ([W] keeps its dtype, shape
    and values: the conversion to float32 is made on a copy).  The named
    file is created or replaced and holds exactly four bytes per weight,
    the same bytes for a column and for a flat array; every other file
    is as it was, and one message is printed. *)
Theorem save_model_writes_four_bytes_per_item self w dt lay ws (path : string) :
  has_weights self dt lay ws ->
  let bs := tofile_bytes (fmap (M:=list) f64_to_f32 ws) in
  let w' := snd (snd (save_model path (self, w))) in
  save_model path (self, w)
  = (Ok tt,
     (self,
      {| files := <[path := bs]> (files w);
         stdout := stdout w ++ [[PStr "model saved to"; PStr path]];
         random_state := random_state w |}))
  /\ files w' !! path = Some bs
  /\ length bs = (4 * length ws)%nat
  /\ (forall q : string, q <> path -> files w' !! q = files w !! q).
Proof.
  intros HW bs w'.
  assert (Hrun : save_model path (self, w)
            = (Ok tt,
               (self,
                {| files := <[path := bs]> (files w);
                   stdout := stdout w ++ [[PStr "model saved to"; PStr path]];
                   random_state := random_state w |}))).
  { rewrite (save_model_run self w dt (weights_array lay ws) path HW).
    now rewrite ravel_weights_array. }
  split; [exact Hrun|].
  unfold w'. rewrite Hrun. simpl.
  split; [apply lookup_insert_eq|].
  split.
  - unfold bs. now rewrite length_tofile_bytes, length_fmap.
  - intros q Hq. now apply lookup_insert_ne.
Qed.

Lemma fmap_cast_exact ws :
  float32_exact ws ->
  fmap (M:=list) (fun x => f64_of_f32 (f64_to_f32 x)) ws = ws.
Proof.
  unfold float32_exact, cast. intros Hws.
  induction Hws as [|x ws Hx Hws IH]; [reflexivity|].
  cbn [fmap list_fmap]. now rewrite Hx, IH.
Qed.

(** X11.  A model in the state [load_model] leaves it in -- a flat
    float32 array, whose items are float32 values -- goes through
    [save_model] and [load_model] on one path without any change: the
    object afterwards is the object before. *)
Theorem float32_model_roundtrip_is_exact self w ws (path : string) :
  has_weights self float32 Flat ws ->
  float32_exact ws ->
  fst ((save_model path ;;; load_model path) (self, w)) = Ok tt
  /\ fst (snd ((save_model path ;;; load_model path) (self, w))) = self.
Proof.
  intros HW Hws.
  rewrite (save_then_load_run self w float32 Flat ws path HW).
  cbn [fst snd]. split; [reflexivity|].
  rewrite fmap_cast_exact by assumption.
  now apply with_W_same.
Qed.

(** X12.  When every weight is a float32 value (as after ['zeros'] or
    ['ones']), saving and reloading the model changes no prediction:
    [forward] and [classify] return the same items before and after.
    The shape differs: the values come in an array of shape [(1, N)]
    from a column of weights and in a flat array of shape [(N,)] from
    the reloaded model. *)
Theorem reload_preserves_predictions self w dt lay ws rows (path : string) :
  has_weights self dt lay ws ->
  float32_exact ws ->
  wf_rows (length ws) rows ->
  let X := Arr2 (length ws) rows in
  let ps := fmap (M:=list) (fun x => logistic (score ws x)) rows in
  let labels := fmap (M:=list) label ps in
  exists s' : state (F:=F) (G:=G),
    (save_model path ;;; load_model path) (self, w) = (Ok tt, s')
    /\ forward X (self, w) = (Ok (samples_array lay ps), (self, w))
    /\ forward X s' = (Ok (Arr1 ps), s')
    /\ classify X (self, w) = (Ok (samples_array lay labels), (self, w))
    /\ classify X s' = (Ok (Arr1 labels), s').
Proof.
  intros HW Hws Hwf X ps labels.
  eexists. split.
  { rewrite (save_then_load_run self w dt lay ws path HW).
    rewrite fmap_cast_exact by assumption. reflexivity. }
  assert (HW' : has_weights (with_W self (float32, weights_array Flat ws))
                  float32 Flat ws) by reflexivity.
  assert (Hl : labels = fmap (M:=list) (fun x => label (logistic (score ws x))) rows).
  { unfold labels, ps. now rewrite <- list_fmap_compose. }
  split; [now apply (forward_run self w dt lay ws rows)|].
  split; [now apply (forward_run _ _ float32 Flat ws rows)|].
  rewrite Hl.
  split; [now apply (classify_run self w dt lay ws rows)|].
  now apply (classify_run _ _ float32 Flat ws rows).
Qed.

End Persistence.

Section WrongLength.
Context {F G : Type} `{Float64 F} `{RandomState F G}.
Implicit Types (self : LogisticModel (F:=F)) (w : world (G:=G)).
Implicit Types (ws ys : list F) (rows : list (list F)).

(** X13.  [load_model] accepts a file whose number of items is not
    [ndims + 1]; the mismatch surfaces at the next use of the weights:
    on a matrix of [ndims + 1] columns, [forward], [classify] and
    [backward] then raise [ValueError]. *)
Theorem load_of_wrong_length_breaks_forward self w (path : string)
    (bs : list Byte.byte) (c : nat) rows (Y_true : ndarray F) :
  files w !! path = Some bs ->
  Z.of_nat c = ndims self + 1 ->
  Z.of_nat (length bs / 4) <> ndims self + 1 ->
  let X := Arr2 c rows in
  exists s' : state (F:=F) (G:=G),
    load_model path (self, w) = (Ok tt, s')
    /\ ndims (fst s') = ndims self
    /\ forward X s' = (Raise ValueError, s')
    /\ classify X s' = (Raise ValueError, s')
    /\ backward Y_true X s' = (Raise ValueError, s').
Proof.
  intros Hf Hc Hne X.
  set (items := fmap (M:=list) f64_of_f32 (fromfile_items bs)).
  assert (Hlen : length items = (length bs / 4)%nat)
    by (unfold items; now rewrite length_fmap, length_fromfile_items).
  assert (Hc' : c <> length items) by (rewrite Hlen; lia).
  eexists. split; [exact (load_model_run self w path bs Hf)|].
  assert (HW : has_weights (with_W self (float32, Arr1 items)) float32 Flat items)
    by reflexivity.
  assert (Hfw : forward X (with_W self (float32, Arr1 items),
                           add_stdout w [[PStr "model loaded from"; PStr path]])
                = (Raise ValueError,
                   (with_W self (float32, Arr1 items),
                    add_stdout w [[PStr "model loaded from"; PStr path]])))
    by (eapply forward_width_mismatch; eassumption).
  split; [reflexivity|]. split; [exact Hfw|]. split.
  - unfold classify. erewrite bind_Raise; [reflexivity|exact Hfw].
  - eapply backward_width_mismatch; eassumption.
Qed.

End WrongLength.

(** ** Binary64: the bytes of a float32 item *)

Lemma byte_of_Z_of_byte (b : Byte.byte) :
  Binary64.byte_of_Z (Binary64.Z_of_byte b) = b.
Proof.
  pose proof (Z_of_byte_range b) as Hr.
  unfold Binary64.byte_of_Z. rewrite Z.mod_small by assumption.
  unfold Binary64.Z_of_byte. rewrite N2Z.id.
  now rewrite Byte.of_to_N.
Qed.

Lemma byte_of_Z_mod (n : Z) :
  Binary64.byte_of_Z (n mod 256) = Binary64.byte_of_Z n.
Proof. unfold Binary64.byte_of_Z. now rewrite Z.mod_mod by lia. Qed.

Lemma byte_of_Z_low (b : Byte.byte) (q : Z) :
  Binary64.byte_of_Z (Binary64.Z_of_byte b + 256 * q) = b.
Proof.
  rewrite <- byte_of_Z_mod.
  replace (Binary64.Z_of_byte b + 256 * q) with (Binary64.Z_of_byte b + q * 256) by lia.
  rewrite Z.mod_add by lia.
  rewrite byte_of_Z_mod. apply byte_of_Z_of_byte.
Qed.

Lemma bits_of_item_range (w : item4) : 0 <= Binary64.bits_of_item w < 2 ^ 32.
Proof.
  destruct w as [[[b0 b1] b2] b3]. unfold Binary64.bits_of_item.
  pose proof (Z_of_byte_range b0). pose proof (Z_of_byte_range b1).
  pose proof (Z_of_byte_range b2). pose proof (Z_of_byte_range b3).
  change (2 ^ 8) with 256. change (2 ^ 16) with 65536.
  change (2 ^ 24) with 16777216. change (2 ^ 32) with 4294967296.
  lia.
Qed.

Lemma item_of_bits_of_item (w : item4) :
  Binary64.item_of_bits (Binary64.bits_of_item w) = w.
Proof.
  destruct w as [[[b0 b1] b2] b3].
  unfold Binary64.item_of_bits, Binary64.bits_of_item.
  pose proof (Z_of_byte_range b0) as H0. pose proof (Z_of_byte_range b1) as H1.
  pose proof (Z_of_byte_range b2) as H2. pose proof (Z_of_byte_range b3) as H3.
  set (z0 := Binary64.Z_of_byte b0) in *. set (z1 := Binary64.Z_of_byte b1) in *.
  set (z2 := Binary64.Z_of_byte b2) in *. set (z3 := Binary64.Z_of_byte b3) in *.
  change (2 ^ 8) with 256. change (2 ^ 16) with 65536.
  change (2 ^ 24) with 16777216.
  rewrite !Z.shiftr_div_pow2 by lia.
  change (2 ^ 8) with 256. change (2 ^ 16) with 65536.
  change (2 ^ 24) with 16777216.
  set (z := z0 + 256 * z1 + 65536 * z2 + 16777216 * z3).
  assert (D8 : z / 256 = z1 + 256 * (z2 + 256 * z3)).
  { symmetry. apply (Z.div_unique z 256 _ z0); [lia|unfold z; lia]. }
  assert (D16 : z / 65536 = z2 + 256 * z3).
  { symmetry. apply (Z.div_unique z 65536 _ (z0 + 256 * z1)); [lia|unfold z; lia]. }
  assert (D24 : z / 16777216 = z3 + 256 * 0).
  { symmetry.
    apply (Z.div_unique z 16777216 _ (z0 + 256 * z1 + 65536 * z2));
      [lia|unfold z; lia]. }
  rewrite D8, D16, D24.
  replace z with (z0 + 256 * (z1 + 256 * z2 + 65536 * z3)) by (unfold z; lia).
  unfold z0, z1, z2, z3. now rewrite !byte_of_Z_low.
Qed.

(** The three fields of a 32-bit pattern put it together again. *)
Lemma bits_fields (z : Z) :
  0 <= z < 2 ^ 32 ->
  z = Binary64.sign_bit (Z.testbit z 31) * 2 ^ 31
      + Z.land (Z.shiftr z 23) 255 * 2 ^ 23
      + Z.land z (2 ^ 23 - 1).
Proof.
  intros Hz.
  change (2 ^ 23 - 1) with (Z.ones 23). change 255 with (Z.ones 8).
  rewrite !Z.land_ones, Z.shiftr_div_pow2 by lia.
  assert (H31 : 0 <= 31) by lia.
  pose proof (Z.testbit_spec' z 31 H31) as Ht.
  assert (Hq : 0 <= z / 2 ^ 31 < 2).
  { split; [apply Z.div_pos; lia|].
    apply Z.div_lt_upper_bound; [lia|].
    change (2 ^ 31 * 2) with (2 ^ 32). lia. }
  rewrite (Z.mod_small (z / 2 ^ 31) 2) in Ht by lia.
  assert (Hs : Binary64.sign_bit (Z.testbit z 31) = z / 2 ^ 31).
  { rewrite <- Ht. now destruct (Z.testbit z 31). }
  rewrite Hs.
  pose proof (Z.div_mod z (2 ^ 23) ltac:(lia)) as H23.
  pose proof (Z.div_mod (z / 2 ^ 23) (2 ^ 8) ltac:(lia)) as H8.
  assert (Hdd : z / 2 ^ 23 / 2 ^ 8 = z / 2 ^ 31).
  { rewrite Z.div_div by lia. reflexivity. }
  rewrite Hdd in H8.
  change (2 ^ 31) with (2 ^ 23 * 2 ^ 8) at 2.
  lia.
Qed.

Lemma fields_range (z : Z) :
  0 <= Z.land (Z.shiftr z 23) 255 < 2 ^ 8
  /\ 0 <= Z.land z (2 ^ 23 - 1) < 2 ^ 23.
Proof.
  change (2 ^ 23 - 1) with (Z.ones 23). change 255 with (Z.ones 8).
  rewrite !Z.land_ones by lia.
  split; apply Z.mod_pos_bound; lia.
Qed.

(** Encoding the value of a 32-bit pattern gives the pattern back, unless
    the pattern is a NaN (all NaN patterns are one value here). *)
Lemma bits_of_binary32_of_bits (z : Z) :
  0 <= z < 2 ^ 32 ->
  Binary64.is_nan (Binary64.binary32_of_bits z) = false ->
  Binary64.bits_of_binary32 (Binary64.binary32_of_bits z) = z.
Proof.
  intros Hz Hnan. pose proof (bits_fields z Hz) as Hd.
  destruct (fields_range z) as [HE Hf].
  unfold Binary64.binary32_of_bits in *.
  set (s := Z.testbit z 31) in *.
  set (E := Z.land (Z.shiftr z 23) 255) in *.
  set (f := Z.land z (2 ^ 23 - 1)) in *.
  assert (Hsign : (if s then 2 ^ 31 else 0) = Binary64.sign_bit s * 2 ^ 31)
    by now destruct s.
  destruct (Z.eqb_spec E 0) as [HE0|HE0].
  - destruct f as [|m|m] eqn:Hfm; [| |lia];
      unfold Binary64.bits_of_binary32; rewrite Hsign; lia.
  - destruct (Z.eqb_spec E 255) as [HE1|HE1].
    + destruct (Z.eqb_spec f 0) as [Hf0|Hf0]; [|discriminate Hnan].
      unfold Binary64.bits_of_binary32. rewrite Hsign. lia.
    + destruct (f + 2 ^ 23) as [|m|m] eqn:Hfm; [lia| |lia].
      unfold Binary64.bits_of_binary32. rewrite Hsign. lia.
Qed.

(** A float32 item that is not a NaN is converted back to its own bytes. *)
Lemma to_f32_of_f32 (b : item4) :
  Binary64.is_nan (Binary64.of_f32 b) = false ->
  Binary64.to_f32 (Binary64.of_f32 b) = b.
Proof.
  intros Hnan.
  pose proof (valid32_binary32_of_bits (Binary64.bits_of_item b)) as Hv.
  pose proof (bits_of_item_range b) as Hr.
  assert (Hback : forall v,
            Binary64.binary32_of_bits (Binary64.bits_of_item b) = v ->
            Binary64.is_nan v = false ->
            Binary64.item_of_bits (Binary64.bits_of_binary32 v) = b).
  { intros v <- Hv'. rewrite bits_of_binary32_of_bits by assumption.
    apply item_of_bits_of_item. }
  unfold Binary64.of_f32 in *.
  destruct (Binary64.binary32_of_bits (Binary64.bits_of_item b))
    as [s|s| |s m e] eqn:Hb.
  - unfold Binary64.to_f32. cbn [Binary64.to_binary32]. now apply Hback.
  - unfold Binary64.to_f32. cbn [Binary64.to_binary32]. now apply Hback.
  - discriminate Hnan.
  - destruct (widen_valid32 s m e Hv) as (d & Hd & Hw).
    rewrite Hw. unfold Binary64.to_f32.
    rewrite (narrow_widened s m d e Hv). now apply Hback.
Qed.

Lemma fmap_to_f32_of_f32 (items : list item4) :
  Forall (fun b => Binary64.is_nan (Binary64.of_f32 b) = false) items ->
  fmap (M:=list) Binary64.to_f32 (fmap (M:=list) Binary64.of_f32 items) = items.
Proof.
  intros Hall. induction Hall as [|b items Hb Hall IH]; [reflexivity|].
  cbn [fmap list_fmap]. rewrite to_f32_of_f32 by assumption.
  f_equal. exact IH.
Qed.

(** ** Binary64: models of float32 weights, and zero weights *)

Section Float32Models.
Context {G : Type}.
Variable e : spec_float -> spec_float.
Local Abbreviation B := (Binary64.binary64_with e).
Implicit Types (self : LogisticModel (F:=spec_float)) (w : world (G:=G)).

(** X14.  In binary64, [load_model(p)] followed by [save_model(q)]
    copies the items of the file byte for byte: the file at [q] is the
    file at [p] cut after its last whole 4-byte item, and the file
    itself when its size is a multiple of four.  (No item of the file is
    a NaN: the embedding keeps one NaN for all NaN patterns.) *)
Theorem load_then_save_copies_the_items self w (p q : string)
    (bs : list Byte.byte) :
  files w !! p = Some bs ->
  Forall (fun b => Binary64.is_nan (Binary64.of_f32 b) = false)
    (fromfile_items bs) ->
  let copy := take (4 * (length bs / 4)) bs in
  let r := (load_model (H:=B) p ;;; save_model (H:=B) q) (self, w) in
  fst r = Ok tt
  /\ files (snd (snd r)) !! q = Some copy
  /\ ((length bs mod 4 = 0)%nat -> copy = bs).
Proof.
  intros Hf Hall copy r. unfold r.
  erewrite bind_Ok by (apply (load_model_run (H:=B)), Hf).
  erewrite (save_model_run (H:=B)) by reflexivity.
  cbn [fst snd files ravel].
  split; [reflexivity|]. split.
  - rewrite lookup_insert_eq. f_equal.
    change (@f64_to_f32 _ B) with Binary64.to_f32.
    change (@f64_of_f32 _ B) with Binary64.of_f32.
    rewrite fmap_to_f32_of_f32 by assumption.
    apply tofile_fromfile.
  - intros Hmod. unfold copy.
    apply take_ge.
    pose proof (Nat.div_mod_eq (length bs) 4). lia.
Qed.

Lemma loaded_float32_exact (items : list item4) :
  float32_exact (H:=B) (fmap (M:=list) Binary64.of_f32 items).
Proof.
  unfold float32_exact. apply Forall_fmap, Forall_true.
  intros b. apply of_f32_to_f32_of_f32.
Qed.

Lemma descent_step_float32_exact (lr : spec_float) (ys : list spec_float)
    (rows : list (list spec_float)) (ws : list spec_float) :
  float32_exact (H:=B) (descent_step (H:=B) float32 lr ys rows ws).
Proof.
  unfold descent_step, float32_exact.
  generalize (gradient (H:=B) ws ys rows). intros gs. revert gs.
  induction ws as [|x ws IH]; intros [|g gs]; simpl; constructor.
  - apply of_f32_to_f32_of_f32.
  - apply IH.
Qed.

Lemma iter_descent_float32_exact (lr : spec_float) (ys : list spec_float)
    (rows : list (list spec_float)) (ws : list spec_float) (k : nat) :
  float32_exact (H:=B) ws ->
  float32_exact (H:=B) (Nat.iter k (descent_step (H:=B) float32 lr ys rows) ws).
Proof.
  intros Hws. destruct k as [|k]; [exact Hws|].
  simpl. apply descent_step_float32_exact.
Qed.

(** X15.  In binary64, a model that was loaded from a file and then
    trained by [fit] still holds float32 values only (each update is
    stored in the float32 array), so [save_model] followed by
    [load_model] gives back exactly the trained object: for such a model
    the round trip through a file loses nothing. *)
Theorem trained_float32_model_roundtrip_is_exact self w (p q : string)
    (bs : list Byte.byte) (ys : list spec_float)
    (rows : list (list spec_float)) (lr : spec_float) (k : Z) :
  files w !! p = Some bs ->
  wf_rows (file_items bs) rows ->
  length ys = length rows ->
  0 <= k ->
  let X := Arr2 (file_items bs) rows in
  let trained := (load_model (H:=B) p ;;; fit (H:=B) (Arr1 ys) X lr k) (self, w) in
  let reloaded := (save_model (H:=B) q ;;; load_model (H:=B) q) (snd trained) in
  fst trained = Ok tt
  /\ fst reloaded = Ok tt
  /\ fst (snd reloaded) = fst (snd trained).
Proof.
  intros Hf Hwf Hlen Hk X trained reloaded.
  set (items := fmap (M:=list) Binary64.of_f32 (fromfile_items bs)).
  assert (Hn : length items = file_items bs)
    by (unfold items, file_items; apply length_fmap).
  set (step := descent_step (H:=B) float32 lr ys rows).
  assert (Htrained : trained
            = (Ok tt,
               (with_W self
                  (float32, weights_array Flat (Nat.iter (Z.to_nat k) step items)),
                add_stdout
                  (add_stdout w [[PStr "model loaded from"; PStr p]])
                  (counter_lines 0 k)))).
  { unfold trained, X.
    erewrite bind_Ok by (apply (load_model_run (H:=B)), Hf).
    rewrite <- Hn in *.
    pose proof (for_each_fit_body (H:=B) float32 Flat ys rows lr (Z.to_nat k)
                  (with_W self (float32, Arr1 items)) items 0
                  (add_stdout w [[PStr "model loaded from"; PStr p]])
                  eq_refl Hwf Hlen) as Hrun.
    rewrite Z2Nat.id in Hrun by assumption.
    unfold fit. exact Hrun. }
  unfold reloaded. rewrite Htrained. cbn [fst snd].
  split; [reflexivity|].
  erewrite (save_then_load_run (H:=B)) by reflexivity.
  cbn [fst snd]. split; [reflexivity|].
  rewrite (fmap_cast_exact (H:=B)); [reflexivity|].
  apply iter_descent_float32_exact, loaded_float32_exact.
Qed.

Lemma mul_zero_finite (x : spec_float) :
  Binary64.is_finite x = true ->
  exists s, Binary64.mul Binary64.zero x = S754_zero s.
Proof.
  destruct x as [s|s| |s m ex]; try discriminate; intros _;
    eexists; reflexivity.
Qed.

(** With zero weights every product is a zero and the sum stays [+0]. *)
Lemma score_zero_weights (n : nat) (x : list spec_float) :
  Forall (fun v => Binary64.is_finite v = true) x ->
  score (H:=B) (replicate n Binary64.zero) x = Binary64.zero.
Proof.
  unfold score, dotp.
  change (@f64_zero _ B) with Binary64.zero.
  change (@f64_add _ B) with Binary64.add.
  change (@f64_mul _ B) with Binary64.mul.
  intros Hx. revert n.
  induction Hx as [|v x Hv Hx IH]; intros [|n]; try reflexivity.
  cbn [replicate zip_with foldl].
  destruct (mul_zero_finite v Hv) as [s ->].
  replace (Binary64.add Binary64.zero (S754_zero s)) with Binary64.zero
    by (destruct s; reflexivity).
  apply IH.
Qed.

Lemma logistic_of_zero :
  e (S754_zero true) = Binary64.one ->
  logistic (H:=B) Binary64.zero = Binary64.half.
Proof.
  intros He. unfold logistic.
  change (@f64_exp _ B) with e. change (@f64_neg _ B) with Binary64.neg.
  change (Binary64.neg Binary64.zero) with (S754_zero true).
  rewrite He. vm_compute. reflexivity.
Qed.

(** X16.  In binary64, with an exponential that gives [exp(-0) = 1], a
    model whose weights are all zero -- the model ['zeros'] builds --
    gives every sample of finite features the probability 0.5 exactly,
    and [classify] labels every such sample -1, since [0.5 > 0.5] is
    false. *)
Theorem zero_weights_predict_half self w (dt : dtype) (lay : layout) (n : nat)
    (rows : list (list spec_float)) :
  e (S754_zero true) = Binary64.one ->
  has_weights self dt lay (replicate n Binary64.zero) ->
  wf_rows n rows ->
  Forall (Forall (fun v => Binary64.is_finite v = true)) rows ->
  let X := Arr2 n rows in
  forward (H:=B) X (self, w)
  = (Ok (samples_array lay (replicate (length rows) Binary64.half)), (self, w))
  /\ classify (H:=B) X (self, w)
     = (Ok (samples_array lay (replicate (length rows) (-1))), (self, w)).
Proof.
  intros He HW Hwf Hfin X. unfold X.
  assert (Hn : length (replicate n Binary64.zero) = n) by apply length_replicate.
  rewrite <- Hn in Hwf |- *.
  assert (Hps : fmap (M:=list)
                  (fun x => logistic (H:=B) (score (H:=B) (replicate n Binary64.zero) x))
                  rows
                = replicate (length rows) Binary64.half).
  { clear Hwf. induction Hfin as [|x rows Hx Hfin IH]; [reflexivity|].
    cbn [fmap list_fmap length replicate].
    rewrite score_zero_weights by assumption.
    rewrite logistic_of_zero by assumption.
    f_equal. exact IH. }
  split.
  - rewrite (forward_run (H:=B) self w dt lay _ rows HW Hwf).
    now rewrite Hps.
  - rewrite (classify_run (H:=B) self w dt lay _ rows HW Hwf).
    rewrite (list_fmap_compose
               (fun x => logistic (H:=B) (score (H:=B) (replicate n Binary64.zero) x))
               (label (H:=B))).
    rewrite Hps. now rewrite fmap_replicate.
Qed.

End Float32Models.

(** ** Binary64: NaN and overflow *)

Section NaNs.
Context {G : Type}.
Variable e : spec_float -> spec_float.
Local Abbreviation B := (Binary64.binary64_with e).
Implicit Types (self : LogisticModel (F:=spec_float)) (w : world (G:=G)).

Lemma is_nan_true (v : spec_float) : Binary64.is_nan v = true -> v = S754_nan.
Proof. destruct v; try discriminate. reflexivity. Qed.

Lemma add_nan_r (x : spec_float) : Binary64.add x S754_nan = S754_nan.
Proof. now destruct x. Qed.

Lemma mul_nan_l (x : spec_float) : Binary64.mul S754_nan x = S754_nan.
Proof. reflexivity. Qed.

Lemma mul_nan_r (x : spec_float) : Binary64.mul x S754_nan = S754_nan.
Proof. now destruct x. Qed.

Lemma foldl_add_nan (l : list spec_float) :
  foldl Binary64.add S754_nan l = S754_nan.
Proof. induction l as [|x l IH]; [reflexivity|exact IH]. Qed.

(** One NaN among the weights or the features makes the score NaN. *)
Lemma score_nan (ws x : list spec_float) :
  length x = length ws ->
  Exists (fun v => Binary64.is_nan v = true) x
  \/ Exists (fun v => Binary64.is_nan v = true) ws ->
  score (H:=B) ws x = S754_nan.
Proof.
  unfold score, dotp.
  change (@f64_zero _ B) with Binary64.zero.
  change (@f64_add _ B) with Binary64.add.
  change (@f64_mul _ B) with Binary64.mul.
  generalize Binary64.zero. intros acc Hlen Hnan. revert x acc Hlen Hnan.
  induction ws as [|w0 ws IH]; intros [|x0 x] acc Hlen Hnan;
    try discriminate Hlen.
  - destruct Hnan as [Hn|Hn]; inversion Hn.
  - cbn [zip_with foldl].
    assert (Hcases : Binary64.mul w0 x0 = S754_nan
                     \/ (Exists (fun v => Binary64.is_nan v = true) x
                         \/ Exists (fun v => Binary64.is_nan v = true) ws)).
    { destruct Hnan as [Hn|Hn]; inversion Hn as [? ? Hv|? ? Hv]; subst.
      - left. apply is_nan_true in Hv. subst x0. apply mul_nan_r.
      - right. now left.
      - left. apply is_nan_true in Hv. subst w0. apply mul_nan_l.
      - right. now right. }
    destruct Hcases as [Hm|Hrest].
    + rewrite Hm, add_nan_r. apply foldl_add_nan.
    + apply IH; [simpl in Hlen; lia | exact Hrest].
Qed.

Lemma logistic_nan :
  e S754_nan = S754_nan -> logistic (H:=B) S754_nan = S754_nan.
Proof.
  intros He. unfold logistic.
  change (@f64_exp _ B) with e. change (@f64_neg _ B) with Binary64.neg.
  change (Binary64.neg S754_nan) with S754_nan.
  rewrite He. reflexivity.
Qed.

(** X17.  In binary64, with an exponential that gives [exp(NaN) = NaN],
    a NaN raises nothing: a sample one of whose features is NaN gets the
    probability NaN and, since [NaN > 0.5] is false, the label -1; when
    one weight is NaN, every sample does. *)
Theorem nan_gives_nan_and_minus_one self w (dt : dtype) (lay : layout)
    (ws : list spec_float) (rows : list (list spec_float)) :
  e S754_nan = S754_nan ->
  has_weights self dt lay ws ->
  wf_rows (length ws) rows ->
  let X := Arr2 (length ws) rows in
  exists (ps : list spec_float) (labels : list Z),
    forward (H:=B) X (self, w) = (Ok (samples_array lay ps), (self, w))
    /\ classify (H:=B) X (self, w) = (Ok (samples_array lay labels), (self, w))
    /\ forall (i : nat) (x : list spec_float),
         rows !! i = Some x ->
         Exists (fun v => Binary64.is_nan v = true) x
         \/ Exists (fun v => Binary64.is_nan v = true) ws ->
         ps !! i = Some S754_nan /\ labels !! i = Some (-1).
Proof.
  intros He HW Hwf X.
  exists (fmap (M:=list) (fun x => logistic (H:=B) (score (H:=B) ws x)) rows),
         (fmap (M:=list) (fun x => label (H:=B) (logistic (H:=B) (score (H:=B) ws x))) rows).
  split; [exact (forward_run (H:=B) self w dt lay ws rows HW Hwf)|].
  split; [exact (classify_run (H:=B) self w dt lay ws rows HW Hwf)|].
  intros i x Hx Hnan.
  assert (Hlen : length x = length ws).
  { unfold wf_rows in Hwf. rewrite Forall_lookup in Hwf. exact (Hwf i x Hx). }
  rewrite !list_lookup_fmap, Hx. cbn [fmap option_fmap option_map].
  rewrite (score_nan ws x Hlen Hnan), (logistic_nan He).
  split; reflexivity.
Qed.

Lemma sub_nan_l (x : spec_float) : Binary64.sub S754_nan x = S754_nan.
Proof. reflexivity. Qed.

Lemma sub_nan_r (x : spec_float) : Binary64.sub x S754_nan = S754_nan.
Proof. now destruct x. Qed.

Lemma cast_nan (dt : dtype) : cast (H:=B) dt S754_nan = S754_nan.
Proof. destruct dt; reflexivity. Qed.

(** Where the exponential overflows, the contribution is [inf / inf]. *)
Lemma F_term_overflow (y d : spec_float) :
  e (Binary64.mul (Binary64.neg y) d) = S754_infinity false ->
  F_term (H:=B) y d = S754_nan.
Proof.
  intros He. unfold F_term, E_term.
  change (@f64_exp _ B) with e. change (@f64_neg _ B) with Binary64.neg.
  change (@f64_mul _ B) with Binary64.mul. change (@f64_div _ B) with Binary64.div.
  change (@f64_add _ B) with Binary64.add. change (@f64_one _ B) with Binary64.one.
  rewrite He. now destruct y.
Qed.

Lemma contributions_overflow (ws ys : list spec_float)
    (rows : list (list spec_float)) (i : nat) (x : list spec_float)
    (y : spec_float) :
  rows !! i = Some x -> ys !! i = Some y ->
  e (Binary64.mul (Binary64.neg y) (score (H:=B) ws x)) = S754_infinity false ->
  Exists (fun v => Binary64.is_nan v = true) (contributions (H:=B) ws ys rows).
Proof.
  intros Hx Hy He. apply Exists_exists.
  exists S754_nan. split; [|reflexivity].
  apply (list_elem_of_lookup_2 _ i). unfold contributions.
  apply lookup_zip_with_Some. exists y, x.
  split; [|split; assumption].
  symmetry. now apply F_term_overflow.
Qed.

Lemma gradient_overflow (ws ys : list spec_float)
    (rows : list (list spec_float)) :
  length ys = length rows ->
  Exists (fun v => Binary64.is_nan v = true) (contributions (H:=B) ws ys rows) ->
  gradient (H:=B) ws ys rows = replicate (length ws) S754_nan.
Proof.
  intros Hlen Hnan. unfold gradient. rewrite <- tab_const.
  apply tab_ext. intros j _.
  apply (score_nan (column j rows)); [|now left].
  unfold contributions. rewrite length_zip_with, length_column. lia.
Qed.

Lemma descent_step_nan_gradient (dt : dtype) (lr : spec_float)
    (ys : list spec_float) (rows : list (list spec_float)) (ws : list spec_float) :
  gradient (H:=B) ws ys rows = replicate (length ws) S754_nan ->
  descent_step (H:=B) dt lr ys rows ws = replicate (length ws) S754_nan.
Proof.
  intros Hg. unfold descent_step. rewrite Hg. clear Hg.
  change (@f64_sub _ B) with Binary64.sub. change (@f64_mul _ B) with Binary64.mul.
  induction ws as [|x ws IH]; [reflexivity|].
  cbn [length replicate zip_with]. rewrite mul_nan_l, sub_nan_r, cast_nan.
  f_equal. exact IH.
Qed.

Lemma descent_step_nan_weights (dt : dtype) (lr : spec_float)
    (ys : list spec_float) (rows : list (list spec_float)) (n : nat) :
  descent_step (H:=B) dt lr ys rows (replicate n S754_nan) = replicate n S754_nan.
Proof.
  unfold descent_step.
  pose proof (length_gradient (H:=B) (replicate n S754_nan) ys rows) as Hlen.
  rewrite length_replicate in Hlen. revert Hlen.
  generalize (gradient (H:=B) (replicate n S754_nan) ys rows).
  change (@f64_sub _ B) with Binary64.sub. change (@f64_mul _ B) with Binary64.mul.
  induction n as [|n IH]; intros [|g gs] Hlen; try discriminate Hlen;
    [reflexivity|].
  cbn [replicate zip_with]. rewrite sub_nan_l, cast_nan.
  f_equal. apply IH. simpl in Hlen. lia.
Qed.

Lemma iter_descent_nan (dt : dtype) (lr : spec_float)
    (ys : list spec_float) (rows : list (list spec_float)) (ws : list spec_float)
    (k : nat) :
  gradient (H:=B) ws ys rows = replicate (length ws) S754_nan ->
  Nat.iter (S k) (descent_step (H:=B) dt lr ys rows) ws
  = replicate (length ws) S754_nan.
Proof.
  intros Hg. induction k as [|k IH].
  - simpl. now apply descent_step_nan_gradient.
  - rewrite Nat.iter_succ, IH. apply descent_step_nan_weights.
Qed.

(** X18.  In binary64, when for one sample the exponential of
    [-y * score] overflows to [+inf], the contribution of that sample is
    [inf / inf]: [backward] returns a gradient whose components are all
    NaN, and [fit] with at least one pass returns normally with every
    weight NaN. *)
Theorem exp_overflow_poisons_the_weights self w (dt : dtype) (lay : layout)
    (ws ys : list spec_float) (rows : list (list spec_float))
    (lr : spec_float) (k : Z) (i : nat) (x : list spec_float) (y : spec_float) :
  has_weights self dt lay ws ->
  wf_rows (length ws) rows ->
  length ys = length rows ->
  rows !! i = Some x ->
  ys !! i = Some y ->
  e (Binary64.mul (Binary64.neg y) (score (H:=B) ws x)) = S754_infinity false ->
  1 <= k ->
  let X := Arr2 (length ws) rows in
  let nans := replicate (length ws) S754_nan in
  backward (H:=B) (Arr1 ys) X (self, w)
  = (Ok (weights_array lay nans), (self, w))
  /\ fit (H:=B) (Arr1 ys) X lr k (self, w)
     = (Ok tt,
        (with_W self (dt, weights_array lay nans),
         add_stdout w (counter_lines 0 k))).
Proof.
  intros HW Hwf Hlen Hx Hy He Hk X nans.
  assert (Hg : gradient (H:=B) ws ys rows = nans).
  { apply gradient_overflow; [assumption|].
    eapply contributions_overflow; eassumption. }
  split.
  - unfold X. rewrite (backward_run (H:=B) self w dt lay ws ys rows HW Hwf Hlen).
    now rewrite Hg.
  - unfold X.
    rewrite (fit_run (H:=B) self w dt lay ws ys rows lr k HW Hwf Hlen)
      by lia.
    replace (Z.to_nat k) with (S (Z.to_nat (k - 1))) by lia.
    now rewrite iter_descent_nan.
Qed.

End NaNs.

(** ** The further properties at concrete inputs, in binary64 *)

Lemma labels3_count :
  length Examples.labels3 <> length Examples.rows0
  /\ length Examples.labels3 <> 1%nat.
Proof. split; intros Hc; discriminate Hc. Defined.

Lemma wrong_width_raises_ValueError_witness :
  has_weights Examples.model0 float64 Column
    [Binary64.zero; Binary64.zero; Binary64.zero]
  /\ 2%nat <> length [Binary64.zero; Binary64.zero; Binary64.zero]
  /\ forward (Arr2 2 Examples.rows_narrow) (Examples.model0, Examples.world0)
     = (Raise ValueError, (Examples.model0, Examples.world0)).
Proof.
  assert (Hc : 2%nat <> length [Binary64.zero; Binary64.zero; Binary64.zero])
    by (intros Hc; discriminate Hc).
  split; [exact model0_has_weights|]. split; [exact Hc|].
  exact (proj1 (wrong_width_raises_ValueError Examples.model0 Examples.world0
                  float64 Column _ 2 Examples.rows_narrow
                  (Arr1 Examples.labels0) Binary64.tenth 1
                  model0_has_weights Hc)).
Defined.

Lemma wrong_label_count_raises_ValueError_witness :
  has_weights Examples.model0 float64 Column
    [Binary64.zero; Binary64.zero; Binary64.zero]
  /\ length Examples.labels3 <> length Examples.rows0
  /\ backward (Arr1 Examples.labels3) (Arr2 3 Examples.rows0)
       (Examples.model0, Examples.world0)
     = (Raise ValueError, (Examples.model0, Examples.world0)).
Proof.
  split; [exact model0_has_weights|]. split; [exact (proj1 labels3_count)|].
  exact (proj1 (wrong_label_count_raises_ValueError Examples.model0
                  Examples.world0 float64 Column _ Examples.labels3
                  Examples.rows0 Binary64.tenth 1
                  model0_has_weights rows0_wf
                  (proj1 labels3_count) (proj2 labels3_count))).
Defined.

Lemma single_label_is_broadcast_witness :
  has_weights Examples.model0 float64 Column
    [Binary64.zero; Binary64.zero; Binary64.zero]
  /\ backward (Arr1 [Binary64.one]) (Arr2 3 Examples.rows0)
       (Examples.model0, Examples.world0)
     = backward (Arr1 [Binary64.one; Binary64.one]) (Arr2 3 Examples.rows0)
         (Examples.model0, Examples.world0).
Proof.
  split; [exact model0_has_weights|].
  exact (proj2 (single_label_is_broadcast Examples.model0 Examples.world0
                  float64 Column _ Binary64.one Examples.rows0
                  model0_has_weights rows0_wf)).
Defined.

Lemma empty_batch_gives_zero_gradient_witness :
  has_weights Examples.model0 float64 Column
    [Binary64.zero; Binary64.zero; Binary64.zero]
  /\ backward (Arr1 []) (Arr2 3 []) (Examples.model0, Examples.world0)
     = (Ok (Arr2 1 [[Binary64.zero]; [Binary64.zero]; [Binary64.zero]]),
        (Examples.model0, Examples.world0)).
Proof.
  split; [exact model0_has_weights|].
  exact (proj2 (proj2 (empty_batch_gives_zero_gradient Examples.model0
                         Examples.world0 float64 Column _ model0_has_weights))).
Defined.

Lemma sigmoid_is_elementwise_witness :
  wf (Arr1 [Binary64.zero])
  /\ sigmoid (Arr1 [Binary64.zero]) (Examples.model_unset, Examples.world0)
     = (Ok (Arr1 [Binary64.half]), (Examples.model_unset, Examples.world0)).
Proof.
  split; [exact I|].
  exact (proj1 (sigmoid_is_elementwise (Arr1 [Binary64.zero])
                  (Examples.model_unset, Examples.world0) I)).
Defined.

Lemma fit_resumes_training_witness :
  0 <= 1
  /\ fst (snd ((fit (Arr1 Examples.labels0) (Arr2 3 Examples.rows0) Binary64.tenth 1 ;;;
                 fit (Arr1 Examples.labels0) (Arr2 3 Examples.rows0) Binary64.tenth 1)
                (Examples.model0, Examples.world0)))
     = fst (snd (fit (Arr1 Examples.labels0) (Arr2 3 Examples.rows0) Binary64.tenth 2
                   (Examples.model0, Examples.world0))).
Proof.
  assert (H1 : 0 <= 1) by (intros Hc; discriminate Hc).
  split; [exact H1|].
  exact (proj1 (proj2 (proj2
           (fit_resumes_training Examples.model0 Examples.world0 float64 Column
              _ Examples.labels0 Examples.rows0 Binary64.tenth 1 1
              model0_has_weights rows0_wf labels0_length H1 H1)))).
Defined.

Lemma init_random_draws_in_order_witness :
  -1 <= 2
  /\ exists (ws : list spec_float) (g : Z),
       __init__ 2 "uniform" Examples.world0
       = (Ok {| ndims := 2; W_init := "uniform";
                W := Some (float64, weights_array Column ws) |},
          {| files := files Examples.world0; stdout := stdout Examples.world0;
             random_state := g |})
       /\ Z.of_nat (length ws) = 3.
Proof.
  assert (Hn : -1 <= 2) by (intros Hc; discriminate Hc).
  split; [exact Hn|].
  destruct (init_random_draws_in_order (F:=spec_float) 2 Examples.world0 Hn)
    as (Hu & _ & Hlen & _).
  eexists. eexists. split; [exact Hu | exact Hlen].
Defined.

Lemma zeros_named : named_policy "zeros".
Proof. left. reflexivity. Defined.

Lemma init_negative_extent_raises_witness :
  named_policy "zeros" /\ -2 < -1
  /\ __init__ (F:=spec_float) (-2) "zeros" Examples.world0
     = (Raise ValueError, Examples.world0).
Proof.
  assert (Hn : -2 < -1) by reflexivity.
  split; [exact zeros_named|]. split; [exact Hn|].
  exact (init_negative_extent_raises (F:=spec_float) (-2) "zeros"
           Examples.world0 zeros_named Hn).
Defined.

Lemma world1_file : files Examples.world1 !! "w.bin"%string = Some Examples.one_item.
Proof. apply lookup_singleton_eq. Defined.

Lemma load_model_reads_whole_items_witness :
  files Examples.world1 !! "w.bin"%string = Some Examples.one_item
  /\ exists items : list spec_float,
       fst (load_model "w.bin" (Examples.model_unset, Examples.world1)) = Ok tt
       /\ W (fst (snd (load_model "w.bin" (Examples.model_unset, Examples.world1))))
          = Some (float32, Arr1 items)
       /\ length items = 1%nat.
Proof.
  split; [exact world1_file|].
  destruct (proj2 (load_model_reads_whole_items (F:=spec_float)
                     Examples.model_unset Examples.world1 "w.bin")
              Examples.one_item world1_file) as (items & Hrun & Hlen & _).
  exists items. rewrite Hrun.
  split; [reflexivity|]. split; [reflexivity | exact Hlen].
Defined.

Lemma save_model_writes_four_bytes_per_item_witness :
  has_weights Examples.model0 float64 Column
    [Binary64.zero; Binary64.zero; Binary64.zero]
  /\ exists bs : list Byte.byte,
       files (snd (snd (save_model "w.bin" (Examples.model0, Examples.world0))))
         !! "w.bin"%string = Some bs
       /\ length bs = 12%nat.
Proof.
  split; [exact model0_has_weights|].
  destruct (save_model_writes_four_bytes_per_item Examples.model0 Examples.world0
              float64 Column _ "w.bin" model0_has_weights)
    as (_ & Hfile & Hlen & _).
  eexists. split; [exact Hfile | exact Hlen].
Defined.

Lemma model_loaded_has_weights :
  has_weights Examples.model_loaded float32 Flat [Binary64.one].
Proof. reflexivity. Defined.

Lemma one_float32_exact : float32_exact [Binary64.one].
Proof. constructor; [reflexivity | constructor]. Defined.

Lemma zeros_float32_exact :
  float32_exact [Binary64.zero; Binary64.zero; Binary64.zero].
Proof. repeat constructor. Defined.

Lemma float32_model_roundtrip_is_exact_witness :
  has_weights Examples.model_loaded float32 Flat [Binary64.one]
  /\ float32_exact [Binary64.one]
  /\ fst (snd ((save_model "w.bin" ;;; load_model "w.bin")
                 (Examples.model_loaded, Examples.world0)))
     = Examples.model_loaded.
Proof.
  split; [exact model_loaded_has_weights|]. split; [exact one_float32_exact|].
  exact (proj2 (float32_model_roundtrip_is_exact Examples.model_loaded
                  Examples.world0 _ "w.bin"
                  model_loaded_has_weights one_float32_exact)).
Defined.

Lemma reload_preserves_predictions_witness :
  has_weights Examples.model0 float64 Column
    [Binary64.zero; Binary64.zero; Binary64.zero]
  /\ float32_exact [Binary64.zero; Binary64.zero; Binary64.zero]
  /\ exists (labels : list Z) (s' : state (F:=spec_float) (G:=Z)),
       (save_model "w.bin" ;;; load_model "w.bin")
         (Examples.model0, Examples.world0) = (Ok tt, s')
       /\ classify (Arr2 3 Examples.rows0) (Examples.model0, Examples.world0)
          = (Ok (samples_array Column labels), (Examples.model0, Examples.world0))
       /\ classify (Arr2 3 Examples.rows0) s' = (Ok (Arr1 labels), s').
Proof.
  split; [exact model0_has_weights|]. split; [exact zeros_float32_exact|].
  destruct (reload_preserves_predictions Examples.model0 Examples.world0
              float64 Column _ Examples.rows0 "w.bin"
              model0_has_weights zeros_float32_exact rows0_wf)
    as (s' & Hrun & _ & _ & Hc & Hc').
  eexists. exists s'. split; [exact Hrun|]. split; [exact Hc | exact Hc'].
Defined.

Lemma one_item_not_nan :
  Forall (fun b => Binary64.is_nan (Binary64.of_f32 b) = false)
    (fromfile_items Examples.one_item).
Proof. repeat constructor. Defined.

Lemma load_then_save_copies_the_items_witness :
  files Examples.world1 !! "w.bin"%string = Some Examples.one_item
  /\ files (snd (snd ((load_model "w.bin" ;;; save_model "copy.bin")
                        (Examples.model0, Examples.world1))))
       !! "copy.bin"%string
     = Some Examples.one_item.
Proof.
  split; [exact world1_file|].
  exact (proj1 (proj2
           (load_then_save_copies_the_items Binary64.exp Examples.model0
              Examples.world1 "w.bin" "copy.bin" Examples.one_item
              world1_file one_item_not_nan))).
Defined.

Lemma rows_one_wf : wf_rows (file_items Examples.one_item) Examples.rows_one.
Proof. repeat constructor. Defined.

Lemma trained_float32_model_roundtrip_is_exact_witness :
  files Examples.world1 !! "w.bin"%string = Some Examples.one_item
  /\ 0 <= 2
  /\ fst (snd ((save_model "copy.bin" ;;; load_model "copy.bin")
                 (snd ((load_model "w.bin" ;;;
                        fit (Arr1 [Binary64.one]) (Arr2 1 Examples.rows_one)
                          Binary64.tenth 2)
                       (Examples.model0, Examples.world1)))))
     = fst (snd ((load_model "w.bin" ;;;
                  fit (Arr1 [Binary64.one]) (Arr2 1 Examples.rows_one)
                    Binary64.tenth 2)
                 (Examples.model0, Examples.world1))).
Proof.
  assert (Hk : 0 <= 2) by (intros Hc; discriminate Hc).
  split; [exact world1_file|]. split; [exact Hk|].
  exact (proj2 (proj2
           (trained_float32_model_roundtrip_is_exact Binary64.exp Examples.model0
              Examples.world1 "w.bin" "copy.bin" Examples.one_item
              [Binary64.one] Examples.rows_one Binary64.tenth 2
              world1_file rows_one_wf eq_refl Hk))).
Defined.

Lemma rows0_finite :
  Forall (Forall (fun v => Binary64.is_finite v = true)) Examples.rows0.
Proof. repeat constructor. Defined.

Lemma zero_weights_predict_half_witness :
  Binary64.exp (S754_zero true) = Binary64.one
  /\ has_weights Examples.model0 float64 Column (replicate 3 Binary64.zero)
  /\ classify (Arr2 3 Examples.rows0) (Examples.model0, Examples.world0)
     = (Ok (Arr2 2 [[-1; -1]]), (Examples.model0, Examples.world0)).
Proof.
  split; [reflexivity|]. split; [exact model0_has_weights|].
  exact (proj2 (zero_weights_predict_half Binary64.exp Examples.model0
                  Examples.world0 float64 Column 3 Examples.rows0
                  eq_refl model0_has_weights rows0_wf rows0_finite)).
Defined.

Lemma wrong_length_count :
  Z.of_nat 3 = ndims Examples.model0 + 1
  /\ Z.of_nat (length Examples.one_item / 4) <> ndims Examples.model0 + 1.
Proof. split; [reflexivity | intros Hc; discriminate Hc]. Defined.

Lemma load_of_wrong_length_breaks_forward_witness :
  files Examples.world1 !! "w.bin"%string = Some Examples.one_item
  /\ Z.of_nat (length Examples.one_item / 4) <> ndims Examples.model0 + 1
  /\ exists s' : state (F:=spec_float) (G:=Z),
       load_model "w.bin" (Examples.model0, Examples.world1) = (Ok tt, s')
       /\ forward (Arr2 3 Examples.rows0) s' = (Raise ValueError, s').
Proof.
  split; [exact world1_file|]. split; [exact (proj2 wrong_length_count)|].
  destruct (load_of_wrong_length_breaks_forward Examples.model0 Examples.world1
              "w.bin" Examples.one_item 3 Examples.rows0 (Arr1 Examples.labels0)
              world1_file (proj1 wrong_length_count) (proj2 wrong_length_count))
    as (s' & Hload & _ & Hfw & _).
  exists s'. split; [exact Hload | exact Hfw].
Defined.

Lemma rows_nan_wf :
  wf_rows (length [Binary64.zero; Binary64.zero; Binary64.zero]) Examples.rows_nan.
Proof. repeat constructor. Defined.

Lemma rows_nan_has_nan :
  Exists (fun v => Binary64.is_nan v = true) [Binary64.one; S754_nan; Binary64.zero]
  \/ Exists (fun v => Binary64.is_nan v = true)
       [Binary64.zero; Binary64.zero; Binary64.zero].
Proof. left. right. left. reflexivity. Defined.

Lemma nan_gives_nan_and_minus_one_witness :
  Binary64.exp S754_nan = S754_nan
  /\ has_weights Examples.model0 float64 Column
       [Binary64.zero; Binary64.zero; Binary64.zero]
  /\ exists (ps : list spec_float) (labels : list Z),
       forward (Arr2 3 Examples.rows_nan) (Examples.model0, Examples.world0)
       = (Ok (samples_array Column ps), (Examples.model0, Examples.world0))
       /\ classify (Arr2 3 Examples.rows_nan) (Examples.model0, Examples.world0)
          = (Ok (samples_array Column labels), (Examples.model0, Examples.world0))
       /\ ps !! 0%nat = Some S754_nan
       /\ labels !! 0%nat = Some (-1).
Proof.
  split; [reflexivity|]. split; [exact model0_has_weights|].
  destruct (nan_gives_nan_and_minus_one Binary64.exp Examples.model0
              Examples.world0 float64 Column _ Examples.rows_nan
              eq_refl model0_has_weights rows_nan_wf)
    as (ps & labels & Hf & Hc & Hnan).
  exists ps, labels. split; [exact Hf|]. split; [exact Hc|].
  exact (Hnan 0%nat _ eq_refl rows_nan_has_nan).
Defined.

Lemma rows2_wf : wf_rows (length [Binary64.one; Binary64.one]) Examples.rows2.
Proof. repeat constructor. Defined.

Lemma rows2_exp_overflows :
  Binary64.exp
    (Binary64.mul (Binary64.neg Binary64.one)
       (score [Binary64.one; Binary64.one] [Binary64.one; Binary64.of_Z (-711)]))
  = S754_infinity false.
Proof. vm_compute. reflexivity. Defined.

Lemma exp_overflow_poisons_the_weights_witness :
  has_weights Examples.model1 float64 Column [Binary64.one; Binary64.one]
  /\ 1 <= 1
  /\ fit (Arr1 [Binary64.one]) (Arr2 2 Examples.rows2) Binary64.tenth 1
       (Examples.model1, Examples.world0)
     = (Ok tt,
        (with_W Examples.model1
           (float64, weights_array Column [S754_nan; S754_nan]),
         add_stdout Examples.world0 [[PInt 0]])).
Proof.
  assert (Hk : 1 <= 1) by (intros Hc; discriminate Hc).
  split; [exact model1_has_weights|]. split; [exact Hk|].
  exact (proj2 (exp_overflow_poisons_the_weights Binary64.exp Examples.model1
                  Examples.world0 float64 Column _ [Binary64.one] Examples.rows2
                  Binary64.tenth 1 0 _ Binary64.one
                  model1_has_weights rows2_wf eq_refl eq_refl eq_refl
                  rows2_exp_overflows Hk)).
Defined.
